(** * Scenario execution pipeline of the REST API agents

    A shallow embedding of the Python sources

      - models/schemas.py
      - services/openapi_parser.py
      - services/api_executor.py
      - services/template_renderer.py
      - agents/qa_agent.py

    Python values are an inductive type, dictionaries are finite maps
    whose order of iteration is kept apart, exceptions are an explicit
    result type, and the calls that leave the repository (HTTP client,
    template engine, decoders, validators, the AI collaborator) are
    fields of one interface, [Runtime]. *)

From Stdlib Require Import ZArith String List Ascii Bool Lia.
From Stdlib Require Import Floats.SpecFloat.
From stdpp Require Import gmap strings list fin_maps pretty sorting.

#[local] Set Warnings "-register-all".
#[local] Open Scope string_scope.

(** ** Python text *)

Module Str.

(** [s.startswith(p)] *)
Fixpoint startswith (p s : string) : bool :=
  match p, s with
  | EmptyString, _ => true
  | String a p', String b s' => if Ascii.eqb a b then startswith p' s' else false
  | String _ _, EmptyString => false
  end.

(** [sub in s] on two texts *)
Fixpoint contains (sub s : string) : bool :=
  if startswith sub s then true
  else match s with
       | EmptyString => false
       | String _ s' => contains sub s'
       end.

(** [c in s] for a single character *)
Fixpoint has_char (c : ascii) (s : string) : bool :=
  match s with
  | EmptyString => false
  | String a s' => if Ascii.eqb a c then true else has_char c s'
  end.

(** The scan of [s.replace(old, new)] for a non-empty [old]: [skip]
    counts the characters of a match that are still to be dropped. *)
Fixpoint replace_scan (skip : nat) (old new s : string) : string :=
  match s with
  | EmptyString => EmptyString
  | String a s' =>
      match skip with
      | S k => replace_scan k old new s'
      | O =>
          if startswith old s
          then new +:+ replace_scan (String.length old - 1) old new s'
          else String a (replace_scan 0 old new s')
      end
  end.

(** [s.replace(old, new)] for an empty [old]: [new] before every character
    and at the end. *)
Fixpoint interleave (new s : string) : string :=
  match s with
  | EmptyString => new
  | String a s' => new +:+ String a (interleave new s')
  end.

(** [s.replace(old, new)] *)
Definition replace (old new s : string) : string :=
  match old with
  | EmptyString => interleave new s
  | String _ _ => replace_scan 0 old new s
  end.

(** [s.lstrip(c)] for a one-character set *)
Fixpoint lstrip (c : ascii) (s : string) : string :=
  match s with
  | EmptyString => EmptyString
  | String a s' => if Ascii.eqb a c then lstrip c s' else s
  end.

Fixpoint rev_acc (s acc : string) : string :=
  match s with
  | EmptyString => acc
  | String a s' => rev_acc s' (String a acc)
  end.

Definition rev (s : string) : string := rev_acc s EmptyString.

(** [s.rstrip(c)] *)
Definition rstrip (c : ascii) (s : string) : string := rev (lstrip c (rev s)).

(** [s.strip(c)] *)
Definition strip (c : ascii) (s : string) : string := rstrip c (lstrip c s).

(** [s.split(c)] for a one-character separator: never empty. *)
Fixpoint split (c : ascii) (s : string) : list string :=
  match s with
  | EmptyString => [EmptyString]
  | String a s' =>
      if Ascii.eqb a c then EmptyString :: split c s'
      else match split c s' with
           | [] => [String a EmptyString]
           | w :: ws => String a w :: ws
           end
  end.

(** [sep.join(parts)] *)
Fixpoint join (sep : string) (parts : list string) : string :=
  match parts with
  | [] => EmptyString
  | [p] => p
  | p :: ps => p +:+ sep +:+ join sep ps
  end.

End Str.

(** ** Python values, truthiness and exceptions *)

(** The values an [Any] field, a decoded document or a response body can
    hold.  Dictionaries have text keys, as JSON objects do. *)
Inductive PyVal : Type :=
| VNone
| VBool (b : bool)
| VInt (z : Z)
| VFloat (f : spec_float)
| VStr (s : string)
| VList (l : list PyVal)
| VDict (d : gmap string PyVal).

(** [bool(v)] *)
Definition truthy (v : PyVal) : bool :=
  match v with
  | VNone => false
  | VBool b => b
  | VInt z => negb (Z.eqb z 0)
  | VFloat (S754_zero _) => false
  | VFloat _ => true
  | VStr s => negb (String.eqb s EmptyString)
  | VList l => match l with [] => false | _ => true end
  | VDict d => negb (bool_decide (d = ∅))
  end.

(** [bool(s)] for a text that may be [None] *)
Definition truthy_opt (o : option string) : bool :=
  match o with
  | Some s => negb (String.eqb s EmptyString)
  | None => false
  end.

(** The exception classes that occur; all of them derive from
    [Exception].  Interrupts and task cancellation, which do not, are
    outside the model. *)
Inductive ExcClass : Type :=
| APIExecutionError
| OpenAPIParserError
| TimeoutException
| RequestError
| YAMLError
| JSONDecodeError
| ValueError
| TypeError
| AttributeError
| KeyError
| ValidationError
| OtherException.

#[global] Instance ExcClass_eq_dec : EqDecision ExcClass.
Proof. solve_decision. Defined.

(** A raised exception: its class and [str(e)]. *)
Record PyExc : Type := mkExc { exc_class : ExcClass; exc_str : string }.

(** The outcome of a computation that may raise. *)
Inductive Res (A : Type) : Type :=
| Ok (a : A)
| Raise (e : PyExc).

Arguments Ok {A} a.
Arguments Raise {A} e.

Definition raise {A} (c : ExcClass) (msg : string) : Res A := Raise (mkExc c msg).

Definition res_bind {A B} (r : Res A) (k : A -> Res B) : Res B :=
  match r with
  | Ok a => k a
  | Raise e => Raise e
  end.

Declare Scope res_scope.
Delimit Scope res_scope with res.
Notation "x <- r ;; k" := (res_bind r (fun x => k))
  (at level 100, r at next level, right associativity) : res_scope.

(** A loop whose body may raise: the first exception ends it. *)
Fixpoint res_fold {A B} (f : B -> A -> Res B) (l : list A) (acc : Res B) : Res B :=
  match l with
  | [] => acc
  | x :: l' => res_fold f l' (res_bind acc (fun b => f b x))
  end.

(** ** models/schemas.py *)

Inductive HTTPMethod : Type := GET | POST | PUT | PATCH | DELETE.

Inductive ParameterLocation : Type := PATH | QUERY | HEADER | BODY.

Inductive ParameterType : Type := STRING | INTEGER | NUMBER | BOOLEAN | ARRAY | OBJECT.

#[global] Instance HTTPMethod_eq_dec : EqDecision HTTPMethod.
Proof. solve_decision. Defined.

#[global] Instance ParameterLocation_eq_dec : EqDecision ParameterLocation.
Proof. solve_decision. Defined.

(** [method.value] *)
Definition method_value (m : HTTPMethod) : string :=
  match m with
  | GET => "GET" | POST => "POST" | PUT => "PUT" | PATCH => "PATCH" | DELETE => "DELETE"
  end.

Module APIParameter.
Record t : Type := mk {
  name : string;
  location : ParameterLocation;
  param_type : ParameterType;
  description : string;
  required : bool;
  default : PyVal;
  example : PyVal;
  enum : option (list string)
}.
End APIParameter.

Module APIResponse.
Record t : Type := mk {
  status_code : Z;
  description : string;
  schema : gmap string PyVal;
  example : option (gmap string PyVal)
}.
End APIResponse.

Module APIEndpoint.
Record t : Type := mk {
  path : string;
  method : HTTPMethod;
  operation_id : string;
  summary : string;
  description : string;
  tags : list string;
  parameters : list APIParameter.t;
  request_body : option (gmap string PyVal);
  responses : list APIResponse.t;
  suggested_description : option string;
  suggested_parameters : option (list APIParameter.t)
}.
End APIEndpoint.

Module APISpec.
Record t : Type := mk {
  title : string;
  version : string;
  description : string;
  base_url : string;
  endpoints : list APIEndpoint.t;
  servers : list (gmap string string);
  security_schemes : gmap string PyVal;
  original_spec : option (gmap string PyVal)
}.
End APISpec.

Module ParameterMapping.
Record t : Type := mk {
  entity_name : string;
  api_parameter : string;
  transform : option string
}.
End ParameterMapping.

(** [static_params] keeps the order in which the dictionary is
    iterated. *)
Module APIMapping.
Record t : Type := mk {
  endpoint_path : string;
  method : HTTPMethod;
  parameter_mappings : list ParameterMapping.t;
  static_params : list (string * PyVal)
}.
End APIMapping.

Module ResponseTemplate.
Record t : Type := mk {
  template : string;
  error_template : string;
  no_data_template : string
}.
End ResponseTemplate.

Module Scenario.
Record t : Type := mk {
  id : string;
  name : string;
  description : string;
  sample_questions : list string;
  required_entities : list string;
  api_mappings : list APIMapping.t;
  response_template : option ResponseTemplate.t;
  suggested_questions : option (list string);
  suggested_entities : option (list string)
}.
End Scenario.

Module ExtractedEntity.
Record t : Type := mk {
  name : string;
  value : PyVal;
  confidence : spec_float
}.
End ExtractedEntity.

Module ScenarioMatch.
Record t : Type := mk {
  scenario : Scenario.t;
  confidence : spec_float;
  extracted_entities : list ExtractedEntity.t
}.
End ScenarioMatch.

Module AgentResponse.
Record t : Type := mk {
  answer : string;
  scenario_used : option string;
  api_calls_made : list (gmap string PyVal);
  raw_api_responses : list (gmap string PyVal)
}.
End AgentResponse.

Module AgentConfig.
Record t : Type := mk {
  session_id : string;
  name : string;
  description : string;
  api_spec : APISpec.t;
  scenarios : list Scenario.t;
  auth_config : gmap string string
}.
End AgentConfig.

(** ** The world outside the repository *)

(** The arguments of [client.request(...)]. *)
Module Request.
Record t : Type := mk {
  method : string;
  url : string;
  params : option (gmap string PyVal);
  headers : gmap string string;
  json : option (gmap string PyVal)
}.
End Request.

(** What the executor reads of an [httpx] response; [json_body] is the
    outcome of [response.json()]. *)
Module Response.
Record t : Type := mk {
  status_code : Z;
  content_type : string;
  text : string;
  json_body : Res PyVal
}.
End Response.

(** [client.request] answers, or raises. *)
Inductive HttpOutcome : Type :=
| Responded (r : Response.t)
| Failed (e : PyExc).

(** Loading a template and rendering it against a context gives a
    text, or raises one of the three kinds [render] tells apart; the
    message is [e.message] for the first two and [str(e)] for the
    last. *)
Inductive JinjaOutcome : Type :=
| Rendered (text : string)
| SyntaxFault (message : string)
| UndefinedFault (message : string)
| OtherFault (message : string).

(** Library functions and external collaborators.  The code of the
    repository is written against this interface; the theorems below
    hold for every implementation of it. *)
Class Runtime : Type := {
  (** [str.lower], [str.upper], [str.strip()] *)
  str_lower : string -> string;
  str_upper : string -> string;
  str_strip : string -> string;
  (** [str(v)] of a float, a list or a dictionary *)
  str_compound : PyVal -> string;
  (** [int(v)], [float(v)] *)
  py_int : PyVal -> Res Z;
  py_float : PyVal -> Res spec_float;
  (** [datetime.strptime(text, fmt_in).strftime(fmt_out)], which raises
      a [ValueError] on a text that does not match the pattern and other
      exceptions on a pattern it cannot compile *)
  reformat_date : string -> string -> string -> Res string;
  (** [urllib.parse.urljoin], which raises a [ValueError] on an address
      it cannot split *)
  urljoin : string -> string -> Res string;
  (** [base64.b64encode] on text *)
  b64encode : string -> string;
  (** the order in which a dictionary iterates, which is the order in
      which its keys were inserted and, for a decoded document, the
      order of its text; the finite maps of this model do not record
      it, and it is read off the entries: dictionaries with the same
      entries are taken to iterate alike *)
  dict_items : gmap string PyVal -> list (string * PyVal);
  dict_items_entries : forall d, dict_items d ≡ₚ map_to_list d;
  (** [yaml.safe_load], [json.loads] *)
  yaml_safe_load : string -> Res PyVal;
  json_loads : string -> Res PyVal;
  (** pydantic's validation of a field declared [str], [bool],
      [list[str]], [list[str] | None], [dict[str, Any]],
      [dict[str, Any] | None] and [dict[str, str]] *)
  validate_str : PyVal -> Res string;
  validate_bool : PyVal -> Res bool;
  validate_str_list : PyVal -> Res (list string);
  validate_opt_str_list : PyVal -> Res (option (list string));
  validate_dict : PyVal -> Res (gmap string PyVal);
  validate_opt_dict : PyVal -> Res (option (gmap string PyVal));
  validate_str_dict : gmap string PyVal -> Res (gmap string string);
  (** the Jinja2 environment with the five custom filters installed *)
  jinja_render : string -> gmap string PyVal -> JinjaOutcome;
  (** the remote parties: the HTTP server behind [httpx] and the AI
      collaborator, both with a state of their own *)
  World : Type;
  http_request : Request.t -> World -> HttpOutcome * World;
  ai_match_scenario : string -> list Scenario.t -> World -> Res (option ScenarioMatch.t) * World;
  ai_generate_response : string -> Scenario.t -> PyVal -> World -> Res string * World
}.

(** ** Methods with state *)

(** A method that may raise and reads or writes a state [S]. *)
Definition SM (S A : Type) : Type := S -> Res A * S.

Definition ret {S A} (a : A) : SM S A := fun st => (Ok a, st).

Definition lift {S A} (r : Res A) : SM S A := fun st => (r, st).

Definition bind {S A B} (m : SM S A) (k : A -> SM S B) : SM S B :=
  fun st =>
    match m st with
    | (Ok a, st') => k a st'
    | (Raise e, st') => (Raise e, st')
    end.

Declare Scope m_scope.
Delimit Scope m_scope with M.
Notation "x <~ m ;; k" := (bind m (fun x => k))
  (at level 100, m at next level, right associativity) : m_scope.

(** A [for] loop with an accumulator. *)
Fixpoint sm_fold {S A B} (f : B -> A -> SM S B) (l : list A) (acc : B) : SM S B :=
  match l with
  | [] => ret acc
  | x :: l' => bind (f acc x) (sm_fold f l')
  end.

(** ** Effects: the remote state and the calls made so far *)

(** A call that crosses a component boundary. *)
Inductive Event `{Runtime} : Type :=
| EvHttp (req : Request.t)
| EvJinja (template : string) (context : gmap string PyVal)
| EvMatch (question : string)
| EvEngine (scenario : Scenario.t) (entities : list ExtractedEntity.t)
| EvGenerate (question : string) (data : PyVal).

Record St `{Runtime} : Type := mkSt { world : World; trace : list Event }.

Arguments mkSt {_} world trace.

(** The methods of the executor, the renderer and the agent. *)
Abbreviation M := (SM St).

Definition emit `{Runtime} (ev : Event) : M unit :=
  fun st => (Ok tt, mkSt (world st) (trace st ++ [ev])).

(** ** Helpers on Python values *)

Section Builtins.
Context `{R : Runtime}.

(** [str(v)] *)
Definition py_str (v : PyVal) : string :=
  match v with
  | VNone => "None"
  | VBool true => "True"
  | VBool false => "False"
  | VInt z => pretty z
  | VStr s => s
  | _ => str_compound v
  end.

(** [type(v).__name__], as it appears in error messages *)
Definition type_name (v : PyVal) : string :=
  match v with
  | VNone => "NoneType"
  | VBool _ => "bool"
  | VInt _ => "int"
  | VFloat _ => "float"
  | VStr _ => "str"
  | VList _ => "list"
  | VDict _ => "dict"
  end.

Definition no_attribute {A} (v : PyVal) (attr : string) : Res A :=
  raise AttributeError ("'" +:+ type_name v +:+ "' object has no attribute '" +:+ attr +:+ "'").

(** [d.get(key, dflt)] on a dictionary *)
Definition dict_get (d : gmap string PyVal) (key : string) (dflt : PyVal) : PyVal :=
  match d !! key with
  | Some v => v
  | None => dflt
  end.

(** [v.get(key, dflt)] on a value that need not be a dictionary *)
Definition py_get (v : PyVal) (key : string) (dflt : PyVal) : Res PyVal :=
  match v with
  | VDict d => Ok (dict_get d key dflt)
  | _ => no_attribute v "get"
  end.

Definition is_str (s : string) (v : PyVal) : bool :=
  match v with
  | VStr t => String.eqb t s
  | _ => false
  end.

(** [s in v] for a text [s] *)
Definition py_in (s : string) (v : PyVal) : Res bool :=
  match v with
  | VDict d => Ok (bool_decide (is_Some (d !! s)))
  | VList l => Ok (existsb (is_str s) l)
  | VStr t => Ok (Str.contains s t)
  | _ => raise TypeError ("argument of type '" +:+ type_name v +:+ "' is not iterable")
  end.

(** [v.items()]: the entries in the order in which the dictionary
    iterates. *)
Definition py_items (v : PyVal) : Res (list (string * PyVal)) :=
  match v with
  | VDict d => Ok (dict_items d)
  | _ => no_attribute v "items"
  end.

End Builtins.

(** ** services/api_executor.py *)

Module APIExecutor.
Section Executor.
Context `{R : Runtime}.

#[local] Open Scope res_scope.

(** The executor.  The values of [auth_config] (type, token, key name,
    key value, key location, user name, password) are texts. *)
Record t : Type := mk {
  api_spec : APISpec.t;
  auth_config : gmap string string;
  timeout : spec_float;
  base_url : string
}.

(** [__init__] *)
Definition init (spec : APISpec.t) (auth : option (gmap string string)) (timeout : spec_float) : t :=
  mk spec (default ∅ auth) timeout
     (if String.eqb (APISpec.base_url spec) EmptyString then EmptyString
      else Str.rstrip "/" (APISpec.base_url spec)).

Definition _find_endpoint (self : t) (path : string) (method : HTTPMethod) : option APIEndpoint.t :=
  List.find (fun endpoint =>
               bool_decide (APIEndpoint.path endpoint = path)
               && bool_decide (APIEndpoint.method endpoint = method))
            (APISpec.endpoints (api_spec self)).

Definition _apply_transform (value : PyVal) (transform : string) : Res PyVal :=
  if String.eqb transform "lowercase" then Ok (VStr (str_lower (py_str value)))
  else if String.eqb transform "uppercase" then Ok (VStr (str_upper (py_str value)))
  else if String.eqb transform "trim" then Ok (VStr (str_strip (py_str value)))
  else if String.eqb transform "int" then z <- py_int value ;; Ok (VInt z)
  else if String.eqb transform "float" then f <- py_float value ;; Ok (VFloat f)
  else if String.eqb transform "bool" then
    Ok (VBool (bool_decide (str_lower (py_str value) ∈ ["true"; "1"; "yes"])))
  else if Str.startswith "date_format:" transform then
    match Str.split ":" transform with
    | _ :: input_fmt :: output_fmt :: _ =>
        match reformat_date (py_str value) input_fmt output_fmt with
        | Ok text => Ok (VStr text)
        | Raise e => if bool_decide (exc_class e = ValueError) then Ok value else Raise e
        end
    | _ => Ok value
    end
  else Ok value.

(** [if mapping.transform: value = self._apply_transform(value, mapping.transform)] *)
Definition transformed (value : PyVal) (transform : option string) : Res PyVal :=
  if truthy_opt transform then _apply_transform value (default EmptyString transform) else Ok value.

Definition placeholder (name : string) : string := "{" +:+ name +:+ "}".

(** One round of the first loop of [_build_url]. *)
Definition substitute_mapping (entity_map : gmap string PyVal)
    (url_path : string) (mapping : ParameterMapping.t) : Res string :=
  let ph := placeholder (ParameterMapping.api_parameter mapping) in
  if Str.contains ph url_path then
    value <- transformed (dict_get entity_map (ParameterMapping.entity_name mapping) (VStr EmptyString))
                         (ParameterMapping.transform mapping) ;;
    Ok (Str.replace ph (py_str value) url_path)
  else Ok url_path.

(** One round of its second loop. *)
Definition substitute_static (url_path : string) (item : string * PyVal) : string :=
  let ph := placeholder (fst item) in
  if Str.contains ph url_path then Str.replace ph (py_str (snd item)) url_path
  else url_path.

(** The local [url_path] of [_build_url] when it reaches its [return]. *)
Definition url_path_of (path : string) (api_mapping : APIMapping.t)
    (entity_map : gmap string PyVal) : Res string :=
  url_path <- res_fold (substitute_mapping entity_map)
                       (APIMapping.parameter_mappings api_mapping) (Ok path) ;;
  Ok (fold_left substitute_static (APIMapping.static_params api_mapping) url_path).

Definition _build_url (self : t) (path : string) (api_mapping : APIMapping.t)
    (entity_map : gmap string PyVal) : Res string :=
  url_path <- url_path_of path api_mapping entity_map ;;
  urljoin (base_url self +:+ "/") (Str.lstrip "/" url_path).

Definition is_param (name : string) (loc : ParameterLocation) (p : APIParameter.t) : bool :=
  bool_decide (APIParameter.name p = name) && bool_decide (APIParameter.location p = loc).

(** The names of the parameters the endpoint declares at [loc]. *)
Definition names_at (loc : ParameterLocation) (endpoint : APIEndpoint.t) : list string :=
  APIParameter.name <$>
    filter (fun p => APIParameter.location p = loc) (APIEndpoint.parameters endpoint).

(** One round of the loop over [parameter_mappings] in
    [_build_query_params] and [_build_body]: [selected] is the test on
    the target name. *)
Definition add_mapped (selected : bool) (entity_map : gmap string PyVal)
    (params : gmap string PyVal) (mapping : ParameterMapping.t) : Res (gmap string PyVal) :=
  if selected then
    match entity_map !! ParameterMapping.entity_name mapping with
    | Some VNone | None => Ok params
    | Some value =>
        value' <- transformed value (ParameterMapping.transform mapping) ;;
        Ok (<[ParameterMapping.api_parameter mapping := value']> params)
    end
  else Ok params.

(** One round of the loop over [static_params] in [_build_query_params]. *)
Definition add_static_query (endpoint : option APIEndpoint.t)
    (params : gmap string PyVal) (item : string * PyVal) : gmap string PyVal :=
  if Str.has_char "{" (py_str (snd item)) then params
  else match endpoint with
       | Some ep =>
           if existsb (is_param (fst item) QUERY) (APIEndpoint.parameters ep)
           then <[fst item := snd item]> params
           else params
       | None => <[fst item := snd item]> params
       end.

Definition _build_query_params (endpoint : option APIEndpoint.t) (api_mapping : APIMapping.t)
    (entity_map : gmap string PyVal) : Res (gmap string PyVal) :=
  params <-
    match endpoint with
    | Some ep =>
        res_fold (fun params mapping =>
                    add_mapped (bool_decide (ParameterMapping.api_parameter mapping ∈ names_at QUERY ep))
                               entity_map params mapping)
                 (APIMapping.parameter_mappings api_mapping) (Ok ∅)
    | None => Ok ∅
    end ;;
  Ok (fold_left (add_static_query endpoint) (APIMapping.static_params api_mapping) params).

(** The authentication part of [_build_headers]. *)
Definition auth_headers (self : t) (headers : gmap string string) : gmap string string :=
  let cfg := auth_config self in
  if bool_decide (cfg = ∅) then headers
  else
    let auth_type := default EmptyString (cfg !! "type") in
    if String.eqb auth_type "bearer" then
      <["Authorization" := "Bearer " +:+ default EmptyString (cfg !! "token")]> headers
    else if String.eqb auth_type "api_key" then
      if String.eqb (default "header" (cfg !! "key_location")) "header"
      then <[default "X-API-Key" (cfg !! "key_name") := default EmptyString (cfg !! "key_value")]> headers
      else headers
    else if String.eqb auth_type "basic" then
      <["Authorization" :=
          "Basic " +:+ b64encode (default EmptyString (cfg !! "username") +:+ ":"
                                   +:+ default EmptyString (cfg !! "password"))]> headers
    else headers.

Definition add_header (ep : APIEndpoint.t) (entity_map : gmap string PyVal)
    (headers : gmap string string) (mapping : ParameterMapping.t) : gmap string string :=
  if bool_decide (ParameterMapping.api_parameter mapping ∈ names_at HEADER ep) then
    match entity_map !! ParameterMapping.entity_name mapping with
    | Some VNone | None => headers
    | Some value => <[ParameterMapping.api_parameter mapping := py_str value]> headers
    end
  else headers.

Definition _build_headers (self : t) (endpoint : option APIEndpoint.t)
    (api_mapping : APIMapping.t) (entity_map : gmap string PyVal) : gmap string string :=
  let headers :=
    auth_headers self
      (<["Accept" := "application/json"]> (<["Content-Type" := "application/json"]> ∅)) in
  match endpoint with
  | Some ep => fold_left (add_header ep entity_map) (APIMapping.parameter_mappings api_mapping) headers
  | None => headers
  end.

Definition add_static_body (properties : PyVal)
    (body : gmap string PyVal) (item : string * PyVal) : Res (gmap string PyVal) :=
  present <- py_in (fst item) properties ;;
  Ok (if present : bool then <[fst item := snd item]> body else body).

Definition _build_body (endpoint : option APIEndpoint.t) (api_mapping : APIMapping.t)
    (entity_map : gmap string PyVal) : Res (option (gmap string PyVal)) :=
  match APIMapping.method api_mapping with
  | GET | DELETE => Ok None
  | _ =>
      match endpoint with
      | None => Ok None
      | Some ep =>
          match APIEndpoint.request_body ep with
          | None => Ok None
          | Some request_body =>
              if bool_decide (request_body = ∅) then Ok None
              else
                let content := dict_get request_body "content" (VDict ∅) in
                json_content <- py_get content "application/json" (VDict ∅) ;;
                schema <- py_get json_content "schema" (VDict ∅) ;;
                properties <- py_get schema "properties" (VDict ∅) ;;
                body <- res_fold (fun body mapping =>
                                    present <- py_in (ParameterMapping.api_parameter mapping) properties ;;
                                    add_mapped present entity_map body mapping)
                                 (APIMapping.parameter_mappings api_mapping) (Ok ∅) ;;
                body <- res_fold (add_static_body properties)
                                 (APIMapping.static_params api_mapping) (Ok body) ;;
                Ok (if bool_decide (body = ∅) then None else Some body)
          end
      end
  end.

(** The body of the [try] in [_execute_api_call], from the answer of
    [client.request] on. *)
Definition read_response (o : HttpOutcome) : Res PyVal :=
  match o with
  | Responded response =>
      if (400 <=? Response.status_code response)%Z then
        raise APIExecutionError
              ("API returned error " +:+ pretty (Response.status_code response)
                 +:+ ": " +:+ Response.text response)
      else if Str.contains "application/json" (Response.content_type response)
           then Response.json_body response
           else Ok (VDict {["raw_response" := VStr (Response.text response)]})
  | Failed e => Raise e
  end.

(** Its two [except] clauses. *)
Definition read_outcome (self : t) (o : HttpOutcome) : Res PyVal :=
  match read_response o with
  | Ok data => Ok data
  | Raise e =>
      if bool_decide (exc_class e = TimeoutException) then
        raise APIExecutionError ("Request timeout after " +:+ py_str (VFloat (timeout self)) +:+ "s")
      else if bool_decide (exc_class e = RequestError) then
        raise APIExecutionError ("Request failed: " +:+ exc_str e)
      else Raise e
  end.

#[local] Open Scope m_scope.

Definition _execute_api_call (self : t) (api_mapping : APIMapping.t)
    (entity_map : gmap string PyVal) : M PyVal :=
  let endpoint :=
    _find_endpoint self (APIMapping.endpoint_path api_mapping) (APIMapping.method api_mapping) in
  url <~ lift (_build_url self (APIMapping.endpoint_path api_mapping) api_mapping entity_map) ;;
  query_params <~ lift (_build_query_params endpoint api_mapping entity_map) ;;
  let headers := _build_headers self endpoint api_mapping entity_map in
  body <~ lift (_build_body endpoint api_mapping entity_map) ;;
  let req :=
    Request.mk (method_value (APIMapping.method api_mapping)) url
               (if bool_decide (query_params = ∅) then None else Some query_params)
               headers body in
  _ <~ emit (EvHttp req) ;;
  fun st =>
    let (o, w) := http_request req (world st) in
    (read_outcome self o, mkSt w (trace st)).

(** The label [f"{api_mapping.method.value} {api_mapping.endpoint_path}"]. *)
Definition endpoint_label (api_mapping : APIMapping.t) : string :=
  method_value (APIMapping.method api_mapping) +:+ " " +:+ APIMapping.endpoint_path api_mapping.

Definition result_dict (label : string) (success : bool) (data error : PyVal) : gmap string PyVal :=
  <["error" := error]> (<["data" := data]> (<["success" := VBool success]>
    (<["endpoint" := VStr label]> ∅))).

(** The three branches of the [try] in [execute_scenario]. *)
Definition record_result (api_mapping : APIMapping.t) (outcome : Res PyVal) : gmap string PyVal :=
  match outcome with
  | Ok result => result_dict (endpoint_label api_mapping) true result VNone
  | Raise e =>
      if bool_decide (exc_class e = APIExecutionError)
      then result_dict (endpoint_label api_mapping) false VNone (VStr (exc_str e))
      else result_dict (endpoint_label api_mapping) false VNone
                       (VStr ("Unexpected error: " +:+ exc_str e))
  end.

(** [{e.name: e.value for e in extracted_entities}] *)
Definition build_entity_map (extracted_entities : list ExtractedEntity.t) : gmap string PyVal :=
  fold_left (fun m e => <[ExtractedEntity.name e := ExtractedEntity.value e]> m)
            extracted_entities ∅.

(** The loop of [execute_scenario]; [call] is the [_execute_api_call] of
    the executor at hand, which a subclass may override. *)
Fixpoint execute_mappings (call : APIMapping.t -> gmap string PyVal -> M PyVal)
    (mappings : list APIMapping.t) (entity_map : gmap string PyVal) (st : St)
    : list (gmap string PyVal) * St :=
  match mappings with
  | [] => ([], st)
  | api_mapping :: rest =>
      let (outcome, st1) := call api_mapping entity_map st in
      let (results, st2) := execute_mappings call rest entity_map st1 in
      (record_result api_mapping outcome :: results, st2)
  end.

Definition execute_scenario (call : APIMapping.t -> gmap string PyVal -> M PyVal)
    (scenario : Scenario.t) (extracted_entities : list ExtractedEntity.t)
    : M (list (gmap string PyVal)) :=
  fun st =>
    let entity_map := build_entity_map extracted_entities in
    let (results, st') := execute_mappings call (Scenario.api_mappings scenario) entity_map st in
    (Ok results, st').

End Executor.
End APIExecutor.

(** ** services/template_renderer.py *)

Module TemplateRenderer.
Section Renderer.
Context `{R : Runtime}.

#[local] Open Scope m_scope.

(** The text [render] returns when there is no error template. *)
Definition fault_text (o : JinjaOutcome) : string :=
  match o with
  | Rendered text => text
  | SyntaxFault message => "Template error: " +:+ message
  | UndefinedFault message => "Missing data: " +:+ message
  | OtherFault message => "Render error: " +:+ message
  end.

(** The value bound to [error] when there is one. *)
Definition fault_report (o : JinjaOutcome) : string :=
  match o with
  | Rendered text => text
  | SyntaxFault message => "Template syntax error: " +:+ message
  | UndefinedFault message => "Missing data: " +:+ message
  | OtherFault message => message
  end.

(** [render(template, data)] with no error template: a fault becomes
    the text returned. *)
Definition render_plain (template : string) (data : gmap string PyVal) : M string :=
  _ <~ emit (EvJinja template data) ;;
  ret (fault_text (jinja_render template data)).

(** [render(template, data, error_template)].  On a fault it calls
    itself on the error template, passing no error template, so that
    inner call is [render_plain]. *)
Definition render (template : string) (data : gmap string PyVal)
    (error_template : option string) : M string :=
  _ <~ emit (EvJinja template data) ;;
  match jinja_render template data with
  | Rendered text => ret text
  | fault =>
      if truthy_opt error_template
      then render_plain (default EmptyString error_template) {["error" := VStr (fault_report fault)]}
      else ret (fault_text fault)
  end.

(** [r.get("success")] as a condition *)
Definition succeeded (r : gmap string PyVal) : bool := truthy (dict_get r "success" VNone).

(** [result.get("success") and result.get("data")] as a condition *)
Definition has_data (r : gmap string PyVal) : bool :=
  succeeded r && truthy (dict_get r "data" VNone).

(** The items of ["; ".join(items)], each of which has to be a text;
    [i] is the position of the first one. *)
Fixpoint join_items (i : nat) (items : list PyVal) : Res (list string) :=
  match items with
  | [] => Ok []
  | VStr s :: rest => res_bind (join_items (S i) rest) (fun ss => Ok (s :: ss))
  | v :: _ =>
      raise TypeError ("sequence item " +:+ pretty i +:+ ": expected str instance, "
                         +:+ type_name v +:+ " found")
  end.

Definition result_key (i : nat) : string := "result_" +:+ pretty i.

(** One round of the loop that collects the successful data. *)
Definition collect_one (i : nat) (result : gmap string PyVal)
    (data : gmap string PyVal) : gmap string PyVal :=
  if has_data result then
    let body := dict_get result "data" VNone in
    let data1 :=
      match i with
      | O => <["data" := body]> (match body with VDict d => d ∪ data | _ => data end)
      | S _ => data
      end in
    <[result_key i := body]> data1
  else data.

Fixpoint collect (i : nat) (api_results : list (gmap string PyVal))
    (data : gmap string PyVal) : gmap string PyVal :=
  match api_results with
  | [] => data
  | result :: rest => collect (S i) rest (collect_one i result data)
  end.

(** The three helper entries. *)
Definition add_helpers (api_results : list (gmap string PyVal))
    (data : gmap string PyVal) : gmap string PyVal :=
  let errors := List.filter (fun r => negb (succeeded r)) api_results in
  <["_error_count" := VInt (Z.of_nat (length errors))]>
    (<["_success_count" := VInt (Z.of_nat (length (List.filter succeeded api_results)))]>
       (<["_results" := VList (VDict <$> api_results)]> data)).

Definition render_api_response (template : string) (api_results : list (gmap string PyVal))
    (error_template no_data_template : string) : M string :=
  let errors := List.filter (fun r => negb (succeeded r)) api_results in
  if match errors with [] => false | _ => true end && negb (existsb succeeded api_results) then
    error_messages <~
      lift (join_items 0 ((fun r => dict_get r "error" (VStr "Unknown error")) <$> errors)) ;;
    render error_template {["error" := VStr (Str.join "; " error_messages)]} None
  else
    let data := collect 0 api_results ∅ in
    if bool_decide (data = ∅) then ret no_data_template
    else render template (add_helpers api_results data) (Some error_template).

(** The context the main template is rendered against: the local [data]
    at the last line of [render_api_response]. *)
Definition context_of (api_results : list (gmap string PyVal)) : gmap string PyVal :=
  add_helpers api_results (collect 0 api_results ∅).

End Renderer.
End TemplateRenderer.

(** ** services/openapi_parser.py *)

Module OpenAPIParser.
Section Parser.
Context `{R : Runtime}.

(** The parser's state is [self.warnings]. *)
Abbreviation P := (SM (list string)).

Definition warn (message : string) : P unit := fun warnings => (Ok tt, (warnings ++ [message])%list).

(** [for x in v] *)
Definition py_iter (v : PyVal) : Res (list PyVal) :=
  match v with
  | VList l => Ok l
  | VDict d => Ok ((fun kv => VStr (fst kv)) <$> dict_items d)
  | VStr s => Ok ((fun c => VStr (String c EmptyString)) <$> list_ascii_of_string s)
  | _ => raise TypeError ("'" +:+ type_name v +:+ "' object is not iterable")
  end.

(** [v[key]] for a text [key] *)
Definition py_getitem (v : PyVal) (key : string) : Res PyVal :=
  match v with
  | VDict d =>
      match d !! key with
      | Some x => Ok x
      | None => raise KeyError ("'" +:+ key +:+ "'")
      end
  | VList _ => raise TypeError "list indices must be integers or slices, not str"
  | VStr _ => raise TypeError "string indices must be integers, not 'str'"
  | _ => raise TypeError ("'" +:+ type_name v +:+ "' object is not subscriptable")
  end.

(** A value used as a key of a literal table has to be hashable. *)
Definition check_hashable (v : PyVal) : Res unit :=
  match v with
  | VList _ | VDict _ => raise TypeError ("unhashable type: '" +:+ type_name v +:+ "'")
  | _ => Ok tt
  end.

Definition SUPPORTED_VERSIONS : list string := ["3.0"; "3.1"].

(** [".".join(openapi_version.split(".")[:2])] *)
Definition major_minor (openapi_version : string) : string :=
  Str.join "." (take 2 (Str.split "." openapi_version)).

Definition _validate_version (spec : gmap string PyVal) : Res unit :=
  let openapi_version := dict_get spec "openapi" (VStr EmptyString) in
  if negb (truthy openapi_version) then
    raise OpenAPIParserError "Missing 'openapi' version field"
  else
    match openapi_version with
    | VStr text =>
        if bool_decide (major_minor text ∈ SUPPORTED_VERSIONS) then Ok tt
        else raise OpenAPIParserError
                   ("Unsupported OpenAPI version: " +:+ text +:+ ". Supported versions: "
                      +:+ Str.join ", " SUPPORTED_VERSIONS)
    | other => no_attribute other "split"
    end.


(** The walk of [_resolve_ref] along the parts of a pointer. *)
Fixpoint walk_ref (parts : list string) (current : PyVal) : option PyVal :=
  match parts with
  | [] => Some current
  | part :: rest =>
      match current with
      | VDict d =>
          match d !! part with
          | Some next => walk_ref rest next
          | None => None
          end
      | _ => None
      end
  end.

#[local] Open Scope m_scope.

(** [_resolve_ref]: [None] and a non-dictionary both come back as
    [None]. *)
Definition _resolve_ref (ref : PyVal) (components : PyVal) : P (option (gmap string PyVal)) :=
  match ref with
  | VStr text =>
      if negb (Str.startswith "#/" text) then
        _ <~ warn ("External reference not supported: " +:+ text) ;;
        ret None
      else
        match walk_ref (tail (Str.split "/" text)) (VDict {["components" := components]}) with
        | Some (VDict d) => ret (Some d)
        | Some _ => ret None
        | None =>
            _ <~ warn ("Could not resolve reference: " +:+ text) ;;
            ret None
        end
  | other => lift (no_attribute other "startswith")
  end.

(** The opening of the three loops and of [_parse_request_body]:
    [if "$ref" in v: v = self._resolve_ref(v["$ref"], components)]
    followed by the test [if not v].  [None] says that the test fired. *)
Definition deref (v : PyVal) (components : PyVal) : P (option PyVal) :=
  has_ref <~ lift (py_in "$ref" v) ;;
  if has_ref : bool then
    ref <~ lift (py_getitem v "$ref") ;;
    target <~ _resolve_ref ref components ;;
    ret (match target with
         | Some d => if bool_decide (d = ∅) then None else Some (VDict d)
         | None => None
         end)
  else ret (Some v).

Definition _map_type (type_str : PyVal) : Res ParameterType :=
  res_bind (check_hashable type_str) (fun _ =>
    Ok (if is_str "string" type_str then STRING
        else if is_str "integer" type_str then INTEGER
        else if is_str "number" type_str then NUMBER
        else if is_str "boolean" type_str then BOOLEAN
        else if is_str "array" type_str then ARRAY
        else if is_str "object" type_str then OBJECT
        else STRING)).

(** [location_map.get(where, ParameterLocation.QUERY)] *)
Definition map_location (where_ : PyVal) : Res ParameterLocation :=
  res_bind (check_hashable where_) (fun _ =>
    Ok (if is_str "path" where_ then PATH
        else if is_str "query" where_ then QUERY
        else if is_str "header" where_ then HEADER
        else QUERY)).

(** One round of the loop of [_parse_parameters]. *)
Definition parse_parameter (components : PyVal) (result : list APIParameter.t) (param : PyVal)
    : P (list APIParameter.t) :=
  target <~ deref param components ;;
  match target with
  | None => ret result
  | Some param =>
    lift (where_ <- py_get param "in" (VStr "query") ;;
          location <- map_location where_ ;;
          schema <- py_get param "schema" (VDict ∅) ;;
          type_str <- py_get schema "type" (VStr "string") ;;
          param_type <- _map_type type_str ;;
          raw_name <- py_get param "name" (VStr EmptyString) ;;
          raw_description <- py_get param "description" (VStr EmptyString) ;;
          raw_required <- py_get param "required" (VBool false) ;;
          default_ <- py_get schema "default" VNone ;;
          example1 <- py_get param "example" VNone ;;
          example2 <- py_get schema "example" VNone ;;
          raw_enum <- py_get schema "enum" VNone ;;
          name <- validate_str raw_name ;;
          description <- validate_str raw_description ;;
          required <- validate_bool raw_required ;;
          enum <- validate_opt_str_list raw_enum ;;
          Ok (result ++ [APIParameter.mk name location param_type description required default_
                                         (if truthy example1 then example1 else example2) enum])%list)%res
  end.

Definition _parse_parameters (parameters : PyVal) (components : PyVal) : P (list APIParameter.t) :=
  items <~ lift (py_iter parameters) ;;
  sm_fold (parse_parameter components) items [].

(** One round of the loop over the media types of a request body. *)
Definition parse_media (components : PyVal) (content : gmap string PyVal)
    (item : string * PyVal) : P (gmap string PyVal) :=
  let (media_type, media_content) := item in
  schema <~ lift (py_get media_content "schema" (VDict ∅)) ;;
  has_ref <~ lift (py_in "$ref" schema) ;;
  schema <~ (if has_ref : bool then
               ref <~ lift (py_getitem schema "$ref") ;;
               target <~ _resolve_ref ref components ;;
               ret (from_option VDict VNone target)
             else ret schema) ;;
  example <~ lift (py_get media_content "example" VNone) ;;
  ret (<[media_type := VDict (<["example" := example]> {["schema" := schema]})]> content).

Definition _parse_request_body (request_body : PyVal) (components : PyVal)
    : P (gmap string PyVal) :=
  target <~ deref request_body components ;;
  match target with
  | None => ret ∅
  | Some request_body =>
      content <~ lift (py_get request_body "content" (VDict ∅)) ;;
      required <~ lift (py_get request_body "required" (VBool false)) ;;
      description <~ lift (py_get request_body "description" (VStr EmptyString)) ;;
      items <~ lift (py_items content) ;;
      parsed <~ sm_fold (parse_media components) items ∅ ;;
      ret (<["content" := VDict parsed]>
             (<["description" := description]> {["required" := required]}))
  end.

(** [int(status_code)], with 200 for a [ValueError]. *)
Definition parse_status (status_code : string) : Res Z :=
  match py_int (VStr status_code) with
  | Ok code => Ok code
  | Raise e => if bool_decide (exc_class e = ValueError) then Ok 200%Z else Raise e
  end.

(** One round of the loop of [_parse_responses]. *)
Definition parse_response (components : PyVal) (result : list APIResponse.t)
    (item : string * PyVal) : P (list APIResponse.t) :=
  let (status_code, response) := item in
  target <~ deref response components ;;
  match target with
  | None => ret result
  | Some response =>
      code <~ lift (parse_status status_code) ;;
      content <~ lift (py_get response "content" (VDict ∅)) ;;
      has_json <~ lift (py_in "application/json" content) ;;
      found <~ (if has_json : bool then
                  json_content <~ lift (py_getitem content "application/json") ;;
                  schema <~ lift (py_get json_content "schema" (VDict ∅)) ;;
                  has_ref <~ lift (py_in "$ref" schema) ;;
                  schema <~ (if has_ref : bool then
                               ref <~ lift (py_getitem schema "$ref") ;;
                               resolved <~ _resolve_ref ref components ;;
                               ret (match resolved with
                                    | Some d => VDict d
                                    | None => VDict ∅
                                    end)
                             else ret schema) ;;
                  example <~ lift (py_get json_content "example" VNone) ;;
                  ret (schema, example)
                else ret (VDict ∅, VNone)) ;;
      raw_description <~ lift (py_get response "description" (VStr EmptyString)) ;;
      description <~ lift (validate_str raw_description) ;;
      schema <~ lift (validate_dict (fst found)) ;;
      example <~ lift (validate_opt_dict (snd found)) ;;
      ret (result ++ [APIResponse.mk code description schema example])%list
  end.

Definition _parse_responses (responses : PyVal) (components : PyVal) : P (list APIResponse.t) :=
  items <~ lift (py_items responses) ;;
  sm_fold (parse_response components) items [].

(** The position of the first [c] in [s]. *)
Fixpoint index_of (c : ascii) (s : string) : option nat :=
  match s with
  | EmptyString => None
  | String a s' => if Ascii.eqb a c then Some O else S <$> index_of c s'
  end.

(** [re.sub(r'\{[^}]+\}', '', s)]: a brace, one or more characters other
    than a closing brace, and the closing brace are dropped; [skip]
    counts what is left to drop of a match. *)
Fixpoint remove_placeholders (skip : nat) (s : string) : string :=
  match s with
  | EmptyString => EmptyString
  | String a s' =>
      match skip with
      | S k => remove_placeholders k s'
      | O =>
          if Ascii.eqb a "{" then
            match index_of "}" s' with
            | Some (S n) => remove_placeholders (S (S n)) s'
            | _ => String a (remove_placeholders 0 s')
            end
          else String a (remove_placeholders 0 s')
      end
  end.

(** [s.replace('/', '_')] *)
Fixpoint slashes_to_underscores (s : string) : string :=
  match s with
  | EmptyString => EmptyString
  | String a s' => String (if Ascii.eqb a "/" then "_"%char else a) (slashes_to_underscores s')
  end.

(** [re.sub(r'_+', '_', s)] *)
Fixpoint collapse_underscores (s : string) : string :=
  match s with
  | EmptyString => EmptyString
  | String a s' =>
      if Ascii.eqb a "_" && Str.startswith "_" s' then collapse_underscores s'
      else String a (collapse_underscores s')
  end.

(** [method.lower()] of the upper-case name of a method *)
Definition method_lower (m : HTTPMethod) : string :=
  match m with
  | GET => "get" | POST => "post" | PUT => "put" | PATCH => "patch" | DELETE => "delete"
  end.

Definition _generate_operation_id (path : string) (method : HTTPMethod) : string :=
  let clean_path := remove_placeholders 0 path in
  let clean_path := Str.strip "_" (slashes_to_underscores clean_path) in
  let clean_path := collapse_underscores clean_path in
  if String.eqb clean_path EmptyString then method_lower method
  else method_lower method +:+ "_" +:+ clean_path.

(** [all_params[p.name] = p] on a dictionary kept in insertion order: an
    entry with that name is overwritten where it stands, a new name goes
    to the end. *)
Fixpoint put_param (p : APIParameter.t) (all_params : list APIParameter.t) : list APIParameter.t :=
  match all_params with
  | [] => [p]
  | q :: rest =>
      if String.eqb (APIParameter.name q) (APIParameter.name p) then p :: rest
      else q :: put_param p rest
  end.

(** [list(all_params.values())] after the comprehension over
    [path_params] and the loop over [op_params]. *)
Definition merge_parameters (path_params op_params : list APIParameter.t) : list APIParameter.t :=
  fold_left (fun all_params p => put_param p all_params) op_params
            (fold_left (fun all_params p => put_param p all_params) path_params []).

Definition _parse_operation (path : string) (method : HTTPMethod) (operation : PyVal)
    (path_params : list APIParameter.t) (components : PyVal) : P APIEndpoint.t :=
  raw_parameters <~ lift (py_get operation "parameters" (VList [])) ;;
  op_params <~ _parse_parameters raw_parameters components ;;
  let all_params := merge_parameters path_params op_params in
  has_body <~ lift (py_in "requestBody" operation) ;;
  request_body <~ (if has_body : bool then
                     raw_body <~ lift (py_getitem operation "requestBody") ;;
                     body <~ _parse_request_body raw_body components ;;
                     ret (Some body)
                   else ret None) ;;
  raw_responses <~ lift (py_get operation "responses" (VDict ∅)) ;;
  responses <~ _parse_responses raw_responses components ;;
  operation_id <~ lift (py_get operation "operationId" (VStr EmptyString)) ;;
  operation_id <~ (if negb (truthy operation_id) then
                     let generated := _generate_operation_id path method in
                     _ <~ warn ("Missing operationId for " +:+ method_value method +:+ " " +:+ path
                                  +:+ ", generated: " +:+ generated) ;;
                     ret (VStr generated)
                   else ret operation_id) ;;
  raw_summary <~ lift (py_get operation "summary" (VStr EmptyString)) ;;
  raw_description <~ lift (py_get operation "description" (VStr EmptyString)) ;;
  raw_tags <~ lift (py_get operation "tags" (VList [])) ;;
  operation_id <~ lift (validate_str operation_id) ;;
  summary <~ lift (validate_str raw_summary) ;;
  description <~ lift (validate_str raw_description) ;;
  tags <~ lift (validate_str_list raw_tags) ;;
  ret (APIEndpoint.mk path method operation_id summary description tags all_params
                      request_body responses None None).

(** The methods [_parse_paths] looks for, in its order. *)
Definition METHODS : list HTTPMethod := [GET; POST; PUT; PATCH; DELETE].

(** One round of its inner loop. *)
Definition parse_method (path : string) (path_item : gmap string PyVal)
    (path_params : list APIParameter.t) (components : PyVal)
    (endpoints : list APIEndpoint.t) (method : HTTPMethod) : P (list APIEndpoint.t) :=
  match path_item !! method_lower method with
  | Some operation =>
      endpoint <~ _parse_operation path method operation path_params components ;;
      ret (endpoints ++ [endpoint])%list
  | None => ret endpoints
  end.

(** One round of its outer loop. *)
Definition parse_path (components : PyVal) (endpoints : list APIEndpoint.t)
    (item : string * PyVal) : P (list APIEndpoint.t) :=
  match item with
  | (path, VDict path_item) =>
      path_params <~ _parse_parameters (dict_get path_item "parameters" (VList [])) components ;;
      sm_fold (parse_method path path_item path_params components) METHODS endpoints
  | _ => ret endpoints
  end.

Definition _parse_paths (paths : PyVal) (components : PyVal) : P (list APIEndpoint.t) :=
  items <~ lift (py_items paths) ;;
  sm_fold (parse_path components) items [].

(** One round of the loop over the servers. *)
Definition parse_server (servers : list (gmap string PyVal)) (server : PyVal)
    : Res (list (gmap string PyVal)) :=
  (url <- py_get server "url" (VStr EmptyString) ;;
   description <- py_get server "description" (VStr EmptyString) ;;
   Ok (servers ++ [<["description" := description]> {["url" := url]}])%list)%res.

(** The validation of [servers: list[dict[str, str]]] *)
Fixpoint validate_servers (servers : list (gmap string PyVal)) : Res (list (gmap string string)) :=
  match servers with
  | [] => Ok []
  | server :: rest =>
      (checked <- validate_str_dict server ;;
       others <- validate_servers rest ;;
       Ok (checked :: others))%res
  end.

Definition _parse_spec (spec : gmap string PyVal) : P APISpec.t :=
  let info := dict_get spec "info" (VDict ∅) in
  raw_servers <~ lift (py_iter (dict_get spec "servers" (VList []))) ;;
  servers <~ lift (res_fold parse_server raw_servers (Ok [])) ;;
  let base_url :=
    match servers with
    | server :: _ => dict_get server "url" VNone
    | [] => VStr EmptyString
    end in
  let components := dict_get spec "components" (VDict ∅) in
  has_schemes <~ lift (py_in "securitySchemes" components) ;;
  security_schemes <~ (if has_schemes : bool then lift (py_getitem components "securitySchemes")
                       else ret (VDict ∅)) ;;
  endpoints <~ _parse_paths (dict_get spec "paths" (VDict ∅)) components ;;
  raw_title <~ lift (py_get info "title" (VStr "Untitled API")) ;;
  raw_version <~ lift (py_get info "version" (VStr "1.0.0")) ;;
  raw_description <~ lift (py_get info "description" (VStr EmptyString)) ;;
  title <~ lift (validate_str raw_title) ;;
  version <~ lift (validate_str raw_version) ;;
  description <~ lift (validate_str raw_description) ;;
  base_url <~ lift (validate_str base_url) ;;
  servers <~ lift (validate_servers servers) ;;
  security_schemes <~ lift (validate_dict security_schemes) ;;
  ret (APISpec.mk title version description base_url endpoints servers security_schemes
                  (Some spec)).




Definition get_warnings : P (list string) := fun warnings => (Ok warnings, warnings).

End Parser.
End OpenAPIParser.

(** [MockAPIExecutor]: the same [execute_scenario], another
    [_execute_api_call]. *)
Module MockAPIExecutor.
Section Mock.
Context `{R : Runtime}.

#[local] Open Scope res_scope.

Record t : Type := mk {
  base : APIExecutor.t;
  mock_responses : gmap string PyVal
}.

Definition init (spec : APISpec.t) (mock : option (gmap string PyVal))
    (auth : option (gmap string string)) (timeout : spec_float) : t :=
  mk (APIExecutor.init spec auth timeout) (default ∅ mock).

(** 123.45 as a binary64 number *)
Definition mock_number : spec_float := S754_finite false 8687021468732621 (-46).

(** One round of the loop of [_generate_mock_from_schema]. *)
Definition mock_property (result : gmap string PyVal) (item : string * PyVal)
    : Res (gmap string PyVal) :=
  let (prop_name, prop_schema) := item in
  prop_type <- py_get prop_schema "type" (VStr "string") ;;
  let example dflt := dict_get (match prop_schema with VDict d => d | _ => ∅ end) "example" dflt in
  Ok (if is_str "string" prop_type then <[prop_name := example (VStr ("mock_" +:+ prop_name))]> result
      else if is_str "integer" prop_type then <[prop_name := example (VInt 123)]> result
      else if is_str "number" prop_type then <[prop_name := example (VFloat mock_number)]> result
      else if is_str "boolean" prop_type then <[prop_name := example (VBool true)]> result
      else if is_str "array" prop_type then <[prop_name := example (VList [])]> result
      else if is_str "object" prop_type then <[prop_name := example (VDict ∅)]> result
      else result).

Definition _generate_mock_from_schema (schema : gmap string PyVal) : Res (gmap string PyVal) :=
  items <- py_items (dict_get schema "properties" (VDict ∅)) ;;
  res_fold mock_property items (Ok ∅).

(** The loop over the declared responses: the first one with a 2xx
    status and an example or a schema decides. *)
Fixpoint first_mock (responses : list APIResponse.t) : option (Res PyVal) :=
  match responses with
  | [] => None
  | response :: rest =>
      if (200 <=? APIResponse.status_code response)%Z
         && (APIResponse.status_code response <? 300)%Z then
        match APIResponse.example response with
        | Some example =>
            if bool_decide (example = ∅) then
              if bool_decide (APIResponse.schema response = ∅) then first_mock rest
              else Some (mock <- _generate_mock_from_schema (APIResponse.schema response) ;; Ok (VDict mock))
            else Some (Ok (VDict example))
        | None =>
            if bool_decide (APIResponse.schema response = ∅) then first_mock rest
            else Some (mock <- _generate_mock_from_schema (APIResponse.schema response) ;; Ok (VDict mock))
        end
      else first_mock rest
  end.

Definition default_mock : PyVal :=
  VDict (<["success" := VBool true]> {["message" := VStr "Mock response"]}).

Definition _execute_api_call (self : t) (api_mapping : APIMapping.t)
    (entity_map : gmap string PyVal) : M PyVal :=
  let key := method_value (APIMapping.method api_mapping) +:+ ":"
               +:+ APIMapping.endpoint_path api_mapping in
  match mock_responses self !! key with
  | Some canned => ret canned
  | None =>
      match APIExecutor._find_endpoint (base self) (APIMapping.endpoint_path api_mapping)
                                       (APIMapping.method api_mapping) with
      | Some endpoint => lift (default (Ok default_mock) (first_mock (APIEndpoint.responses endpoint)))
      | None => ret default_mock
      end
  end.

End Mock.
End MockAPIExecutor.

(** ** agents/qa_agent.py *)

Module QAAgent.
Section Agent.
Context `{R : Runtime}.

#[local] Open Scope m_scope.

(** The agent: its configuration and its executor, of which
    [execute_scenario] needs the [_execute_api_call]. *)
Record t : Type := mk {
  config : AgentConfig.t;
  use_mock_api : bool;
  api_call : APIMapping.t -> gmap string PyVal -> M PyVal
}.

(** 30.0, the default [timeout] of an executor *)
Definition default_timeout : spec_float := S754_finite false 8444249301319680 (-48).

(** [__init__] *)
Definition init (config : AgentConfig.t) (use_mock_api : bool) : t :=
  mk config use_mock_api
     (if use_mock_api then
        MockAPIExecutor._execute_api_call
          (MockAPIExecutor.init (AgentConfig.api_spec config) None
                                (Some (AgentConfig.auth_config config)) default_timeout)
      else
        APIExecutor._execute_api_call
          (APIExecutor.init (AgentConfig.api_spec config)
                            (Some (AgentConfig.auth_config config)) default_timeout)).

(** 0.3 as a binary64 number *)
Definition CONFIDENCE_THRESHOLD : spec_float := S754_finite false 5404319552844595 (-54).

Definition NOT_UNDERSTOOD : string :=
  "Xin lỗi, tôi không hiểu câu hỏi của bạn. Vui lòng thử diễn đạt theo cách khác.".

Definition _check_missing_entities (scenario : Scenario.t) (entities : list ExtractedEntity.t)
    : list string :=
  let extracted_names := ExtractedEntity.name <$> entities in
  List.filter (fun required => negb (bool_decide (required ∈ extracted_names)))
              (Scenario.required_entities scenario).

(** [r[key]] on a result *)
Definition item (r : gmap string PyVal) (key : string) : Res PyVal :=
  match r !! key with
  | Some v => Ok v
  | None => raise KeyError ("'" +:+ key +:+ "'")
  end.

(** [{"endpoint": r["endpoint"], "success": r["success"]}] for every
    result *)
Fixpoint calls_made (api_results : list (gmap string PyVal)) : Res (list (gmap string PyVal)) :=
  match api_results with
  | [] => Ok []
  | r :: rest =>
      (endpoint <- item r "endpoint" ;;
       success <- item r "success" ;;
       others <- calls_made rest ;;
       Ok (<["success" := success]> {["endpoint" := endpoint]} :: others))%res
  end.

(** The answer when the scenario has no template. *)
Definition answer_without_template (question : string) (scenario : Scenario.t)
    (api_results : list (gmap string PyVal)) : M string :=
  let successful_data :=
    (fun r => dict_get r "data" VNone) <$> List.filter TemplateRenderer.has_data api_results in
  match successful_data with
  | [] =>
      let errors :=
        (fun r => dict_get r "error" (VStr "Unknown error"))
          <$> List.filter (fun r => negb (TemplateRenderer.succeeded r)) api_results in
      messages <~ lift (TemplateRenderer.join_items 0 errors) ;;
      ret ("Xin lỗi, không thể lấy thông tin. Lỗi: " +:+ Str.join "; " messages)
  | first :: others =>
      let data := match others with [] => first | _ => VList successful_data end in
      _ <~ emit (EvGenerate question data) ;;
      fun st =>
        let (r, w) := ai_generate_response question scenario data (world st) in
        (r, mkSt w (trace st))
  end.

(** Steps 3 and 4 of [answer]: the call of the engine, the rendering
    and the response. *)
Definition invoke_and_answer (self : t) (question : string) (scenario : Scenario.t)
    (entities : list ExtractedEntity.t) : M AgentResponse.t :=
  _ <~ emit (EvEngine scenario entities) ;;
  api_results <~ APIExecutor.execute_scenario (api_call self) scenario entities ;;
  text <~ match Scenario.response_template scenario with
          | Some tpl =>
              TemplateRenderer.render_api_response
                (ResponseTemplate.template tpl) api_results
                (ResponseTemplate.error_template tpl)
                (ResponseTemplate.no_data_template tpl)
          | None => answer_without_template question scenario api_results
          end ;;
  calls <~ lift (calls_made api_results) ;;
  ret (AgentResponse.mk text (Some (Scenario.name scenario)) calls api_results).

(** The call of the AI collaborator that opens [answer]. *)
Definition match_scenario (self : t) (question : string) : M (option ScenarioMatch.t) :=
  _ <~ emit (EvMatch question) ;;
  fun st =>
    let (r, w) := ai_match_scenario question (AgentConfig.scenarios (config self)) (world st) in
    (r, mkSt w (trace st)).

Definition answer (self : t) (question : string) : M AgentResponse.t :=
  match_result <~ match_scenario self question ;;
  match match_result with
  | None => ret (AgentResponse.mk NOT_UNDERSTOOD None [] [])
  | Some found =>
      if SFltb (ScenarioMatch.confidence found) CONFIDENCE_THRESHOLD then
        ret (AgentResponse.mk NOT_UNDERSTOOD None [] [])
      else
        let scenario := ScenarioMatch.scenario found in
        let entities := ScenarioMatch.extracted_entities found in
        match _check_missing_entities scenario entities with
        | missing :: more =>
            ret (AgentResponse.mk
                   ("Vui lòng cung cấp thêm thông tin: " +:+ Str.join ", " (missing :: more))
                   (Some (Scenario.name scenario)) [] [])
        | [] => invoke_and_answer self question scenario entities
        end
  end.

End Agent.
End QAAgent.

(** ** services/template_renderer.py: the [truncate_text] filter

    A text is read as the sequence of its characters, one [ascii] for
    each, so that [String.length] is [len]. *)

Module TemplateFilters.
Section Filters.
Context `{R : Runtime}.

(** The first [n] characters of a text, or all of it. *)
Fixpoint prefix (n : nat) (s : string) : string :=
  match n, s with
  | S k, String a s' => String a (prefix k s')
  | _, _ => EmptyString
  end.

(** [text[:stop]]: a negative [stop] counts from the end. *)
Definition slice_to (text : string) (stop : Z) : string :=
  if (0 <=? stop)%Z then prefix (Z.to_nat stop) text
  else prefix (Z.to_nat (Z.of_nat (String.length text) + stop)) text.

Definition _truncate_text (value : PyVal) (length : Z) (suffix : string) : string :=
  let text := py_str value in
  if (Z.of_nat (String.length text) <=? length)%Z then text
  else slice_to text (length - Z.of_nat (String.length suffix)) +:+ suffix.

End Filters.
End TemplateFilters.

(** ** agents/qa_agent.py: [AgentManager] *)

Module AgentManager.
Section Manager.
Context `{R : Runtime}.

(** The manager: its agents by identifier.  The AI service it hands to
    every agent is part of the remote state. *)
Record t : Type := mk { agents : gmap string QAAgent.t }.

(** [__init__] *)
Definition init : t := mk ∅.

(** [create_agent] returns the agent and registers it. *)
Definition create_agent (self : t) (agent_id : string) (config : AgentConfig.t)
    (use_mock_api : bool) : QAAgent.t * t :=
  let agent := QAAgent.init config use_mock_api in
  (agent, mk (<[agent_id := agent]> (agents self))).

Definition get_agent (self : t) (agent_id : string) : option QAAgent.t :=
  agents self !! agent_id.

Definition remove_agent (self : t) (agent_id : string) : bool * t :=
  if bool_decide (is_Some (agents self !! agent_id))
  then (true, mk (delete agent_id (agents self)))
  else (false, self).

(** [list(self.agents.keys())], in the order of the finite map. *)
Definition list_agents (self : t) : list string := (map_to_list (agents self)).*1.

End Manager.
End AgentManager.

(** ** A small runtime for worked examples

    The examples below need one implementation of [Runtime] to compute
    with.  This one agrees with CPython and the libraries on what the
    examples feed it: ASCII text, decimal integer literals, templates
    without tags, the documents listed in [canned_yaml] and [canned_json],
    the dates listed in [canned_dates], base addresses that end in a
    slash joined with relative paths, dictionaries that iterate in the
    order in which the sample documents are written, and a server that
    answers from a script.  Every theorem is stated for an arbitrary
    runtime and does not depend on it. *)

Module Sample.

Definition lower_char (c : ascii) : ascii :=
  let n := nat_of_ascii c in
  if (65 <=? n)%nat && (n <=? 90)%nat then ascii_of_nat (n + 32) else c.

Definition upper_char (c : ascii) : ascii :=
  let n := nat_of_ascii c in
  if (97 <=? n)%nat && (n <=? 122)%nat then ascii_of_nat (n - 32) else c.

Fixpoint map_chars (f : ascii -> ascii) (s : string) : string :=
  match s with
  | EmptyString => EmptyString
  | String a s' => String (f a) (map_chars f s')
  end.

Definition is_space (c : ascii) : bool :=
  let n := nat_of_ascii c in
  (n =? 32)%nat || ((9 <=? n)%nat && (n <=? 13)%nat).

Fixpoint lstrip_space (s : string) : string :=
  match s with
  | EmptyString => EmptyString
  | String a s' => if is_space a then lstrip_space s' else s
  end.

Definition strip_space (s : string) : string :=
  Str.rev (lstrip_space (Str.rev (lstrip_space s))).

(** The value of a run of decimal digits. *)
Fixpoint digits (acc : Z) (s : string) : option Z :=
  match s with
  | EmptyString => Some acc
  | String a s' =>
      let n := nat_of_ascii a in
      if (48 <=? n)%nat && (n <=? 57)%nat
      then digits (10 * acc + Z.of_nat (n - 48))%Z s'
      else None
  end.

Definition int_of_text (s : string) : Res Z :=
  let bad := raise ValueError ("invalid literal for int() with base 10: '" +:+ s +:+ "'") in
  match strip_space s with
  | EmptyString => bad
  | String "-" (String a r) => from_option (fun z => Ok (- z)%Z) bad (digits 0 (String a r))
  | String "+" (String a r) => from_option Ok bad (digits 0 (String a r))
  | t => from_option Ok bad (digits 0 t)
  end.

Definition int_of (v : PyVal) : Res Z :=
  match v with
  | VInt z => Ok z
  | VBool b => Ok (if b then 1 else 0)%Z
  | VStr s => int_of_text s
  | _ => raise TypeError "int() argument must be a string, a bytes-like object or a real number"
  end.

Definition float_of (v : PyVal) : Res spec_float :=
  match v with
  | VFloat f => Ok f
  | _ => raise ValueError "could not convert to float"
  end.

(** [urljoin] of a base that ends in a slash and a relative path: the
    two texts put together.  A base with an opening bracket and no
    closing one is refused, as [urlsplit] refuses it. *)
Definition join_url (base rel : string) : Res string :=
  if Str.has_char "[" base && negb (Str.has_char "]" base)
  then raise ValueError "Invalid IPv6 URL"
  else Ok (base +:+ rel).

(** The dates the sample knows: a text, the pattern it is read with, the
    pattern it is written with, and the outcome.  The first is the
    example of the specification; the last pattern names the year twice,
    which the pattern compiler refuses with an exception of its own. *)
Definition canned_dates : list ((string * string * string) * Res string) :=
  [ (("2024-01-15", "%Y-%m-%d", "%d/%m/%Y"), Ok "15/01/2024");
    (("2024-01-15", "%Y%Y", "%d/%m/%Y"),
     raise OtherException "redefinition of group name 'Y' as group 2; was group 1 at position 19") ].

(** Any other text does not match its pattern. *)
Definition date_of (text fmt_in fmt_out : string) : Res string :=
  match List.find (fun entry => bool_decide (fst entry = (text, fmt_in, fmt_out))) canned_dates with
  | Some entry => snd entry
  | None =>
      raise ValueError ("time data '" +:+ text +:+ "' does not match format '" +:+ fmt_in +:+ "'")
  end.

(** The keys of the sample documents, in the order in which the
    documents are written. *)
Definition written_order : list string :=
  ["openapi"; "info"; "servers"; "paths"; "/pets"; "/health"; "/owners";
   "post"; "get"; "delete"; "operationId"].

(** The place of a key in that order; a key that is not listed comes
    after those that are. *)
Fixpoint rank (keys : list string) (key : string) : nat :=
  match keys with
  | [] => O
  | k :: rest => if String.eqb k key then O else S (rank rest key)
  end.

Definition written_before (x y : string * PyVal) : Prop :=
  Nat.leb (rank written_order (fst x)) (rank written_order (fst y)).

#[global] Instance written_before_dec x y : Decision (written_before x y).
Proof. unfold written_before. apply _. Defined.

(** The entries of a dictionary in the order of the document. *)
Definition items_as_written (d : gmap string PyVal) : list (string * PyVal) :=
  merge_sort written_before (map_to_list d).

Definition strict_str (v : PyVal) : Res string :=
  match v with
  | VStr s => Ok s
  | _ => raise ValidationError "Input should be a valid string"
  end.

Definition strict_bool (v : PyVal) : Res bool :=
  match v with
  | VBool b => Ok b
  | _ => raise ValidationError "Input should be a valid boolean"
  end.

Fixpoint strict_strs (l : list PyVal) : Res (list string) :=
  match l with
  | [] => Ok []
  | v :: rest => res_bind (strict_str v) (fun s => res_bind (strict_strs rest) (fun ss => Ok (s :: ss)))
  end.

Definition strict_str_list (v : PyVal) : Res (list string) :=
  match v with
  | VList l => strict_strs l
  | _ => raise ValidationError "Input should be a valid list"
  end.

Definition strict_opt_str_list (v : PyVal) : Res (option (list string)) :=
  match v with
  | VNone => Ok None
  | _ => res_bind (strict_str_list v) (fun l => Ok (Some l))
  end.

Definition strict_dict (v : PyVal) : Res (gmap string PyVal) :=
  match v with
  | VDict d => Ok d
  | _ => raise ValidationError "Input should be a valid dictionary"
  end.

Definition strict_opt_dict (v : PyVal) : Res (option (gmap string PyVal)) :=
  match v with
  | VNone => Ok None
  | _ => res_bind (strict_dict v) (fun d => Ok (Some d))
  end.

Definition strict_str_dict (d : gmap string PyVal) : Res (gmap string string) :=
  map_fold (fun k v acc => res_bind acc (fun m => res_bind (strict_str v) (fun s => Ok (<[k := s]> m))))
           (Ok ∅) d.

(** A template without a brace has no tag and renders as itself. *)
Definition plain_render (template : string) (context : gmap string PyVal) : JinjaOutcome :=
  if Str.has_char "{" template then OtherFault "tags are outside this sample"
  else Rendered template.

(** The YAML texts the sample decoder knows, in flow style, and what
    [yaml.safe_load] makes of them. *)
Definition canned_yaml : list (string * PyVal) :=
  [ ("{openapi: 3.0.3}", VDict {["openapi" := VStr "3.0.3"]});
    ("{openapi: 3.0.3, paths: []}",
     VDict (<["paths" := VList []]> {["openapi" := VStr "3.0.3"]}));
    ("{openapi: '2.0'}", VDict {["openapi" := VStr "2.0"]});
    ("{openapi: 3}", VDict {["openapi" := VInt 3]});
    ("{info: {}}", VDict {["info" := VDict ∅]});
    ("[1]", VList [VInt 1]) ].

(** The JSON texts it knows; none of the YAML texts above but the last
    is JSON. *)
Definition canned_json : list (string * PyVal) :=
  [ ("[1]", VList [VInt 1]); ("{}", VDict ∅) ].

Definition decode_with (c : ExcClass) (table : list (string * PyVal)) (content : string)
    : Res PyVal :=
  match List.find (fun entry => String.eqb (fst entry) content) table with
  | Some entry => Ok (snd entry)
  | None => raise c "not a document of this sample"
  end.

(** The remote side: the answers the server will give, in order, and
    the answers of the AI collaborator. *)
Record world : Type := mkWorld {
  http_script : list HttpOutcome;
  match_answer : Res (option ScenarioMatch.t);
  generate_answer : Res string
}.

Definition scripted_request (req : Request.t) (w : world) : HttpOutcome * world :=
  match http_script w with
  | o :: rest => (o, mkWorld rest (match_answer w) (generate_answer w))
  | [] => (Failed (mkExc RequestError "All connection attempts failed"), w)
  end.

#[export] Instance runtime : Runtime := {|
  str_lower := map_chars lower_char;
  str_upper := map_chars upper_char;
  str_strip := strip_space;
  str_compound := fun _ => "<value>";
  py_int := int_of;
  py_float := float_of;
  reformat_date := date_of;
  urljoin := join_url;
  b64encode := fun s => s;
  dict_items := items_as_written;
  dict_items_entries := fun d => merge_sort_Permutation written_before (map_to_list d);
  yaml_safe_load := decode_with YAMLError canned_yaml;
  json_loads := decode_with JSONDecodeError canned_json;
  validate_str := strict_str;
  validate_bool := strict_bool;
  validate_str_list := strict_str_list;
  validate_opt_str_list := strict_opt_str_list;
  validate_dict := strict_dict;
  validate_opt_dict := strict_opt_dict;
  validate_str_dict := strict_str_dict;
  jinja_render := plain_render;
  World := world;
  http_request := scripted_request;
  ai_match_scenario := fun _ _ w => (match_answer w, w);
  ai_generate_response := fun _ _ _ w => (generate_answer w, w)
|}.

End Sample.

(** ** Paths as segments: the reading of [_build_url] the specification gives

    The specification speaks of the placeholders of a path and of a
    vocabulary of transforms.  A path is read here as a sequence of
    literal pieces and placeholders, [mapping_text] says in the
    specification's words which text a parameter mapping stands for, and
    [substituted] what becomes of each placeholder; the theorems compare
    them with [_apply_transform] and with the string replacements
    [url_path_of] performs. *)

Module PathSpec.
Section Segments.
Context `{R : Runtime}.

Inductive seg : Type :=
| Lit (text : string)
| Hole (name : string).

#[global] Instance seg_eq_dec : EqDecision seg.
Proof. solve_decision. Defined.

Definition seg_text (s : seg) : string :=
  match s with
  | Lit text => text
  | Hole name => APIExecutor.placeholder name
  end.

Fixpoint path_text (segs : list seg) : string :=
  match segs with
  | [] => EmptyString
  | s :: rest => seg_text s +:+ path_text rest
  end.

(** A name that can stand between the braces of a placeholder. *)
Definition plain_name (name : string) : bool :=
  negb (Str.has_char "{" name) && negb (Str.has_char "}" name).

(** A literal piece opens no placeholder. *)
Definition seg_ok (s : seg) : bool :=
  match s with
  | Lit text => negb (Str.has_char "{" text)
  | Hole name => plain_name name
  end.

(** The transform vocabulary of the specification: case folding,
    trimming, the three coercions, the date reformat with its two
    patterns, and the transform that passes a value through. *)
Inductive Transform : Type :=
| Lowercase
| Uppercase
| Trim
| IntegerCoercion
| FloatCoercion
| BooleanCoercion
| DateReformat (input_pattern output_pattern : string)
| Unchanged.

(** The identifiers of the vocabulary that are single words. *)
Definition WORDS : list (string * Transform) :=
  [("lowercase", Lowercase); ("uppercase", Uppercase); ("trim", Trim);
   ("int", IntegerCoercion); ("float", FloatCoercion); ("bool", BooleanCoercion)].

(** The patterns of [date_format:<inputPattern>:<outputPattern>]: what
    stands between the first colon and the second, and between the
    second and the third or the end. *)
Definition date_patterns (identifier : string) : option (string * string) :=
  if Str.startswith "date_format:" identifier then
    match Str.split ":" identifier with
    | _ :: input_pattern :: output_pattern :: _ => Some (input_pattern, output_pattern)
    | _ => None
    end
  else None.

(** The transform an identifier names; an unknown identifier passes the
    value through. *)
Definition named_transform (identifier : string) : Transform :=
  match List.find (fun word => String.eqb (fst word) identifier) WORDS with
  | Some word => snd word
  | None =>
      match date_patterns identifier with
      | Some (input_pattern, output_pattern) => DateReformat input_pattern output_pattern
      | None => Unchanged
      end
  end.

(** What a transform makes of a value.  The coercions fail as [int] and
    [float] do.  The date reformat gives the value back when its text
    does not match the input pattern (a [ValueError]); any other
    exception of the date library is raised. *)
Definition transform_value (transform : Transform) (value : PyVal) : Res PyVal :=
  match transform with
  | Lowercase => Ok (VStr (str_lower (py_str value)))
  | Uppercase => Ok (VStr (str_upper (py_str value)))
  | Trim => Ok (VStr (str_strip (py_str value)))
  | IntegerCoercion => res_bind (py_int value) (fun z => Ok (VInt z))
  | FloatCoercion => res_bind (py_float value) (fun f => Ok (VFloat f))
  | BooleanCoercion => Ok (VBool (bool_decide (str_lower (py_str value) ∈ ["true"; "1"; "yes"])))
  | DateReformat input_pattern output_pattern =>
      match reformat_date (py_str value) input_pattern output_pattern with
      | Ok text => Ok (VStr text)
      | Raise e => if bool_decide (exc_class e = ValueError) then Ok value else Raise e
      end
  | Unchanged => Ok value
  end.

(** The value a parameter mapping stands for: the entity's value, or
    the empty text when the entity is absent, transformed when a
    transform is declared. *)
Definition mapping_value (entity_map : gmap string PyVal) (mapping : ParameterMapping.t)
    : Res PyVal :=
  let value := dict_get entity_map (ParameterMapping.entity_name mapping) (VStr EmptyString) in
  match ParameterMapping.transform mapping with
  | Some identifier => transform_value (named_transform identifier) value
  | None => Ok value
  end.

(** The text it puts in place of its placeholder. *)
Definition mapping_text (entity_map : gmap string PyVal) (mapping : ParameterMapping.t)
    : Res string :=
  res_bind (mapping_value entity_map mapping) (fun value => Ok (py_str value)).

Definition targets (name : string) (mapping : ParameterMapping.t) : bool :=
  String.eqb (ParameterMapping.api_parameter mapping) name.

Definition named (name : string) (item : string * PyVal) : bool :=
  String.eqb (fst item) name.

(** What becomes of a segment: a placeholder takes the text of the
    first parameter mapping that targets it, else that of the first
    static parameter of its name, else it stays. *)
Definition substituted (texts : ParameterMapping.t -> string)
    (mappings : list ParameterMapping.t) (statics : list (string * PyVal)) (s : seg) : seg :=
  match s with
  | Lit text => Lit text
  | Hole name =>
      match List.find (targets name) mappings with
      | Some mapping => Lit (texts mapping)
      | None =>
          match List.find (named name) statics with
          | Some item => Lit (py_str (snd item))
          | None => Hole name
          end
      end
  end.

(** One replacement, on segments. *)
Definition fill (name text : string) (s : seg) : seg :=
  match s with
  | Lit t => Lit t
  | Hole m => if String.eqb m name then Lit text else Hole m
  end.

(** What is asked of the names: those the parameter mappings target and
    those of the static parameters are plain. *)
Definition names_ok (mappings : list ParameterMapping.t) (statics : list (string * PyVal)) : Prop :=
  Forall (fun mapping => plain_name (ParameterMapping.api_parameter mapping) = true) mappings
  /\ Forall (fun item => plain_name (fst item) = true) statics.

(** What is asked of the texts that are put into the path, and of no
    other: for every placeholder of the path, the first parameter
    mapping that targets it yields its text, which opens no placeholder;
    when no mapping targets it, the text of the static parameter of its
    name opens none. *)
Definition fillers_ok (entity_map : gmap string PyVal) (texts : ParameterMapping.t -> string)
    (segs : list seg) (mappings : list ParameterMapping.t) (statics : list (string * PyVal))
    : Prop :=
  forall name, Hole name ∈ segs ->
    match List.find (targets name) mappings with
    | Some mapping =>
        mapping_text entity_map mapping = Ok (texts mapping)
        /\ Str.has_char "{" (texts mapping) = false
    | None =>
        match List.find (named name) statics with
        | Some item => Str.has_char "{" (py_str (snd item)) = false
        | None => True
        end
    end.

Definition fill_mapping (texts : ParameterMapping.t -> string) (s : seg)
    (mapping : ParameterMapping.t) : seg :=
  fill (ParameterMapping.api_parameter mapping) (texts mapping) s.

Definition fill_static (s : seg) (item : string * PyVal) : seg :=
  fill (fst item) (py_str (snd item)) s.

End Segments.
End PathSpec.

(** ** Parameters by name: the reading of the merge the specification gives *)

Module MergeSpec.

(** The last declaration of [name] in a list of parameters. *)
Fixpoint declared (name : string) (params : list APIParameter.t) : option APIParameter.t :=
  match params with
  | [] => None
  | p :: rest =>
      match declared name rest with
      | Some q => Some q
      | None => if String.eqb (APIParameter.name p) name then Some p else None
      end
  end.

(** The entry of [name] in a merged list. *)
Definition entry (name : string) (params : list APIParameter.t) : option APIParameter.t :=
  List.find (fun p => String.eqb (APIParameter.name p) name) params.

(** The comprehension and the loop of the merge. *)
Definition put_all (params acc : list APIParameter.t) : list APIParameter.t :=
  fold_left (fun all_params p => OpenAPIParser.put_param p all_params) params acc.

End MergeSpec.

(** ** The gate of [answer], in the words of the specification *)

Module AgentSpec.

(** The three conditions under which the specification lets [answer]
    go on to the engine: a match, a confidence of at least 0.3, and
    every required entity extracted. *)
Definition proceeds (match_result : option ScenarioMatch.t) : Prop :=
  exists found,
    match_result = Some found
    /\ SFleb QAAgent.CONFIDENCE_THRESHOLD (ScenarioMatch.confidence found) = true
    /\ Forall (fun required =>
                 required ∈ ExtractedEntity.name <$> ScenarioMatch.extracted_entities found)
              (Scenario.required_entities (ScenarioMatch.scenario found)).

(** The same with the second condition read as: a confidence that is
    not below 0.3.  The two differ on a confidence that is not a
    number, which is neither below 0.3 nor at least 0.3. *)
Definition admitted (match_result : option ScenarioMatch.t) : Prop :=
  exists found,
    match_result = Some found
    /\ SFltb (ScenarioMatch.confidence found) QAAgent.CONFIDENCE_THRESHOLD = false
    /\ Forall (fun required =>
                 required ∈ ExtractedEntity.name <$> ScenarioMatch.extracted_entities found)
              (Scenario.required_entities (ScenarioMatch.scenario found)).

End AgentSpec.

(** ** The results of a scenario, position by position *)

Module ExecutorSpec.
Section Spec.
Context `{R : Runtime}.

(** The state in which the mapping at position [i] is executed: the one
    the mappings before it leave. *)
Definition state_before (call : APIMapping.t -> gmap string PyVal -> M PyVal)
    (mappings : list APIMapping.t) (i : nat)
    (entity_map : gmap string PyVal) (st : St) : St :=
  snd (APIExecutor.execute_mappings call (take i mappings) entity_map st).

(** The invariant of a recorded result. *)
Definition well_formed_result (api_mapping : APIMapping.t) (r : gmap string PyVal) : Prop :=
  r !! "endpoint" = Some (VStr (method_value (APIMapping.method api_mapping) +:+ " "
                                  +:+ APIMapping.endpoint_path api_mapping))
  /\ (exists success, r !! "success" = Some (VBool success))
  /\ (r !! "success" = Some (VBool true) -> r !! "error" = Some VNone)
  /\ (r !! "success" = Some (VBool false) ->
      r !! "data" = Some VNone /\ exists message, r !! "error" = Some (VStr message)).

End Spec.
End ExecutorSpec.

(** ** The context of a rendering *)

Module RenderSpec.

(** The keys [render_api_response] sets besides the [result_<i>] ones. *)
Definition RESERVED : list string := ["data"; "_results"; "_success_count"; "_error_count"].

(** The helper keys among them. *)
Definition HELPERS : list string := ["_results"; "_success_count"; "_error_count"].

(** Where a key of the context can come from: it is a helper key, or
    the [result_<i>] of a result that has data, or, when the result at
    position 0 has data, the key [data] or a key of its body. *)
Definition key_origin (api_results : list (gmap string PyVal)) (k : string) : Prop :=
  k ∈ HELPERS
  \/ (exists i r,
        api_results !! i = Some r /\ TemplateRenderer.has_data r = true
        /\ k = TemplateRenderer.result_key i)
  \/ (exists r0,
        api_results !! 0%nat = Some r0 /\ TemplateRenderer.has_data r0 = true
        /\ (k = "data"
            \/ exists d, dict_get r0 "data" VNone = VDict d /\ is_Some (d !! k))).

End RenderSpec.

(** ** Data of the worked examples *)

Module Examples.

(** The executor of the examples: no endpoints, no credentials. *)
Definition sample_executor : APIExecutor.t :=
  APIExecutor.init
    (APISpec.mk "Shop" "1.0.0" EmptyString "http://shop.test/" [] [] ∅ None)
    None QAAgent.default_timeout.

(** A scenario of two calls, against a server that answers the first
    with a 500 and the second with a JSON body. *)
Definition two_calls : Scenario.t :=
  Scenario.mk "s1" "two calls" EmptyString [] []
    [APIMapping.mk "/a" GET [] []; APIMapping.mk "/b" GET [] []]
    None None None.

Definition failing_then_fine : Sample.world :=
  Sample.mkWorld
    [Responded (Response.mk 500 "text/plain" "boom" (raise JSONDecodeError "Expecting value"));
     Responded (Response.mk 200 "application/json" "{id: 7}" (Ok (VDict {["id" := VInt 7]})))]
    (Ok None) (Ok EmptyString).

Definition start (w : Sample.world) : @St Sample.runtime := @mkSt Sample.runtime w [].

(** A failed result followed by a successful one. *)
Definition failed_then_ok : list (gmap string PyVal) :=
  [APIExecutor.result_dict "GET /a" false VNone (VStr "boom");
   APIExecutor.result_dict "GET /b" true (VDict {["name" := VStr "Laptop"]}) VNone].

(** Two failed results. *)
Definition both_failed : list (gmap string PyVal) :=
  [APIExecutor.result_dict "GET /a" false VNone (VStr "boom");
   APIExecutor.result_dict "GET /b" false VNone (VStr "Request timeout after 30.0s")].

(** One successful result, the one of the specification. *)
Definition laptop : list (gmap string PyVal) :=
  [APIExecutor.result_dict "GET /products/P1" true
     (VDict (<["price" := VInt 100]> {["name" := VStr "Laptop"]})) VNone].

Definition quiet : Sample.world := Sample.mkWorld [] (Ok None) (Ok EmptyString).

(** Path-level declarations: [id], a required string in the path, and
    [limit], an integer in the query. *)
Definition id_in_path : APIParameter.t :=
  APIParameter.mk "id" PATH STRING EmptyString true VNone VNone None.

Definition limit_in_query : APIParameter.t :=
  APIParameter.mk "limit" QUERY INTEGER EmptyString false VNone VNone None.

(** An operation that declares [id] again, as an optional integer. *)
Definition redeclaring_operation : PyVal :=
  VDict {["parameters" :=
            VList [VDict (<["schema" := VDict {["type" := VStr "integer"]}]>
                            (<["in" := VStr "path"]> {["name" := VStr "id"]}))]]}.

Definition id_as_integer : APIParameter.t :=
  APIParameter.mk "id" PATH INTEGER EmptyString false VNone VNone None.

(** An operation that declares [id] twice, in the query and in a
    header. *)
Definition twofold_operation : PyVal :=
  VDict {["parameters" :=
            VList [VDict (<["in" := VStr "query"]> {["name" := VStr "id"]});
                   VDict (<["in" := VStr "header"]> {["name" := VStr "id"]})]]}.

Definition id_in_query : APIParameter.t :=
  APIParameter.mk "id" QUERY STRING EmptyString false VNone VNone None.

Definition id_in_header : APIParameter.t :=
  APIParameter.mk "id" HEADER STRING EmptyString false VNone VNone None.

Definition nine_tenths : spec_float := S754_finite false 8106479329266893 (-53).
Definition one_fifth : spec_float := S754_finite false 7205759403792794 (-55).
Definition one : spec_float := S754_finite false 4503599627370496 (-52).

Definition product_scenario : Scenario.t :=
  Scenario.mk "s1" "product" EmptyString [] ["productId"]
    [APIMapping.mk "/products/{id}" GET [ParameterMapping.mk "productId" "id" None] []]
    (Some (ResponseTemplate.mk "Found." "Sorry." "Nothing.")) None None.

Definition product_entity : ExtractedEntity.t := ExtractedEntity.mk "productId" (VStr "P1") one.

Definition shop : APISpec.t :=
  APISpec.mk "Shop" "1.0.0" EmptyString "http://shop.test/" [] [] ∅ None.

Definition agent : QAAgent.t :=
  QAAgent.init (R := Sample.runtime)
    (AgentConfig.mk "session" "API Agent" EmptyString shop [product_scenario] ∅) false.

(** The collaborator is sure and has found the entity; the server
    answers with a JSON body. *)
Definition sure : Sample.world :=
  Sample.mkWorld
    [Responded (Response.mk 200 "application/json" "{name: Laptop}"
                            (Ok (VDict {["name" := VStr "Laptop"]})))]
    (Ok (Some (ScenarioMatch.mk product_scenario nine_tenths [product_entity])))
    (Ok EmptyString).

(** The collaborator is not sure. *)
Definition unsure : Sample.world :=
  Sample.mkWorld
    [Responded (Response.mk 200 "application/json" "{name: Laptop}"
                            (Ok (VDict {["name" := VStr "Laptop"]})))]
    (Ok (Some (ScenarioMatch.mk product_scenario one_fifth [product_entity])))
    (Ok EmptyString).

(** The collaborator gives a confidence that is not a number, as the
    JSON decoder makes of the literal NaN. *)
Definition undecided : Sample.world :=
  Sample.mkWorld
    [Responded (Response.mk 200 "application/json" "{name: Laptop}"
                            (Ok (VDict {["name" := VStr "Laptop"]})))]
    (Ok (Some (ScenarioMatch.mk product_scenario S754_nan [product_entity])))
    (Ok EmptyString).

End Examples.

(** ** Requests: what the executor sends *)

Module RequestSpec.
Section Spec.
Context `{R : Runtime}.

(** The same executor with no credentials configured. *)
Definition without_credentials (self : APIExecutor.t) : APIExecutor.t :=
  APIExecutor.mk (APIExecutor.api_spec self) ∅ (APIExecutor.timeout self)
                 (APIExecutor.base_url self).

(** The transforms that can raise: the two that convert to a number,
    and the date reformat, whose patterns the date library can refuse. *)
Definition fallible (transform : option string) : bool :=
  match transform with
  | Some identifier =>
      bool_decide (identifier = "int") || bool_decide (identifier = "float")
      || Str.startswith "date_format:" identifier
  | None => false
  end.

(** The properties of the JSON schema a request body declares: the
    three [get] calls of [_build_body]. *)
Definition body_properties (request_body : gmap string PyVal) : Res PyVal :=
  (json_content <- py_get (dict_get request_body "content" (VDict ∅)) "application/json" (VDict ∅) ;;
   schema <- py_get json_content "schema" (VDict ∅) ;;
   py_get schema "properties" (VDict ∅))%res.

(** An answer the executor reports as a success: a status below 400
    and, when the content type says JSON, a body that decodes. *)
Definition acceptable (o : HttpOutcome) : Prop :=
  exists response,
    o = Responded response
    /\ (Response.status_code response < 400)%Z
    /\ (Str.contains "application/json" (Response.content_type response) = true ->
        exists body, Response.json_body response = Ok body).

(** The request [_execute_api_call] builds for a mapping, or the
    exception that building it raises. *)
Definition request_of (self : APIExecutor.t) (api_mapping : APIMapping.t)
    (entity_map : gmap string PyVal) : Res Request.t :=
  let endpoint :=
    APIExecutor._find_endpoint self (APIMapping.endpoint_path api_mapping)
                               (APIMapping.method api_mapping) in
  (url <- APIExecutor._build_url self (APIMapping.endpoint_path api_mapping) api_mapping entity_map ;;
   query_params <- APIExecutor._build_query_params endpoint api_mapping entity_map ;;
   body <- APIExecutor._build_body endpoint api_mapping entity_map ;;
   Ok (Request.mk (method_value (APIMapping.method api_mapping)) url
                  (if bool_decide (query_params = ∅) then None else Some query_params)
                  (APIExecutor._build_headers self endpoint api_mapping entity_map) body))%res.

(** The requests of a scenario: one for every mapping whose request can
    be built, in the order of the mappings. *)
Definition requests_of (self : APIExecutor.t) (mappings : list APIMapping.t)
    (entity_map : gmap string PyVal) : list Request.t :=
  omap (fun api_mapping =>
          match request_of self api_mapping entity_map with
          | Ok req => Some req
          | Raise _ => None
          end) mappings.

(** The entity of a given name that decides its value: the last one
    extracted. *)
Definition latest (name : string) (entities : list ExtractedEntity.t) : option ExtractedEntity.t :=
  List.find (fun e => String.eqb (ExtractedEntity.name e) name) (rev entities).

(** The declared responses the mock executor looks at: those with a
    status from 200 to 299. *)
Definition successful (response : APIResponse.t) : bool :=
  (200 <=? APIResponse.status_code response)%Z && (APIResponse.status_code response <? 300)%Z.

(** The remote state after the server has answered the requests. *)
Definition served (reqs : list Request.t) (w : World) : World :=
  fold_left (fun w req => snd (http_request req w)) reqs w.

End Spec.
End RequestSpec.

(** ** Documents: what the parser reads *)

Module ParserSpec.
Import OpenAPIParser.

Section Spec.
Context `{R : Runtime}.

(** A method of the parser that only appends to the warnings, and whose
    result does not depend on the warnings recorded before. *)
Definition appends {A} (m : SM (list string) A) : Prop :=
  exists (r : Res A) (extra : list string), forall warnings, m warnings = (r, (warnings ++ extra)%list).

(** A pointer that [_resolve_ref] does not follow to a dictionary with
    entries: an external one, one that leaves the document, or one that
    ends at another kind of value or at an empty dictionary. *)
Definition dangling (text : string) (components : PyVal) : bool :=
  if Str.startswith "#/" text then
    match walk_ref (tail (Str.split "/" text)) (VDict {["components" := components]}) with
    | Some (VDict d) => bool_decide (d = ∅)
    | _ => true
    end
  else true.

(** The methods a path item declares, in the order of [METHODS]. *)
Definition declared_in (path_item : gmap string PyVal) : list HTTPMethod :=
  filter (fun method => is_Some (path_item !! method_lower method)) METHODS.

(** The operations a [paths] object declares: for every path whose item
    is an object, in the order in which [paths] iterates, the methods
    the item has an entry for, in the order of [METHODS]. *)
Definition declared_operations (paths : gmap string PyVal) : list (string * HTTPMethod) :=
  flat_map (fun item =>
              match snd item with
              | VDict path_item => (fun method => (fst item, method)) <$> declared_in path_item
              | _ => []
              end)
           (dict_items paths).

(** What [_parse_spec] keeps of a server object. *)
Definition server_entry (raw : PyVal) (entry : gmap string PyVal) : Prop :=
  exists server,
    raw = VDict server
    /\ entry = <["description" := dict_get server "description" (VStr EmptyString)]>
                 {["url" := dict_get server "url" (VStr EmptyString)]}.

(** The address of the first server, as the document gives it. *)
Definition first_server_url (raw_servers : list PyVal) : PyVal :=
  match raw_servers with
  | VDict server :: _ => dict_get server "url" (VStr EmptyString)
  | _ => VStr EmptyString
  end.

(** What identifies an endpoint: its path and its method. *)
Definition operation_of (endpoint : APIEndpoint.t) : string * HTTPMethod :=
  (APIEndpoint.path endpoint, APIEndpoint.method endpoint).

(** The literal pieces of a path read as segments. *)
Definition literal (s : PathSpec.seg) : bool :=
  match s with
  | PathSpec.Lit _ => true
  | PathSpec.Hole _ => false
  end.

End Spec.
End ParserSpec.

(** ** Documents and endpoints of the worked examples *)

Module Cases.

(** A document with one operation, [GET /pets]. *)
Definition pets_document : gmap string PyVal :=
  <["paths" := VDict {["/pets" := VDict {["get" := VDict {["operationId" := VStr "listPets"]}]}]}]>
    {["openapi" := VStr "3.0.3"]}.

Definition list_pets : APIEndpoint.t :=
  APIEndpoint.mk "/pets" GET "listPets" EmptyString EmptyString [] [] None [] None None.

Definition pets_spec : APISpec.t :=
  APISpec.mk "Untitled API" "1.0.0" EmptyString EmptyString [list_pets] [] ∅ (Some pets_document).

(** A document with two servers and three paths.  It is written in
    this order: the servers, then the paths [/pets], with [post] before
    [get], [/health], and [/owners], whose item is a text and not an
    object. *)
Definition shop_document : gmap string PyVal :=
  <["paths" :=
      VDict (<["/owners" := VStr "not yet"]>
               (<["/health" := VDict {["get" := VDict {["operationId" := VStr "health"]}]}]>
                  {["/pets" :=
                      VDict (<["get" := VDict {["operationId" := VStr "listPets"]}]>
                               {["post" := VDict {["operationId" := VStr "addPet"]}]})]}))]>
    (<["servers" :=
         VList [VDict (<["description" := VStr "main"]> {["url" := VStr "http://shop.test/v1"]});
                VDict {["url" := VStr "http://backup.test"]}]]>
       {["openapi" := VStr "3.0.3"]}).

Definition add_pet : APIEndpoint.t :=
  APIEndpoint.mk "/pets" POST "addPet" EmptyString EmptyString [] [] None [] None None.

Definition health : APIEndpoint.t :=
  APIEndpoint.mk "/health" GET "health" EmptyString EmptyString [] [] None [] None None.

(** What the document parses to. *)
Definition shop_spec : APISpec.t :=
  APISpec.mk "Untitled API" "1.0.0" EmptyString "http://shop.test/v1"
    [list_pets; add_pet; health]
    [<["description" := "main"]> {["url" := "http://shop.test/v1"]};
     <["description" := EmptyString]> {["url" := "http://backup.test"]}]
    ∅ (Some shop_document).

(** An endpoint that declares [limit] in the query, and a mapping that
    feeds it from the entity [n]. *)
Definition search : APIEndpoint.t :=
  APIEndpoint.mk "/search" GET "search" EmptyString EmptyString [] [Examples.limit_in_query]
                 None [] None None.

Definition search_mapping : APIMapping.t :=
  APIMapping.mk "/search" GET [ParameterMapping.mk "n" "limit" None] [].

(** An endpoint whose JSON body has the property [name], and a mapping
    that sets it. *)
Definition create_pet : APIEndpoint.t :=
  APIEndpoint.mk "/pets" POST "createPet" EmptyString EmptyString [] []
    (Some {["content" :=
              VDict {["application/json" :=
                        VDict {["schema" :=
                                  VDict {["properties" := VDict {["name" := VDict ∅]}]}]}]}]})
    [] None None.

Definition create_pet_mapping : APIMapping.t :=
  APIMapping.mk "/pets" POST [] [("name", VStr "Rex")].

(** A path without placeholders, with a mapping whose transform would
    fail if it were applied: no entity [n] is given. *)
Definition health_mapping : APIMapping.t :=
  APIMapping.mk "/health" GET [ParameterMapping.mk "n" "id" (Some "int")] [].

(** An executor whose base address opens a bracket it does not close. *)
Definition bracket_executor : APIExecutor.t :=
  APIExecutor.init
    (APISpec.mk "Shop" "1.0.0" EmptyString "http://[::1" [] [] ∅ None)
    None QAAgent.default_timeout.

(** An executor whose API key is configured for the query string. *)
Definition keyed_executor : APIExecutor.t :=
  APIExecutor.init
    (APISpec.mk "Shop" "1.0.0" EmptyString "http://shop.test/" [] [] ∅ None)
    (Some (<["key_value" := "secret"]>
             (<["key_location" := "query"]> {["type" := "api_key"]})))
    QAAgent.default_timeout.

(** A parameter declared in place, and one that points into another
    file. *)
Definition id_parameter : PyVal :=
  VDict (<["in" := VStr "path"]> {["name" := VStr "id"]}).

Definition foreign_parameter : gmap string PyVal :=
  {["$ref" := VStr "common.yaml#/parameters/limit"]}.

(** An operation whose request body points into another file, and the
    endpoint it parses to. *)
Definition foreign_body : gmap string PyVal :=
  {["$ref" := VStr "common.yaml#/bodies/pet"]}.

Definition foreign_body_operation : gmap string PyVal :=
  <["requestBody" := VDict foreign_body]> {["operationId" := VStr "createPet"]}.

Definition bodiless_create_pet : APIEndpoint.t :=
  APIEndpoint.mk "/pets" POST "createPet" EmptyString EmptyString [] [] (Some ∅) [] None None.

End Cases.

(** ** Calls that leave the process *)

Module PipelineSpec.
Section Spec.
Context `{R : Runtime}.

(** The events that are HTTP requests. *)
Definition is_http (ev : Event) : bool :=
  match ev with
  | EvHttp _ => true
  | _ => false
  end.

(** A method that sends no request: whatever it adds to the trace is
    not a request. *)
Definition sends_nothing {A} (m : M A) : Prop :=
  forall st, exists events,
    trace (snd (m st)) = (trace st ++ events)%list
    /\ Forall (fun ev => is_http ev = false) events.

(** A result whose failure message, if it failed, is a text. *)
Definition reports_text (r : gmap string PyVal) : Prop :=
  TemplateRenderer.succeeded r = false ->
  exists message, dict_get r "error" (VStr "Unknown error") = VStr message.

(** The entry of [api_calls_made] for a result. *)
Definition call_made (r : gmap string PyVal) : gmap string PyVal :=
  <["success" := dict_get r "success" VNone]> {["endpoint" := dict_get r "endpoint" VNone]}.

End Spec.
End PipelineSpec.

(** * Theorems *)

(** ** Facts about text *)

Module StrFacts.

Lemma app_cons (x : ascii) (a b : string) : String x a +:+ b = String x (a +:+ b).
Proof. reflexivity. Qed.

Lemma app_nil (b : string) : EmptyString +:+ b = b.
Proof. reflexivity. Qed.

Lemma app_assoc (a b c : string) : (a +:+ b) +:+ c = a +:+ (b +:+ c).
Proof.
  induction a as [|x a IH]; [reflexivity |].
  rewrite !app_cons. now rewrite IH.
Qed.

Lemma has_char_app c (a b : string) :
  Str.has_char c (a +:+ b) = Str.has_char c a || Str.has_char c b.
Proof.
  induction a as [|x a IH]; [reflexivity |].
  rewrite app_cons. simpl. destruct (Ascii.eqb x c); [reflexivity | exact IH].
Qed.

Lemma startswith_app (p t : string) : Str.startswith p (p +:+ t) = true.
Proof.
  induction p as [|x p IH]; [reflexivity |].
  rewrite app_cons. simpl. now rewrite Ascii.eqb_refl.
Qed.

Lemma replace_scan_skip (old new : string) (u t : string) :
  Str.replace_scan (String.length u) old new (u +:+ t) = Str.replace_scan 0 old new t.
Proof.
  induction u as [|a u IH]; [reflexivity |].
  rewrite app_cons. exact IH.
Qed.

(** Characters that cannot begin a match are copied. *)
Lemma replace_scan_copy (c : ascii) (p new s t : string) :
  Str.has_char c s = false ->
  Str.replace_scan 0 (String c p) new (s +:+ t) = s +:+ Str.replace_scan 0 (String c p) new t.
Proof.
  induction s as [|a s IH]; intros Hs; [reflexivity |].
  simpl in Hs. destruct (Ascii.eqb a c) eqn:E; [discriminate |].
  rewrite !app_cons. cbn [Str.replace_scan Str.startswith].
  rewrite Ascii.eqb_sym, E. now rewrite IH.
Qed.

(** A match is replaced and the scan goes on after it. *)
Lemma replace_scan_match (c : ascii) (p new t : string) :
  Str.replace_scan 0 (String c p) new (String c p +:+ t)
  = new +:+ Str.replace_scan 0 (String c p) new t.
Proof.
  pose proof (startswith_app (String c p) t) as Hp.
  rewrite app_cons in *. cbn [Str.replace_scan]. rewrite Hp.
  replace (String.length (String c p) - 1) with (String.length p) by (simpl; lia).
  now rewrite replace_scan_skip.
Qed.

Lemma contains_copy (c : ascii) (p s t : string) :
  Str.has_char c s = false ->
  Str.contains (String c p) (s +:+ t) = Str.contains (String c p) t.
Proof.
  induction s as [|a s IH]; intros Hs; [reflexivity |].
  simpl in Hs. destruct (Ascii.eqb a c) eqn:E; [discriminate |].
  rewrite app_cons. cbn [Str.contains Str.startswith]. rewrite Ascii.eqb_sym, E. now apply IH.
Qed.

Lemma contains_match (old t : string) : Str.contains old (old +:+ t) = true.
Proof.
  pose proof (startswith_app old t) as Hp.
  destruct (old +:+ t); cbn [Str.contains]; now rewrite Hp.
Qed.

(** Two names without a closing brace: one placeholder begins like the
    other only if the names agree. *)
Lemma startswith_closed (n m t : string) :
  Str.has_char "}" n = false -> Str.has_char "}" m = false ->
  Str.startswith (n +:+ "}") (m +:+ "}" +:+ t) = true -> n = m.
Proof.
  revert m. induction n as [|a n IH]; intros m Hn Hm H.
  - destruct m as [|b m]; [reflexivity |].
    cbn [Str.has_char] in Hm. rewrite app_nil, app_cons in H. cbn [Str.startswith] in H.
    destruct (Ascii.eqb b "}") eqn:E; [discriminate |].
    rewrite Ascii.eqb_sym, E in H. discriminate.
  - cbn [Str.has_char] in Hn. destruct (Ascii.eqb a "}") eqn:E; [discriminate |].
    rewrite app_cons in H.
    destruct m as [|b m].
    + rewrite app_nil, app_cons in H. cbn [Str.startswith] in H. rewrite E in H. discriminate.
    + rewrite app_cons in H. cbn [Str.startswith] in H. cbn [Str.has_char] in Hm.
      destruct (Ascii.eqb b "}"); [discriminate |].
      destruct (Ascii.eqb_spec a b) as [->|]; [| discriminate].
      f_equal. now apply IH.
Qed.

(** Without an occurrence, nothing is replaced. *)
Lemma replace_scan_absent (c : ascii) (p new s : string) :
  Str.contains (String c p) s = false -> Str.replace_scan 0 (String c p) new s = s.
Proof.
  induction s as [|a s IH]; intros H; [reflexivity |].
  cbn [Str.contains] in H. cbn [Str.replace_scan].
  destruct (Str.startswith (String c p) (String a s)); [discriminate |].
  now rewrite IH.
Qed.

End StrFacts.

(** ** Replacements in a path are substitutions on its segments *)

Module PathFacts.
Section Segments.
Context `{R : Runtime}.
Import PathSpec.

Lemma placeholder_cons (name : string) :
  APIExecutor.placeholder name = String "{" (name +:+ "}").
Proof. reflexivity. Qed.

Lemma plain_name_spec (name : string) :
  plain_name name = true ->
  Str.has_char "{" name = false /\ Str.has_char "}" name = false.
Proof.
  unfold plain_name. rewrite andb_true_iff, !negb_true_iff. tauto.
Qed.

Lemma closed_name_no_open (name : string) :
  Str.has_char "{" name = false -> Str.has_char "{" (name +:+ "}") = false.
Proof. intros H. rewrite StrFacts.has_char_app, H. reflexivity. Qed.

(** The code applies the transform the identifier names in the
    vocabulary of the specification. *)
Lemma apply_transform_vocabulary (value : PyVal) (identifier : string) :
  APIExecutor._apply_transform value identifier
  = transform_value (named_transform identifier) value.
Proof.
  unfold APIExecutor._apply_transform, named_transform, WORDS.
  cbn [List.find fst snd].
  rewrite !(String.eqb_sym identifier).
  repeat (destruct (String.eqb _ identifier); [reflexivity |]).
  unfold date_patterns.
  destruct (Str.startswith "date_format:" identifier); [| reflexivity].
  destruct (Str.split ":" identifier) as [|? [|? [|? ?]]]; reflexivity.
Qed.

(** So the value a mapping is given is the one the specification
    describes. *)
Lemma transformed_vocabulary (entity_map : gmap string PyVal) (mapping : ParameterMapping.t) :
  APIExecutor.transformed
    (dict_get entity_map (ParameterMapping.entity_name mapping) (VStr EmptyString))
    (ParameterMapping.transform mapping)
  = mapping_value entity_map mapping.
Proof.
  unfold APIExecutor.transformed, mapping_value.
  destruct (ParameterMapping.transform mapping) as [identifier |]; [| reflexivity].
  cbn [truthy_opt]. cbv [default from_option id].
  destruct (String.eqb_spec identifier EmptyString) as [-> | _]; cbn [negb].
  - reflexivity.
  - apply apply_transform_vocabulary.
Qed.

(** Replacing a placeholder in the text of a path is filling it in the
    segments. *)
Lemma replace_fill (name text : string) (segs : list seg) :
  plain_name name = true ->
  Forall (fun s => seg_ok s = true) segs ->
  Str.replace (APIExecutor.placeholder name) text (path_text segs)
  = path_text (fill name text <$> segs).
Proof.
  intros Hn Hsegs. apply plain_name_spec in Hn as [Hno Hnc].
  rewrite placeholder_cons. cbn [Str.replace].
  induction Hsegs as [|s segs Hs _ IH]; [reflexivity |].
  cbn [fmap list_fmap path_text]. destruct s as [t | m]; cbn [seg_text fill].
  - cbn [seg_ok] in Hs. apply negb_true_iff in Hs.
    rewrite StrFacts.replace_scan_copy by exact Hs. now rewrite IH.
  - cbn [seg_ok] in Hs. apply plain_name_spec in Hs as [Hmo Hmc].
    destruct (String.eqb_spec m name) as [-> | Hne]; cbn [seg_text].
    + rewrite placeholder_cons, StrFacts.replace_scan_match. now rewrite IH.
    + rewrite (placeholder_cons m), StrFacts.app_cons.
      cbn [Str.replace_scan Str.startswith]. rewrite Ascii.eqb_refl.
      rewrite StrFacts.app_assoc.
      destruct (Str.startswith (name +:+ "}") (m +:+ "}" +:+ path_text segs)) eqn:E2.
      * apply StrFacts.startswith_closed in E2; congruence.
      * rewrite <- StrFacts.app_assoc.
        rewrite StrFacts.replace_scan_copy by now apply closed_name_no_open.
        rewrite IH. reflexivity.
Qed.

(** Nothing to replace, nothing to fill. *)
Lemma replace_absent (name text path : string) :
  Str.contains (APIExecutor.placeholder name) path = false ->
  Str.replace (APIExecutor.placeholder name) text path = path.
Proof.
  rewrite placeholder_cons. cbn [Str.replace]. apply StrFacts.replace_scan_absent.
Qed.

(** The text of a placeholder occurs in a path only where the path has
    that placeholder. *)
Lemma contains_hole (name : string) (segs : list seg) :
  plain_name name = true ->
  Forall (fun s => seg_ok s = true) segs ->
  Str.contains (APIExecutor.placeholder name) (path_text segs) = true ->
  Hole name ∈ segs.
Proof.
  intros Hn Hsegs. apply plain_name_spec in Hn as [Hno Hnc].
  rewrite placeholder_cons.
  induction Hsegs as [|s segs Hs _ IH]; intros H; [discriminate H |].
  cbn [path_text] in H. destruct s as [t | m]; cbn [seg_text] in H.
  - cbn [seg_ok] in Hs. apply negb_true_iff in Hs.
    rewrite StrFacts.contains_copy in H by exact Hs. right. now apply IH.
  - cbn [seg_ok] in Hs. apply plain_name_spec in Hs as [Hmo Hmc].
    rewrite (placeholder_cons m), StrFacts.app_cons in H.
    cbn [Str.contains Str.startswith] in H. rewrite Ascii.eqb_refl in H.
    rewrite StrFacts.app_assoc in H.
    destruct (Str.startswith (name +:+ "}") (m +:+ "}" +:+ path_text segs)) eqn:E2.
    + apply StrFacts.startswith_closed in E2; [| assumption | assumption].
      subst m. left.
    + rewrite <- StrFacts.app_assoc in H.
      rewrite StrFacts.contains_copy in H by now apply closed_name_no_open.
      right. now apply IH.
Qed.

Lemma fill_ok (name text : string) (s : seg) :
  Str.has_char "{" text = false -> seg_ok s = true -> seg_ok (fill name text s) = true.
Proof.
  intros Ht Hs. destruct s as [t | m]; cbn [fill]; [exact Hs |].
  destruct (String.eqb m name); [| exact Hs].
  cbn [seg_ok]. now rewrite Ht.
Qed.

Lemma fill_all_ok (name text : string) (segs : list seg) :
  Str.has_char "{" text = false ->
  Forall (fun s => seg_ok s = true) segs ->
  Forall (fun s => seg_ok s = true) (fill name text <$> segs).
Proof.
  intros Ht Hsegs. apply Forall_fmap. eapply Forall_impl; [exact Hsegs |].
  intros s Hs. now apply fill_ok.
Qed.

(** Filling a placeholder the path does not have changes nothing. *)
Lemma fill_absent (name text : string) (segs : list seg) :
  Hole name ∉ segs -> fill name text <$> segs = segs.
Proof.
  induction segs as [|s segs IH]; intros H; [reflexivity |].
  apply not_elem_of_cons in H as [Hs H]. cbn [fmap list_fmap].
  rewrite (IH H). f_equal. destruct s as [t | m]; [reflexivity |].
  cbn [fill]. destruct (String.eqb_spec m name) as [-> | _]; [now destruct Hs | reflexivity].
Qed.

(** The placeholders left after a filling were there before, and are
    others than the one filled. *)
Lemma hole_after_fill (name text other : string) (segs : list seg) :
  Hole other ∈ fill name text <$> segs -> Hole other ∈ segs /\ other <> name.
Proof.
  intros H. apply list_elem_of_fmap in H as (s & Hs & Hin).
  destruct s as [t | m]; [discriminate Hs |].
  cbn [fill] in Hs. destruct (String.eqb m name) eqn:E; [discriminate Hs |].
  injection Hs as ->. apply String.eqb_neq in E. auto.
Qed.

(** One round of the first loop, on segments.  The text of the mapping
    is asked for only when the path has its placeholder. *)
Lemma substitute_mapping_fill (entity_map : gmap string PyVal) (mapping : ParameterMapping.t)
    (text : string) (segs : list seg) :
  plain_name (ParameterMapping.api_parameter mapping) = true ->
  Forall (fun s => seg_ok s = true) segs ->
  (Hole (ParameterMapping.api_parameter mapping) ∈ segs ->
   mapping_text entity_map mapping = Ok text) ->
  APIExecutor.substitute_mapping entity_map (path_text segs) mapping
  = Ok (path_text (fill (ParameterMapping.api_parameter mapping) text <$> segs)).
Proof.
  intros Hn Hsegs Ht. unfold APIExecutor.substitute_mapping.
  rewrite <- (replace_fill _ text segs Hn Hsegs).
  destruct (Str.contains _ _) eqn:E.
  - specialize (Ht (contains_hole _ _ Hn Hsegs E)).
    unfold mapping_text in Ht. rewrite transformed_vocabulary.
    destruct (mapping_value entity_map mapping) as [value | e]; cbn [res_bind] in *; [| discriminate].
    congruence.
  - now rewrite replace_absent.
Qed.

(** One round of the second loop, on segments. *)
Lemma substitute_static_fill (item : string * PyVal) (segs : list seg) :
  plain_name (fst item) = true ->
  Forall (fun s => seg_ok s = true) segs ->
  APIExecutor.substitute_static (path_text segs) item
  = path_text (fill (fst item) (py_str (snd item)) <$> segs).
Proof.
  intros Hn Hsegs. unfold APIExecutor.substitute_static.
  rewrite <- (replace_fill _ (py_str (snd item)) segs Hn Hsegs).
  destruct (Str.contains _ _) eqn:E; [reflexivity |].
  now rewrite replace_absent.
Qed.

(** A filling keeps the segments well formed when its text opens no
    placeholder, or when there is nothing to fill. *)
Lemma fill_keeps_ok (name text : string) (segs : list seg) :
  (Hole name ∈ segs -> Str.has_char "{" text = false) ->
  Forall (fun s => seg_ok s = true) segs ->
  Forall (fun s => seg_ok s = true) (fill name text <$> segs).
Proof.
  intros Ht Hsegs. destruct (decide (Hole name ∈ segs)) as [Hin | Hout].
  - apply fill_all_ok; auto.
  - now rewrite fill_absent.
Qed.

(** The first loop, on segments. *)
Lemma mapping_loop (entity_map : gmap string PyVal) (texts : ParameterMapping.t -> string)
    (mappings : list ParameterMapping.t) (segs : list seg) :
  Forall (fun mapping => plain_name (ParameterMapping.api_parameter mapping) = true) mappings ->
  Forall (fun s => seg_ok s = true) segs ->
  (forall name mapping,
     Hole name ∈ segs -> List.find (targets name) mappings = Some mapping ->
     mapping_text entity_map mapping = Ok (texts mapping)
     /\ Str.has_char "{" (texts mapping) = false) ->
  res_fold (APIExecutor.substitute_mapping entity_map) mappings (Ok (path_text segs))
  = Ok (path_text ((fun s => fold_left (fill_mapping texts) mappings s) <$> segs))
  /\ Forall (fun s => seg_ok s = true)
            ((fun s => fold_left (fill_mapping texts) mappings s) <$> segs).
Proof.
  intros Hnames. revert segs.
  induction Hnames as [|mapping mappings Hn _ IH]; intros segs Hsegs Htexts.
  - cbn [res_fold fold_left]. rewrite list_fmap_id. auto.
  - assert (Hfirst : List.find (targets (ParameterMapping.api_parameter mapping))
                               (mapping :: mappings) = Some mapping).
    { cbn [List.find]. unfold targets. now rewrite String.eqb_refl. }
    cbn [res_fold res_bind fold_left].
    rewrite (substitute_mapping_fill entity_map mapping (texts mapping) segs Hn Hsegs)
      by (intros Hin; apply (Htexts _ _ Hin Hfirst)).
    destruct (IH (fill (ParameterMapping.api_parameter mapping) (texts mapping) <$> segs))
      as [IH1 IH2].
    + apply fill_keeps_ok; [| exact Hsegs]. intros Hin. apply (Htexts _ _ Hin Hfirst).
    + intros name other Hin Hfind. apply hole_after_fill in Hin as [Hin Hne].
      apply (Htexts name other Hin). cbn [List.find]. unfold targets at 1.
      destruct (String.eqb_spec (ParameterMapping.api_parameter mapping) name) as [E | _];
        [now destruct Hne | exact Hfind].
    + rewrite <- list_fmap_compose in IH1, IH2. auto.
Qed.

(** The second loop, on segments. *)
Lemma static_loop (statics : list (string * PyVal)) (segs : list seg) :
  Forall (fun item => plain_name (fst item) = true) statics ->
  Forall (fun s => seg_ok s = true) segs ->
  (forall name item,
     Hole name ∈ segs -> List.find (named name) statics = Some item ->
     Str.has_char "{" (py_str (snd item)) = false) ->
  fold_left APIExecutor.substitute_static statics (path_text segs)
  = path_text ((fun s => fold_left fill_static statics s) <$> segs).
Proof.
  intros Hnames. revert segs.
  induction Hnames as [|item statics Hn _ IH]; intros segs Hsegs Htexts.
  - cbn [fold_left]. now rewrite list_fmap_id.
  - assert (Hfirst : List.find (named (fst item)) (item :: statics) = Some item).
    { cbn [List.find]. unfold named. now rewrite String.eqb_refl. }
    cbn [fold_left]. rewrite (substitute_static_fill _ _ Hn Hsegs).
    rewrite IH.
    + now rewrite <- list_fmap_compose.
    + apply fill_keeps_ok; [| exact Hsegs]. intros Hin. apply (Htexts _ _ Hin Hfirst).
    + intros name other Hin Hfind. apply hole_after_fill in Hin as [Hin Hne].
      apply (Htexts name other Hin). cbn [List.find]. unfold named at 1.
      destruct (String.eqb_spec (fst item) name) as [E | _];
        [now destruct Hne | exact Hfind].
Qed.

Lemma fill_lit (name text t : string) : fill name text (Lit t) = Lit t.
Proof. reflexivity. Qed.

Lemma fill_mappings_lit texts mappings t :
  fold_left (fill_mapping texts) mappings (Lit t) = Lit t.
Proof. induction mappings as [|m ms IH]; [reflexivity | exact IH]. Qed.

Lemma fill_statics_lit statics t : fold_left fill_static statics (Lit t) = Lit t.
Proof. induction statics as [|m ms IH]; [reflexivity | exact IH]. Qed.

(** The first mapping that targets a placeholder fills it. *)
Lemma fill_mappings_hole texts mappings name :
  fold_left (fill_mapping texts) mappings (Hole name)
  = match List.find (targets name) mappings with
    | Some mapping => Lit (texts mapping)
    | None => Hole name
    end.
Proof.
  induction mappings as [|m ms IH]; [reflexivity |].
  cbn [fold_left List.find]. unfold fill_mapping at 2, targets at 1. cbn [fill].
  rewrite String.eqb_sym.
  destruct (String.eqb (ParameterMapping.api_parameter m) name).
  - apply fill_mappings_lit.
  - exact IH.
Qed.

Lemma fill_statics_hole statics name :
  fold_left fill_static statics (Hole name)
  = match List.find (named name) statics with
    | Some item => Lit (py_str (snd item))
    | None => Hole name
    end.
Proof.
  induction statics as [|m ms IH]; [reflexivity |].
  cbn [fold_left List.find]. unfold fill_static at 2, named at 1. cbn [fill].
  rewrite String.eqb_sym.
  destruct (String.eqb (fst m) name).
  - apply fill_statics_lit.
  - exact IH.
Qed.

Lemma fill_both texts mappings statics (s : seg) :
  fold_left fill_static statics (fold_left (fill_mapping texts) mappings s)
  = substituted texts mappings statics s.
Proof.
  destruct s as [t | name]; cbn [substituted].
  - now rewrite fill_mappings_lit, fill_statics_lit.
  - rewrite fill_mappings_hole. destruct (List.find (targets name) mappings).
    + apply fill_statics_lit.
    + apply fill_statics_hole.
Qed.

(** The placeholders the first loop leaves are those no mapping
    targets. *)
Lemma hole_after_mappings texts mappings (segs : list seg) (name : string) :
  Hole name ∈ (fun s => fold_left (fill_mapping texts) mappings s) <$> segs ->
  Hole name ∈ segs /\ List.find (targets name) mappings = None.
Proof.
  intros H. apply list_elem_of_fmap in H as (s & Hs & Hin).
  destruct s as [t | m].
  - rewrite fill_mappings_lit in Hs. discriminate Hs.
  - rewrite fill_mappings_hole in Hs.
    destruct (List.find (targets m) mappings) eqn:E; [discriminate Hs |].
    injection Hs as ->. auto.
Qed.

(** [url_path_of] substitutes as the specification says. *)
Lemma url_path_of_segments (entity_map : gmap string PyVal)
    (texts : ParameterMapping.t -> string) (segs : list seg)
    (path : string) (method : HTTPMethod)
    (mappings : list ParameterMapping.t) (statics : list (string * PyVal)) :
  Forall (fun s => seg_ok s = true) segs ->
  names_ok mappings statics ->
  fillers_ok entity_map texts segs mappings statics ->
  APIExecutor.url_path_of (path_text segs) (APIMapping.mk path method mappings statics) entity_map
  = Ok (path_text (substituted texts mappings statics <$> segs)).
Proof.
  intros Hsegs [Hm Hs] Hfill. unfold APIExecutor.url_path_of.
  cbn [APIMapping.parameter_mappings APIMapping.static_params].
  destruct (mapping_loop entity_map texts mappings segs Hm Hsegs) as [-> Hok].
  { intros name mapping Hin Hfind. specialize (Hfill name Hin).
    rewrite Hfind in Hfill. exact Hfill. }
  cbn [res_bind]. rewrite (static_loop _ _ Hs Hok).
  - rewrite <- list_fmap_compose. do 2 f_equal.
    apply list_fmap_ext. intros i s _. apply fill_both.
  - intros name item Hin Hfind. apply hole_after_mappings in Hin as [Hin Hnone].
    specialize (Hfill name Hin). rewrite Hnone, Hfind in Hfill. exact Hfill.
Qed.

End Segments.
End PathFacts.

(** ** The request path *)

Module UrlClaims.
Import PathSpec.

(** C5, as amended.  A path is read as literal pieces without an
    opening brace and [{name}] placeholders with plain names; the names
    the parameter mappings target and the names of the static parameters
    are plain.  The text of a parameter mapping is [str] of the entity's
    value, or of the empty text when the entity is absent, after the
    transform the mapping declares, read in the vocabulary of the
    specification.  Suppose that, for every placeholder of the path, the
    first parameter mapping that targets it has a text (its transform
    does not raise) and that this text opens no placeholder, and that
    the text of the static parameter that fills a placeholder no mapping
    targets opens none.  Then [_build_url] raises nothing before
    [urljoin] and hands it the path in which every placeholder is
    replaced by the text of the first parameter mapping that targets it,
    else by the text of the static parameter of its name, and is left as
    it stands when neither exists; what [_build_url] returns or raises
    is what [urljoin] does on the base address and that path.  Nothing
    is asked of a mapping that is not the first to target a placeholder
    of the path: its transform is not evaluated.  The example of the
    specification, [/products/{id}] with [productId = P1], is the
    instance [products_path_example]. *)
Theorem build_url_substitutes_placeholders `{R : Runtime}
    (self : APIExecutor.t) (entity_map : gmap string PyVal)
    (texts : ParameterMapping.t -> string) (segs : list seg)
    (path : string) (method : HTTPMethod)
    (mappings : list ParameterMapping.t) (statics : list (string * PyVal)) :
  Forall (fun s => seg_ok s = true) segs ->
  names_ok mappings statics ->
  fillers_ok entity_map texts segs mappings statics ->
  let api_mapping := APIMapping.mk path method mappings statics in
  let final := path_text (substituted texts mappings statics <$> segs) in
  APIExecutor.url_path_of (path_text segs) api_mapping entity_map = Ok final
  /\ APIExecutor._build_url self (path_text segs) api_mapping entity_map
     = urljoin (APIExecutor.base_url self +:+ "/") (Str.lstrip "/" final)
  /\ (forall name mapping,
        Hole name ∈ segs ->
        List.find (targets name) mappings = Some mapping ->
        substituted texts mappings statics (Hole name) = Lit (texts mapping)
        /\ mapping_text entity_map mapping = Ok (texts mapping))
  /\ (forall name item,
        List.find (targets name) mappings = None ->
        List.find (named name) statics = Some item ->
        substituted texts mappings statics (Hole name) = Lit (py_str (snd item)))
  /\ (forall name,
        List.find (targets name) mappings = None ->
        List.find (named name) statics = None ->
        substituted texts mappings statics (Hole name) = Hole name).
Proof.
  intros Hsegs Hnames Hfill api_mapping final.
  pose proof (PathFacts.url_path_of_segments entity_map texts segs path method
                mappings statics Hsegs Hnames Hfill) as Hpath.
  fold api_mapping final in Hpath.
  split; [exact Hpath |].
  split; [unfold APIExecutor._build_url; rewrite Hpath; reflexivity |].
  split; [| split].
  - intros name mapping Hin Hfind. cbn [substituted]. rewrite Hfind. split; [reflexivity |].
    specialize (Hfill name Hin). rewrite Hfind in Hfill. apply Hfill.
  - intros name item Hnone Hfind. cbn [substituted]. now rewrite Hnone, Hfind.
  - intros name Hnone Hnone'. cbn [substituted]. now rewrite Hnone, Hnone'.
Qed.

(** The example of the specification.  In the second path the mapping
    of [id] is given in upper case by its transform, a placeholder is
    filled by a static parameter, one is left as it stands, and the
    mapping of [page], which no placeholder asks for, would fail if its
    transform were applied.  In the third the date of the specification
    is reformatted. *)
Lemma products_path_example :
  (APIExecutor.url_path_of (R := Sample.runtime) "/products/{id}"
     (APIMapping.mk "/products/{id}" GET [ParameterMapping.mk "productId" "id" None] [])
     {["productId" := VStr "P1"]}
   = Ok "/products/P1"
   /\ APIExecutor._build_url (R := Sample.runtime) Examples.sample_executor "/products/{id}"
        (APIMapping.mk "/products/{id}" GET [ParameterMapping.mk "productId" "id" None] [])
        {["productId" := VStr "P1"]}
      = Ok "http://shop.test/products/P1")
  /\ APIExecutor.url_path_of (R := Sample.runtime) "/shops/{shop}/products/{id}/{tab}"
       (APIMapping.mk "/shops/{shop}/products/{id}/{tab}" GET
          [ParameterMapping.mk "productId" "id" (Some "uppercase");
           ParameterMapping.mk "pageNumber" "page" (Some "int");
           ParameterMapping.mk "other" "id" None]
          [("shop", VInt 7)])
       {["productId" := VStr "p1"]}
     = Ok "/shops/7/products/P1/{tab}"
  /\ APIExecutor.url_path_of (R := Sample.runtime) "/orders/{day}"
       (APIMapping.mk "/orders/{day}" GET
          [ParameterMapping.mk "date" "day" (Some "date_format:%Y-%m-%d:%d/%m/%Y")] [])
       {["date" := VStr "2024-01-15"]}
     = Ok "/orders/15/01/2024".
Proof.
  split; [| split].
  - assert (H1 : Forall (fun s => seg_ok s = true) [Lit "/products/"; Hole "id"]).
    { repeat constructor. }
    assert (H2 : names_ok [ParameterMapping.mk "productId" "id" None] []).
    { repeat constructor. }
    assert (H3 : fillers_ok (R := Sample.runtime) {["productId" := VStr "P1"]}
                   (fun _ => "P1") [Lit "/products/"; Hole "id"]
                   [ParameterMapping.mk "productId" "id" None] []).
    { intros name Hin. apply elem_of_cons in Hin as [Hin | Hin]; [discriminate Hin |].
      apply elem_of_cons in Hin as [Hin | Hin]; [| now apply elem_of_nil in Hin].
      injection Hin as ->. split; reflexivity. }
    destruct (build_url_substitutes_placeholders (R := Sample.runtime) Examples.sample_executor
                {["productId" := VStr "P1"]} (fun _ => "P1") [Lit "/products/"; Hole "id"]
                "/products/{id}" GET [ParameterMapping.mk "productId" "id" None] []
                H1 H2 H3) as (Hpath & Hurl & _).
    split; [exact Hpath | exact Hurl].
  - assert (H1 : Forall (fun s => seg_ok s = true)
                   [Lit "/shops/"; Hole "shop"; Lit "/products/"; Hole "id"; Lit "/"; Hole "tab"]).
    { repeat constructor. }
    assert (H2 : names_ok [ParameterMapping.mk "productId" "id" (Some "uppercase");
                           ParameterMapping.mk "pageNumber" "page" (Some "int");
                           ParameterMapping.mk "other" "id" None]
                          [("shop", VInt 7)]).
    { repeat constructor. }
    assert (H3 : fillers_ok (R := Sample.runtime) {["productId" := VStr "p1"]}
                   (fun _ => "P1")
                   [Lit "/shops/"; Hole "shop"; Lit "/products/"; Hole "id"; Lit "/"; Hole "tab"]
                   [ParameterMapping.mk "productId" "id" (Some "uppercase");
                    ParameterMapping.mk "pageNumber" "page" (Some "int");
                    ParameterMapping.mk "other" "id" None]
                   [("shop", VInt 7)]).
    { intros name Hin.
      repeat (apply elem_of_cons in Hin as [Hin | Hin];
              [first [discriminate Hin | injection Hin as ->] |]);
        [| | | now apply elem_of_nil in Hin].
      - reflexivity.
      - split; reflexivity.
      - exact I. }
    exact (proj1 (build_url_substitutes_placeholders (R := Sample.runtime)
                    Examples.sample_executor {["productId" := VStr "p1"]} (fun _ => "P1")
                    [Lit "/shops/"; Hole "shop"; Lit "/products/"; Hole "id"; Lit "/"; Hole "tab"]
                    "/shops/{shop}/products/{id}/{tab}" GET
                    [ParameterMapping.mk "productId" "id" (Some "uppercase");
                     ParameterMapping.mk "pageNumber" "page" (Some "int");
                     ParameterMapping.mk "other" "id" None]
                    [("shop", VInt 7)] H1 H2 H3)).
  - assert (H1 : Forall (fun s => seg_ok s = true) [Lit "/orders/"; Hole "day"]).
    { repeat constructor. }
    assert (H2 : names_ok [ParameterMapping.mk "date" "day"
                             (Some "date_format:%Y-%m-%d:%d/%m/%Y")] []).
    { repeat constructor. }
    assert (H3 : fillers_ok (R := Sample.runtime) {["date" := VStr "2024-01-15"]}
                   (fun _ => "15/01/2024") [Lit "/orders/"; Hole "day"]
                   [ParameterMapping.mk "date" "day" (Some "date_format:%Y-%m-%d:%d/%m/%Y")]
                   []).
    { intros name Hin. apply elem_of_cons in Hin as [Hin | Hin]; [discriminate Hin |].
      apply elem_of_cons in Hin as [Hin | Hin]; [| now apply elem_of_nil in Hin].
      injection Hin as ->. split; reflexivity. }
    exact (proj1 (build_url_substitutes_placeholders (R := Sample.runtime)
                    Examples.sample_executor {["date" := VStr "2024-01-15"]}
                    (fun _ => "15/01/2024") [Lit "/orders/"; Hole "day"]
                    "/orders/{day}" GET
                    [ParameterMapping.mk "date" "day" (Some "date_format:%Y-%m-%d:%d/%m/%Y")]
                    [] H1 H2 H3)).
Defined.

(** C5 as stated fails in two ways.  A substituted text is searched
    again by the replacements that follow: with [a] given as [{b}] and
    [b] as [X], the path [/{a}/{b}] becomes [/X/X], where substituting
    each placeholder from its mapping gives [/{b}/X].  And a transform
    can raise: with [n] given as [abc] and the transform [int], or with
    a date pattern that names the year twice, no path is built. *)
Lemma substituted_text_replaced_again :
  APIExecutor.url_path_of (R := Sample.runtime) "/{a}/{b}"
    (APIMapping.mk "/{a}/{b}" GET
       [ParameterMapping.mk "first" "a" None; ParameterMapping.mk "second" "b" None] [])
    (<["second" := VStr "X"]> {["first" := VStr "{b}"]})
  = Ok "/X/X"
  /\ mapping_text (R := Sample.runtime) (<["second" := VStr "X"]> {["first" := VStr "{b}"]})
       (ParameterMapping.mk "first" "a" None) = Ok "{b}"
  /\ mapping_text (R := Sample.runtime) (<["second" := VStr "X"]> {["first" := VStr "{b}"]})
       (ParameterMapping.mk "second" "b" None) = Ok "X"
  /\ path_text (substituted (R := Sample.runtime) (fun mapping =>
                               if String.eqb (ParameterMapping.api_parameter mapping) "a"
                               then "{b}" else "X")
                  [ParameterMapping.mk "first" "a" None; ParameterMapping.mk "second" "b" None] []
                  <$> [Lit "/"; Hole "a"; Lit "/"; Hole "b"])
     = "/{b}/X"
  /\ APIExecutor.url_path_of (R := Sample.runtime) "/items/{n}"
       (APIMapping.mk "/items/{n}" GET [ParameterMapping.mk "count" "n" (Some "int")] [])
       {["count" := VStr "abc"]}
     = raise ValueError "invalid literal for int() with base 10: 'abc'"
  /\ APIExecutor.url_path_of (R := Sample.runtime) "/orders/{day}"
       (APIMapping.mk "/orders/{day}" GET
          [ParameterMapping.mk "date" "day" (Some "date_format:%Y%Y:%d/%m/%Y")] [])
       {["date" := VStr "2024-01-15"]}
     = raise OtherException
             "redefinition of group name 'Y' as group 2; was group 1 at position 19".
Proof. repeat split; reflexivity. Qed.

(** C9, as amended.  When a parameter mapping names an entity that the
    entity map lacks and declares no transform, the round of the loop
    that reaches it replaces its placeholder by the empty text.  Under
    the reading and the conditions of C5 (literal pieces and plain
    names; for every placeholder of the path, the first mapping that
    targets it has a text, and the texts put into the path open no
    placeholder), when such a mapping is the first to target a
    placeholder of the path, the path is built and that placeholder is
    replaced by the empty text in it, while a placeholder that no
    parameter mapping and no static parameter targets stays. *)
Theorem absent_entity_gives_empty_text `{R : Runtime}
    (entity_map : gmap string PyVal) (mapping : ParameterMapping.t) :
  entity_map !! ParameterMapping.entity_name mapping = None ->
  truthy_opt (ParameterMapping.transform mapping) = false ->
  (forall url_path,
     APIExecutor.substitute_mapping entity_map url_path mapping
     = Ok (Str.replace (APIExecutor.placeholder (ParameterMapping.api_parameter mapping))
                       EmptyString url_path))
  /\ (forall (texts : ParameterMapping.t -> string) (segs : list seg)
             (path : string) (method : HTTPMethod)
             (mappings : list ParameterMapping.t) (statics : list (string * PyVal))
             (name : string),
        Forall (fun s => seg_ok s = true) segs ->
        names_ok mappings statics ->
        fillers_ok entity_map texts segs mappings statics ->
        Hole name ∈ segs ->
        List.find (targets name) mappings = Some mapping ->
        APIExecutor.url_path_of (path_text segs) (APIMapping.mk path method mappings statics)
                                entity_map
        = Ok (path_text (substituted texts mappings statics <$> segs))
        /\ substituted texts mappings statics (Hole name) = Lit EmptyString
        /\ (forall other,
              List.find (targets other) mappings = None ->
              List.find (named other) statics = None ->
              substituted texts mappings statics (Hole other) = Hole other)).
Proof.
  intros Habsent Hplain. split.
  - intros url_path. unfold APIExecutor.substitute_mapping, APIExecutor.transformed, dict_get.
    rewrite Habsent, Hplain. cbn [res_bind py_str].
    destruct (Str.contains _ _) eqn:E; [reflexivity |].
    now rewrite PathFacts.replace_absent.
  - intros texts segs path method mappings statics name Hsegs Hnames Hfill Hin Hfind.
    split; [now apply PathFacts.url_path_of_segments |].
    split.
    + cbn [substituted]. rewrite Hfind. f_equal.
      specialize (Hfill name Hin). rewrite Hfind in Hfill. destruct Hfill as [Ht _].
      unfold mapping_text in Ht. rewrite <- PathFacts.transformed_vocabulary in Ht.
      unfold APIExecutor.transformed, dict_get in Ht.
      rewrite Habsent, Hplain in Ht. cbn in Ht. congruence.
    + intros other Hnone Hnone'. cbn [substituted]. now rewrite Hnone, Hnone'.
Qed.

Lemma absent_entity_example :
  APIExecutor.url_path_of (R := Sample.runtime) "/products/{id}"
    (APIMapping.mk "/products/{id}" GET [ParameterMapping.mk "productId" "id" None] [])
    ∅
  = Ok "/products/"
  /\ APIExecutor.url_path_of (R := Sample.runtime) "/products/{id}/reviews/{page}"
       (APIMapping.mk "/products/{id}/reviews/{page}" GET
                      [ParameterMapping.mk "productId" "id" None] [])
       ∅
     = Ok "/products//reviews/{page}".
Proof.
  assert (H2 : names_ok [ParameterMapping.mk "productId" "id" None] []).
  { repeat constructor. }
  pose proof (proj2 (absent_entity_gives_empty_text (R := Sample.runtime) ∅
                       (ParameterMapping.mk "productId" "id" None) eq_refl eq_refl)) as H.
  split.
  - assert (H1 : Forall (fun s => seg_ok s = true) [Lit "/products/"; Hole "id"]).
    { repeat constructor. }
    assert (H3 : fillers_ok (R := Sample.runtime) ∅ (fun _ => EmptyString)
                   [Lit "/products/"; Hole "id"]
                   [ParameterMapping.mk "productId" "id" None] []).
    { intros name Hin.
      repeat (apply elem_of_cons in Hin as [Hin | Hin];
              [first [discriminate Hin | injection Hin as ->] |]);
        [| now apply elem_of_nil in Hin].
      split; reflexivity. }
    exact (proj1 (H (fun _ => EmptyString) [Lit "/products/"; Hole "id"] "/products/{id}" GET
                    [ParameterMapping.mk "productId" "id" None] [] "id"
                    H1 H2 H3 (list_elem_of_further _ _ _ (list_elem_of_here _ _)) eq_refl)).
  - assert (H1 : Forall (fun s => seg_ok s = true)
                   [Lit "/products/"; Hole "id"; Lit "/reviews/"; Hole "page"]).
    { repeat constructor. }
    assert (H3 : fillers_ok (R := Sample.runtime) ∅ (fun _ => EmptyString)
                   [Lit "/products/"; Hole "id"; Lit "/reviews/"; Hole "page"]
                   [ParameterMapping.mk "productId" "id" None] []).
    { intros name Hin.
      repeat (apply elem_of_cons in Hin as [Hin | Hin];
              [first [discriminate Hin | injection Hin as ->] |]);
        [| | now apply elem_of_nil in Hin].
      - split; reflexivity.
      - exact I. }
    exact (proj1 (H (fun _ => EmptyString)
                    [Lit "/products/"; Hole "id"; Lit "/reviews/"; Hole "page"]
                    "/products/{id}/reviews/{page}" GET
                    [ParameterMapping.mk "productId" "id" None] [] "id"
                    H1 H2 H3 (list_elem_of_further _ _ _ (list_elem_of_here _ _)) eq_refl)).
Defined.

(** C9 as stated fails when the mapping declares a transform: the
    transform is applied to the empty text, and [bool] turns it into
    [False]. *)
Lemma absent_entity_with_transform :
  Str.contains "{id}" "/products/{id}" = true
  /\ (∅ : gmap string PyVal) !! "productId" = None
  /\ APIExecutor.url_path_of (R := Sample.runtime) "/products/{id}"
       (APIMapping.mk "/products/{id}" GET
                      [ParameterMapping.mk "productId" "id" (Some "bool")] [])
       ∅
     = Ok "/products/False"
  /\ APIExecutor.url_path_of (R := Sample.runtime) "/products/{id}"
       (APIMapping.mk "/products/{id}" GET
                      [ParameterMapping.mk "productId" "id" (Some "bool")] [])
       ∅
     <> Ok "/products/".
Proof.
  split; [reflexivity |]. split; [reflexivity |].
  split; [vm_compute; reflexivity |].
  vm_compute. discriminate.
Qed.

End UrlClaims.

(** ** The results of a scenario *)

Module ExecutorClaims.
Section Claims.
Context `{R : Runtime}.
Variable call : APIMapping.t -> gmap string PyVal -> M PyVal.

Lemma execute_mappings_length mappings entity_map st :
  length (fst (APIExecutor.execute_mappings call mappings entity_map st)) = length mappings.
Proof.
  revert st. induction mappings as [|m ms IH]; intros st; [reflexivity |].
  cbn [APIExecutor.execute_mappings].
  destruct (call m entity_map st) as [outcome st1].
  specialize (IH st1).
  destruct (APIExecutor.execute_mappings call ms entity_map st1) as [results st2].
  cbn [fst length] in *. now rewrite IH.
Qed.

Lemma execute_mappings_lookup mappings entity_map st i api_mapping :
  mappings !! i = Some api_mapping ->
  fst (APIExecutor.execute_mappings call mappings entity_map st) !! i
  = Some (APIExecutor.record_result api_mapping
            (fst (call api_mapping entity_map (ExecutorSpec.state_before call mappings i entity_map st)))).
Proof.
  revert st i. induction mappings as [|m ms IH]; intros st i Hi; [discriminate |].
  unfold ExecutorSpec.state_before. cbn [APIExecutor.execute_mappings].
  destruct i as [|i]; cbn [take].
  - injection Hi as ->. cbn [APIExecutor.execute_mappings snd].
    destruct (call api_mapping entity_map st) as [outcome st1].
    destruct (APIExecutor.execute_mappings call ms entity_map st1) as [results st2].
    reflexivity.
  - cbn [APIExecutor.execute_mappings].
    destruct (call m entity_map st) as [outcome st1].
    specialize (IH st1 i Hi). unfold ExecutorSpec.state_before in IH.
    destruct (APIExecutor.execute_mappings call ms entity_map st1) as [results st2].
    destruct (APIExecutor.execute_mappings call (take i ms) entity_map st1) as [results' st2'].
    exact IH.
Qed.

Lemma result_dict_endpoint label success data error :
  APIExecutor.result_dict label success data error !! "endpoint" = Some (VStr label).
Proof. unfold APIExecutor.result_dict. by simplify_map_eq. Qed.

Lemma result_dict_success label success data error :
  APIExecutor.result_dict label success data error !! "success" = Some (VBool success).
Proof. unfold APIExecutor.result_dict. by simplify_map_eq. Qed.

Lemma result_dict_data label success data error :
  APIExecutor.result_dict label success data error !! "data" = Some data.
Proof. unfold APIExecutor.result_dict. by simplify_map_eq. Qed.

Lemma result_dict_error label success data error :
  APIExecutor.result_dict label success data error !! "error" = Some error.
Proof. unfold APIExecutor.result_dict. by simplify_map_eq. Qed.

Lemma record_result_well_formed api_mapping outcome :
  ExecutorSpec.well_formed_result api_mapping (APIExecutor.record_result api_mapping outcome).
Proof.
  unfold ExecutorSpec.well_formed_result, APIExecutor.record_result.
  destruct outcome as [data | e]; [| case_bool_decide];
    rewrite result_dict_endpoint, result_dict_success, result_dict_data, result_dict_error;
    (split; [reflexivity |]); (split; [eauto |]); split; intros; try discriminate; eauto.
Qed.

Lemma execute_mappings_well_formed mappings entity_map st :
  Forall2 ExecutorSpec.well_formed_result mappings
          (fst (APIExecutor.execute_mappings call mappings entity_map st)).
Proof.
  revert st. induction mappings as [|m ms IH]; intros st; [constructor |].
  cbn [APIExecutor.execute_mappings].
  destruct (call m entity_map st) as [outcome st1].
  specialize (IH st1).
  destruct (APIExecutor.execute_mappings call ms entity_map st1) as [results st2].
  constructor; [apply record_result_well_formed | exact IH].
Qed.

(** C1.  Whatever [_execute_api_call] the executor has, [execute_scenario]
    does not raise; it returns as many results as the scenario has
    mappings; the result at position [i] records the outcome of the
    call for the mapping at position [i], made in the state the earlier
    mappings left, whether they failed or not; a call that raised is
    recorded with [success] false, a call that returned with [success]
    true. *)
Theorem execute_scenario_one_result_per_mapping
    (scenario : Scenario.t) (extracted_entities : list ExtractedEntity.t) (st : St) :
  let mappings := Scenario.api_mappings scenario in
  let entity_map := APIExecutor.build_entity_map extracted_entities in
  exists results st',
    APIExecutor.execute_scenario call scenario extracted_entities st = (Ok results, st')
    /\ length results = length mappings
    /\ forall i api_mapping,
         mappings !! i = Some api_mapping ->
         let outcome := fst (call api_mapping entity_map (ExecutorSpec.state_before call mappings i entity_map st)) in
         results !! i = Some (APIExecutor.record_result api_mapping outcome)
         /\ (forall e, outcome = Raise e ->
             APIExecutor.record_result api_mapping outcome !! "success" = Some (VBool false))
         /\ (forall data, outcome = Ok data ->
             APIExecutor.record_result api_mapping outcome !! "success" = Some (VBool true)).
Proof.
  intros mappings entity_map. unfold APIExecutor.execute_scenario.
  fold mappings entity_map.
  pose proof (execute_mappings_length mappings entity_map st) as Hlen.
  pose proof (execute_mappings_lookup mappings entity_map st) as Hlook.
  destruct (APIExecutor.execute_mappings call mappings entity_map st) as [results st'].
  exists results, st'. cbn [fst] in *.
  split; [reflexivity |]. split; [exact Hlen |].
  intros i api_mapping Hi. cbv zeta. split; [now apply Hlook |].
  split.
  - intros e He. rewrite He. cbn [APIExecutor.record_result].
    case_bool_decide; apply result_dict_success.
  - intros data Hd. rewrite Hd. apply result_dict_success.
Qed.

(** C10.  Every result [execute_scenario] returns carries the label
    [METHOD path] of its mapping and a boolean [success]; when [success]
    is true its [error] is [None]; when [success] is false its [data] is
    [None] and its [error] is a text. *)
Theorem execute_scenario_results_well_formed
    (scenario : Scenario.t) (extracted_entities : list ExtractedEntity.t) (st : St) :
  exists results st',
    APIExecutor.execute_scenario call scenario extracted_entities st = (Ok results, st')
    /\ Forall2 ExecutorSpec.well_formed_result (Scenario.api_mappings scenario) results.
Proof.
  unfold APIExecutor.execute_scenario.
  pose proof (execute_mappings_well_formed (Scenario.api_mappings scenario)
                (APIExecutor.build_entity_map extracted_entities) st) as Hwf.
  destruct (APIExecutor.execute_mappings call _ _ st) as [results st'].
  exists results, st'. split; [reflexivity | exact Hwf].
Qed.

End Claims.
End ExecutorClaims.

Module ExecutorExamples.

(** The instance of C1 the specification names: the first call fails,
    the second succeeds, both are made and both are recorded in order. *)
Lemma first_fails_second_succeeds :
  exists results st',
    APIExecutor.execute_scenario (R := Sample.runtime)
      (APIExecutor._execute_api_call Examples.sample_executor) Examples.two_calls []
      (Examples.start Examples.failing_then_fine)
    = (Ok results, st')
    /\ results
       = [APIExecutor.result_dict "GET /a" false VNone (VStr "API returned error 500: boom");
          APIExecutor.result_dict "GET /b" true (VDict {["id" := VInt 7]}) VNone]
    /\ length (trace st') = 2%nat
    /\ Sample.http_script (world st') = [].
Proof.
  destruct (ExecutorClaims.execute_scenario_one_result_per_mapping (R := Sample.runtime)
              (APIExecutor._execute_api_call Examples.sample_executor) Examples.two_calls []
              (Examples.start Examples.failing_then_fine)) as (results & st' & Hrun & _ & _).
  exists results, st'. split; [exact Hrun |].
  assert (E : APIExecutor.execute_scenario (R := Sample.runtime)
                (APIExecutor._execute_api_call Examples.sample_executor) Examples.two_calls []
                (Examples.start Examples.failing_then_fine)
              = (Ok [APIExecutor.result_dict "GET /a" false VNone
                       (VStr "API returned error 500: boom");
                     APIExecutor.result_dict "GET /b" true (VDict {["id" := VInt 7]}) VNone],
                 snd (APIExecutor.execute_scenario (R := Sample.runtime)
                        (APIExecutor._execute_api_call Examples.sample_executor) Examples.two_calls []
                        (Examples.start Examples.failing_then_fine)))) by reflexivity.
  rewrite E in Hrun. injection Hrun as <- <-.
  repeat split; reflexivity.
Defined.

(** The instance of C10 for the same scenario. *)
Lemma two_calls_well_formed :
  exists results st',
    APIExecutor.execute_scenario (R := Sample.runtime)
      (APIExecutor._execute_api_call Examples.sample_executor) Examples.two_calls []
      (Examples.start Examples.failing_then_fine)
    = (Ok results, st')
    /\ Forall2 ExecutorSpec.well_formed_result (Scenario.api_mappings Examples.two_calls) results.
Proof.
  exact (ExecutorClaims.execute_scenario_results_well_formed (R := Sample.runtime)
           (APIExecutor._execute_api_call Examples.sample_executor) Examples.two_calls []
           (Examples.start Examples.failing_then_fine)).
Defined.

(** Without an endpoint, [_build_query_params] reads the static
    parameters only: neither the parameter mappings nor the entity map
    have a part in its result. *)
Lemma query_params_without_endpoint `{R : Runtime}
    (api_mapping : APIMapping.t) (entity_map : gmap string PyVal) :
  APIExecutor._build_query_params None api_mapping entity_map
  = Ok (fold_left (APIExecutor.add_static_query None) (APIMapping.static_params api_mapping) ∅).
Proof. reflexivity. Qed.

(** C3 at its failing input: the endpoint of the mapping is not in the
    specification, the entity [q] has a value and no transform is
    declared, and the query parameters come out empty; the mapped value
    is not among them, while a static parameter is. *)
Theorem unresolved_endpoint_drops_mapped_parameters `{R : Runtime} :
  APIExecutor._find_endpoint Examples.sample_executor "/search" GET = None
  /\ APIExecutor._build_query_params None
       (APIMapping.mk "/search" GET [ParameterMapping.mk "q" "search" None] [])
       {["q" := VStr "laptop"]}
     = Ok ∅
  /\ APIExecutor._build_query_params None
       (APIMapping.mk "/search" GET [ParameterMapping.mk "q" "search" None]
                      [("limit", VInt 10)])
       {["q" := VStr "laptop"]}
     = Ok {["limit" := VInt 10]}.
Proof.
  split; [reflexivity |]. rewrite !query_params_without_endpoint.
  split; reflexivity.
Qed.

End ExecutorExamples.

(** ** Facts about the rendering context *)

Module RendererFacts.
Section Facts.
Context `{R : Runtime}.
Import TemplateRenderer RenderSpec.

Lemma result_key_inj (i j : nat) : result_key i = result_key j -> i = j.
Proof.
  unfold result_key. intros H. apply String.app_inj in H. now apply pretty_nat_inj in H.
Qed.

Lemma result_key_cons (i : nat) : result_key i = String "r" ("esult_" +:+ pretty i).
Proof. reflexivity. Qed.

Lemma result_key_not_reserved (i : nat) : result_key i ∉ RESERVED.
Proof.
  rewrite result_key_cons. unfold RESERVED. 
  rewrite !not_elem_of_cons. repeat split; try discriminate. apply not_elem_of_nil.
Qed.

Lemma collect_one_later (i : nat) (r data : gmap string PyVal) (k : string) :
  k <> result_key (S i) -> collect_one (S i) r data !! k = data !! k.
Proof.
  intros Hk. unfold collect_one. destruct (has_data r); [| reflexivity].
  now rewrite lookup_insert_ne.
Qed.

(** From the second result on, only [result_<i>] keys are written. *)
Lemma collect_later_other (rest : list (gmap string PyVal)) (i : nat)
    (data : gmap string PyVal) (k : string) :
  (forall j, k <> result_key (S i + j)) ->
  collect (S i) rest data !! k = data !! k.
Proof.
  revert i data. induction rest as [|r rest IH]; intros i data Hk; [reflexivity |].
  cbn [collect]. rewrite IH.
  - apply collect_one_later. specialize (Hk 0). now rewrite Nat.add_0_r in Hk.
  - intros j. specialize (Hk (S j)). now rewrite Nat.add_succ_r in Hk.
Qed.

Lemma collect_later_at (rest : list (gmap string PyVal)) (i j : nat)
    (data r : gmap string PyVal) :
  rest !! j = Some r ->
  collect (S i) rest data !! result_key (S i + j)
  = if has_data r then Some (dict_get r "data" VNone) else data !! result_key (S i + j).
Proof.
  revert i j data. induction rest as [|r' rest IH]; intros i j data Hj; [discriminate |].
  cbn [collect]. destruct j as [|j].
  - injection Hj as ->. rewrite Nat.add_0_r.
    rewrite collect_later_other.
    + unfold collect_one. destruct (has_data r); [| reflexivity].
      now rewrite lookup_insert_eq.
    + intros j H. apply result_key_inj in H. lia.
  - cbn [lookup] in Hj. rewrite Nat.add_succ_r.
    change (S (S i + j)) with (S (S i) + j).
    rewrite (IH (S i) j _ Hj). destruct (has_data r); [reflexivity |].
    apply collect_one_later. intros H. apply result_key_inj in H. lia.
Qed.

Lemma collect_nothing (results : list (gmap string PyVal)) (i : nat) (data : gmap string PyVal) :
  Forall (fun r => has_data r = false) results -> collect i results data = data.
Proof.
  intros H. revert i data. induction H as [|r rest Hr _ IH]; intros i data; [reflexivity |].
  cbn [collect]. rewrite IH. unfold collect_one. now rewrite Hr.
Qed.

Lemma add_helpers_other (results : list (gmap string PyVal)) (data : gmap string PyVal)
    (k : string) :
  k ∉ RESERVED -> add_helpers results data !! k = data !! k.
Proof.
  unfold RESERVED. rewrite !not_elem_of_cons. intros (_ & H1 & H2 & H3 & _).
  unfold add_helpers. by rewrite !lookup_insert_ne.
Qed.

Lemma add_helpers_data (results : list (gmap string PyVal)) (data : gmap string PyVal) :
  add_helpers results data !! "data" = data !! "data".
Proof. unfold add_helpers. by rewrite !lookup_insert_ne. Qed.

(** The binding of [result_<i>] in the context. *)
Lemma context_result_key (results : list (gmap string PyVal)) (i : nat) (r : gmap string PyVal) :
  results !! i = Some r ->
  context_of results !! result_key i
  = if has_data r then Some (dict_get r "data" VNone)
    else match results with
         | r0 :: _ => collect_one 0 r0 ∅ !! result_key i
         | [] => None
         end.
Proof.
  intros Hi. unfold context_of.
  rewrite add_helpers_other by apply result_key_not_reserved.
  destruct results as [|r0 rest]; [discriminate |].
  cbn [collect]. destruct i as [|i].
  - injection Hi as ->. rewrite collect_later_other.
    + unfold collect_one at 1. destruct (has_data r) eqn:E; [now rewrite lookup_insert_eq |].
      unfold collect_one. now rewrite E.
    + intros j H. apply result_key_inj in H. lia.
  - cbn [lookup] in Hi.
    pose proof (collect_later_at rest 0 i (collect_one 0 r0 ∅) r Hi) as H.
    cbn [Nat.add] in H. exact H.
Qed.

(** The result at position 0, when it has data, gives [data] and the
    top-level entries. *)
Lemma context_data (r0 : gmap string PyVal) (rest : list (gmap string PyVal)) :
  context_of (r0 :: rest) !! "data"
  = if has_data r0 then Some (dict_get r0 "data" VNone) else None.
Proof.
  unfold context_of. rewrite add_helpers_data. cbn [collect].
  rewrite collect_later_other.
  - unfold collect_one. destruct (has_data r0); [| reflexivity].
    rewrite lookup_insert_ne by (rewrite result_key_cons; discriminate).
    now rewrite lookup_insert_eq.
  - intros j. rewrite result_key_cons. discriminate.
Qed.

Lemma context_merged (r0 : gmap string PyVal) (rest : list (gmap string PyVal))
    (d : gmap string PyVal) (k : string) :
  has_data r0 = true ->
  dict_get r0 "data" VNone = VDict d ->
  k ∉ RESERVED -> (forall j, k <> result_key j) ->
  context_of (r0 :: rest) !! k = d !! k.
Proof.
  intros Hr Hd Hk Hkey. unfold context_of. rewrite add_helpers_other by exact Hk.
  cbn [collect]. rewrite collect_later_other by (intros j; apply Hkey).
  unfold collect_one. rewrite Hr, Hd.
  rewrite lookup_insert_ne by (apply not_eq_sym, Hkey).
  rewrite lookup_insert_ne.
  - now rewrite (right_id_L ∅ (∪)).
  - intros <-. apply Hk. unfold RESERVED. apply list_elem_of_here.
Qed.

Lemma context_helpers (results : list (gmap string PyVal)) :
  context_of results !! "_results" = Some (VList (VDict <$> results))
  /\ context_of results !! "_success_count"
     = Some (VInt (Z.of_nat (length (List.filter succeeded results))))
  /\ context_of results !! "_error_count"
     = Some (VInt (Z.of_nat (length (List.filter (fun r => negb (succeeded r)) results)))).
Proof.
  unfold context_of, add_helpers. repeat split; by simplify_map_eq.
Qed.

Lemma collect_some (results : list (gmap string PyVal)) (i : nat) (r : gmap string PyVal) :
  results !! i = Some r -> has_data r = true -> collect 0 results ∅ <> ∅.
Proof.
  intros Hi Hr Hempty.
  pose proof (context_result_key results i r Hi) as H.
  unfold context_of in H. rewrite add_helpers_other in H by apply result_key_not_reserved.
  rewrite Hr, Hempty in H. rewrite lookup_empty in H. discriminate.
Qed.

(** The keys of the collected data: those it started from, the
    [result_<i>] of the results that have data and, for the result at
    position 0, [data] and the keys of its body. *)
Lemma collect_keys (results : list (gmap string PyVal)) (i : nat) (data : gmap string PyVal)
    (k : string) :
  is_Some (collect i results data !! k) ->
  is_Some (data !! k)
  \/ (exists j r, results !! j = Some r /\ has_data r = true /\ k = result_key (i + j))
  \/ (i = 0%nat
      /\ exists r0,
           results !! 0%nat = Some r0 /\ has_data r0 = true
           /\ (k = "data" \/ exists d, dict_get r0 "data" VNone = VDict d /\ is_Some (d !! k))).
Proof.
  revert i data. induction results as [|r rest IH]; intros i data H; [now left |].
  cbn [collect] in H. destruct (IH _ _ H) as [Hone | [(j & r' & Hj & Hr' & ->) | [Hi _]]].
  - unfold collect_one in Hone. destruct (has_data r) eqn:Hr; [| now left].
    destruct (decide (k = result_key i)) as [-> | Hk].
    { right. left. exists 0%nat, r. rewrite Nat.add_0_r. auto. }
    rewrite lookup_insert_ne in Hone by now apply not_eq_sym.
    destruct i as [|i]; [| now left].
    destruct (decide (k = "data")) as [-> | Hd].
    { right. right. split; [reflexivity |]. exists r. auto. }
    rewrite lookup_insert_ne in Hone by now apply not_eq_sym.
    destruct (dict_get r "data" VNone) as [| | | | | | d] eqn:Hbody; try now left.
    apply lookup_union_is_Some in Hone as [Hd' | Hdata]; [| now left].
    right. right. split; [reflexivity |]. exists r. split; [reflexivity |]. split; [exact Hr |].
    right. exists d. auto.
  - right. left. exists (S j), r'. rewrite Nat.add_succ_r. auto.
  - discriminate Hi.
Qed.

(** So every key of the context has one of the three origins. *)
Lemma context_keys (results : list (gmap string PyVal)) (k : string) :
  is_Some (context_of results !! k) -> key_origin results k.
Proof.
  unfold context_of, add_helpers, key_origin, HELPERS. intros H.
  destruct (decide (k = "_error_count")) as [-> | H1].
  { left. apply (bool_decide_unpack _). exact I. }
  rewrite lookup_insert_ne in H by now apply not_eq_sym.
  destruct (decide (k = "_success_count")) as [-> | H2].
  { left. apply (bool_decide_unpack _). exact I. }
  rewrite lookup_insert_ne in H by now apply not_eq_sym.
  destruct (decide (k = "_results")) as [-> | H3].
  { left. apply (bool_decide_unpack _). exact I. }
  rewrite lookup_insert_ne in H by now apply not_eq_sym.
  destruct (collect_keys _ _ _ _ H) as [Hempty | [Hkey | [_ Hzero]]].
  - rewrite lookup_empty in Hempty. now destruct Hempty.
  - right. left. exact Hkey.
  - right. right. exact Hzero.
Qed.

Lemma has_data_succeeded (r : gmap string PyVal) : has_data r = true -> succeeded r = true.
Proof. unfold has_data. now rewrite andb_true_iff. Qed.

Lemma filter_all {A} (f : A -> bool) (l : list A) :
  Forall (fun x => f x = true) l -> List.filter f l = l.
Proof.
  induction 1 as [|x l Hx _ IH]; [reflexivity |].
  cbn [List.filter]. now rewrite Hx, IH.
Qed.

Lemma existsb_none {A} (f : A -> bool) (l : list A) :
  Forall (fun x => f x = false) l -> existsb f l = false.
Proof.
  induction 1 as [|x l Hx _ IH]; [reflexivity |].
  cbn [existsb]. now rewrite Hx, IH.
Qed.

Lemma join_items_texts (i : nat) (items : list PyVal) (texts : list string) :
  Forall2 (fun item text => item = VStr text) items texts ->
  join_items i items = Ok texts.
Proof.
  intros H. revert i. induction H as [|item text items texts -> _ IH]; intros i; [reflexivity |].
  cbn [join_items]. now rewrite IH.
Qed.

End Facts.
End RendererFacts.

(** ** The answer composed from the results *)

Module RendererClaims.
Import TemplateRenderer RenderSpec.

(** C2, as amended.  Let at least one result have succeeded, and say
    that a result has data when it succeeded with a body that is not
    empty.  When some result has data, the main template is rendered
    against a context in which: the helper keys [_results],
    [_success_count] and [_error_count] are bound; every result that has
    data is bound under [result_<i>] at its position [i]; when the
    result at position 0 has data, its body is bound under [data] and,
    if it is a dictionary, its entries are merged at top level, the
    keys the renderer sets itself apart; when the result at position 0
    has no data, nothing is bound under [data], no result without data
    is bound under its [result_<i>], and nothing is merged: every key
    of the context is a helper key or the [result_<i>] of a result that
    has data.  In every case a key of the context is a helper key, the
    [result_<i>] of a result that has data, or, when the result at
    position 0 has data, [data] or a key of its body.  When no result
    has data, the no-data template is returned as it is. *)
Theorem context_of_results `{R : Runtime}
    (template error_template no_data_template : string)
    (api_results : list (gmap string PyVal)) :
  existsb succeeded api_results = true ->
  let context := context_of api_results in
  ((exists i r, api_results !! i = Some r /\ has_data r = true) ->
   render_api_response template api_results error_template no_data_template
   = render template context (Some error_template))
  /\ (Forall (fun r => has_data r = false) api_results ->
      render_api_response template api_results error_template no_data_template
      = ret no_data_template)
  /\ context !! "_results" = Some (VList (VDict <$> api_results))
  /\ context !! "_success_count"
     = Some (VInt (Z.of_nat (length (List.filter succeeded api_results))))
  /\ context !! "_error_count"
     = Some (VInt (Z.of_nat (length (List.filter (fun r => negb (succeeded r)) api_results))))
  /\ (forall i r,
        api_results !! i = Some r -> has_data r = true ->
        context !! result_key i = Some (dict_get r "data" VNone))
  /\ (forall r0,
        api_results !! 0%nat = Some r0 -> has_data r0 = true ->
        context !! "data" = Some (dict_get r0 "data" VNone)
        /\ forall d k,
             dict_get r0 "data" VNone = VDict d ->
             k ∉ RESERVED -> (forall j, k <> result_key j) ->
             context !! k = d !! k)
  /\ (forall r0,
        api_results !! 0%nat = Some r0 -> has_data r0 = false ->
        context !! "data" = None
        /\ (forall i r,
              api_results !! i = Some r -> has_data r = false ->
              context !! result_key i = None)
        /\ (forall k,
              is_Some (context !! k) ->
              k ∈ HELPERS
              \/ exists i r,
                   api_results !! i = Some r /\ has_data r = true /\ k = result_key i))
  /\ (forall k, is_Some (context !! k) -> key_origin api_results k).
Proof.
  intros Hsome context.
  assert (Hgate : (match List.filter (fun r => negb (succeeded r)) api_results with
                   | [] => false
                   | _ => true
                   end && negb (existsb succeeded api_results)) = false).
  { rewrite Hsome. apply andb_false_r. }
  destruct (RendererFacts.context_helpers api_results) as (H1 & H2 & H3).
  split; [| split; [| split; [exact H1 | split; [exact H2 | split; [exact H3 |]]]]].
  - intros (i & r & Hi & Hr). unfold render_api_response. rewrite Hgate.
    rewrite bool_decide_eq_false_2 by exact (RendererFacts.collect_some _ _ _ Hi Hr).
    reflexivity.
  - intros Hnone. unfold render_api_response. rewrite Hgate.
    rewrite (RendererFacts.collect_nothing _ _ _ Hnone).
    now rewrite bool_decide_eq_true_2.
  - split; [| split; [| split]].
    + intros i r Hi Hr. unfold context.
      rewrite (RendererFacts.context_result_key _ _ _ Hi). now rewrite Hr.
    + intros r0 H0 Hr. destruct api_results as [|r0' rest]; [discriminate |].
      injection H0 as ->. split.
      * unfold context. rewrite RendererFacts.context_data. now rewrite Hr.
      * intros d k Hd Hk Hkey. now apply RendererFacts.context_merged.
    + intros r0 H0 Hr. split; [| split].
      * destruct api_results as [|r0' rest]; [discriminate |]. injection H0 as ->.
        unfold context. rewrite RendererFacts.context_data. now rewrite Hr.
      * destruct api_results as [|r0' rest]; [discriminate |]. injection H0 as ->.
        intros i r Hi Hr'. unfold context.
        rewrite (RendererFacts.context_result_key _ _ _ Hi). rewrite Hr'.
        unfold collect_one. rewrite Hr. apply lookup_empty.
      * intros k Hk.
        destruct (RendererFacts.context_keys _ _ Hk) as [Hh | [Hkey | (r & Hr0 & Hdata & _)]];
          [now left | now right |].
        rewrite H0 in Hr0. injection Hr0 as <-. congruence.
    + intros k. apply RendererFacts.context_keys.
Qed.

(** The example of the specification: one successful result whose body
    is [{name: Laptop, price: 100}]. *)
Lemma laptop_context :
  render_api_response (R := Sample.runtime) "Laptop" Examples.laptop "Sorry." "Nothing."
  = render "Laptop" (context_of Examples.laptop) (Some "Sorry.")
  /\ context_of Examples.laptop !! "name" = Some (VStr "Laptop")
  /\ context_of Examples.laptop !! "price" = Some (VInt 100)
  /\ context_of Examples.laptop !! "data"
     = Some (VDict (<["price" := VInt 100]> {["name" := VStr "Laptop"]}))
  /\ context_of Examples.laptop !! "result_0"
     = Some (VDict (<["price" := VInt 100]> {["name" := VStr "Laptop"]}))
  /\ context_of Examples.laptop !! "_success_count" = Some (VInt 1).
Proof.
  destruct (context_of_results (R := Sample.runtime) "Laptop" "Sorry." "Nothing."
              Examples.laptop eq_refl) as (Hrender & _ & _ & Hcount & _ & Hkey & Hzero & _).
  split.
  { apply Hrender. exists 0%nat. eexists. split; reflexivity. }
  destruct (Hzero _ eq_refl eq_refl) as [Hdata Hmerged].
  assert (Hname : "name" ∉ RESERVED) by (apply (bool_decide_unpack _); exact I).
  assert (Hprice : "price" ∉ RESERVED) by (apply (bool_decide_unpack _); exact I).
  assert (Hfree : forall k, String.get 0 k <> Some "r"%char -> forall j, k <> result_key j).
  { intros k Hk j ->. apply Hk. reflexivity. }
  split.
  { rewrite (Hmerged _ "name" eq_refl Hname); [reflexivity |].
    apply Hfree. intros H. discriminate H. }
  split.
  { rewrite (Hmerged _ "price" eq_refl Hprice); [reflexivity |].
    apply Hfree. intros H. discriminate H. }
  split; [exact Hdata |].
  split; [exact (Hkey 0%nat _ eq_refl eq_refl) | exact Hcount].
Defined.

(** C2 as stated fails when the first result that succeeded is not at
    position 0: nothing is bound under [data], the body is not merged,
    and the failed result is not bound under [result_0]. *)
Lemma first_success_not_at_zero :
  existsb succeeded Examples.failed_then_ok = true
  /\ render_api_response (R := Sample.runtime) "Found." Examples.failed_then_ok
       "Sorry." "Nothing." (Examples.start Examples.quiet)
     = (Ok "Found.",
        @mkSt Sample.runtime Examples.quiet
              [EvJinja "Found." (context_of Examples.failed_then_ok)])
  /\ context_of Examples.failed_then_ok !! "data" = None
  /\ context_of Examples.failed_then_ok !! "name" = None
  /\ context_of Examples.failed_then_ok !! "result_0" = None
  /\ context_of Examples.failed_then_ok !! "result_1" = Some (VDict {["name" := VStr "Laptop"]}).
Proof. repeat split; reflexivity. Qed.

(** C4, as amended.  When the list of results is not empty, every
    result has failed and every failure message is a text, the error
    template is rendered once, against the context that binds [error] to
    the messages joined by semicolons, and nothing else is rendered:
    neither the main template nor the no-data template is used. *)
Theorem all_failed_renders_error_template `{R : Runtime}
    (template error_template no_data_template : string)
    (api_results : list (gmap string PyVal)) (messages : list string) (st : St) :
  api_results <> [] ->
  Forall (fun r => succeeded r = false) api_results ->
  Forall2 (fun r message => dict_get r "error" (VStr "Unknown error") = VStr message)
          api_results messages ->
  let context : gmap string PyVal := {["error" := VStr (Str.join "; " messages)]} in
  render_api_response template api_results error_template no_data_template st
  = (Ok (fault_text (jinja_render error_template context)),
     mkSt (world st) (trace st ++ [EvJinja error_template context])).
Proof.
  intros Hne Hfailed Hmessages context. unfold render_api_response.
  rewrite RendererFacts.filter_all
    by (eapply Forall_impl; [exact Hfailed |]; intros r Hr; cbn beta; now rewrite Hr).
  rewrite (RendererFacts.existsb_none _ _ Hfailed).
  destruct api_results as [|r rest]; [congruence |].
  cbn [andb negb].
  unfold bind at 1, lift.
  rewrite (RendererFacts.join_items_texts 0 _ messages).
  - unfold render, bind, emit, ret. fold context.
    destruct (jinja_render error_template context); reflexivity.
  - apply Forall2_fmap_l. exact Hmessages.
Qed.

Lemma both_failed_example :
  render_api_response (R := Sample.runtime) "Found." Examples.both_failed
    "Sorry." "Nothing." (Examples.start Examples.quiet)
  = (Ok "Sorry.",
     @mkSt Sample.runtime Examples.quiet
           [EvJinja "Sorry." {["error" := VStr "boom; Request timeout after 30.0s"]}]).
Proof.
  apply (all_failed_renders_error_template (R := Sample.runtime) "Found." "Sorry." "Nothing."
           Examples.both_failed ["boom"; "Request timeout after 30.0s"]
           (Examples.start Examples.quiet)).
  - discriminate.
  - repeat constructor.
  - repeat constructor.
Defined.

(** C4 as stated fails on the empty list of results, of which every
    result has failed: the no-data template is returned and the error
    template is not rendered. *)
Lemma no_results_no_error_template :
  Forall (fun r => succeeded r = false) []
  /\ render_api_response (R := Sample.runtime) "Found." [] "Sorry." "Nothing."
       (Examples.start Examples.quiet)
     = (Ok "Nothing.", Examples.start Examples.quiet).
Proof. split; [constructor | reflexivity]. Qed.

End RendererClaims.

(** ** Parameters of an operation *)

Module MergeFacts.
Import OpenAPIParser MergeSpec.

Lemma entry_put (name : string) (p : APIParameter.t) (all_params : list APIParameter.t) :
  entry name (put_param p all_params)
  = if String.eqb (APIParameter.name p) name then Some p else entry name all_params.
Proof.
  unfold entry. induction all_params as [|q rest IH]; [reflexivity |].
  cbn [put_param]. destruct (String.eqb_spec (APIParameter.name q) (APIParameter.name p)) as [Hq | Hq].
  - cbn [List.find]. rewrite Hq. now destruct (String.eqb (APIParameter.name p) name).
  - cbn [List.find]. rewrite IH.
    destruct (String.eqb_spec (APIParameter.name q) name) as [Hn | Hn]; [| reflexivity].
    destruct (String.eqb_spec (APIParameter.name p) name); [congruence | reflexivity].
Qed.

Lemma names_put (p : APIParameter.t) (all_params : list APIParameter.t) :
  APIParameter.name <$> put_param p all_params
  = if bool_decide (APIParameter.name p ∈ APIParameter.name <$> all_params)
    then APIParameter.name <$> all_params
    else ((APIParameter.name <$> all_params) ++ [APIParameter.name p])%list.
Proof.
  induction all_params as [|q rest IH]; [reflexivity |].
  cbn [put_param fmap list_fmap].
  destruct (String.eqb_spec (APIParameter.name q) (APIParameter.name p)) as [Hq | Hq].
  - rewrite bool_decide_eq_true_2 by (rewrite Hq; apply list_elem_of_here).
    cbn [fmap list_fmap]. now rewrite Hq.
  - cbn [fmap list_fmap]. fold (APIParameter.name <$> put_param p rest). rewrite IH.
    fold (APIParameter.name <$> rest).
    destruct (bool_decide_reflect (APIParameter.name p ∈ APIParameter.name <$> rest)) as [Hin | Hin].
    + rewrite bool_decide_eq_true_2 by now apply list_elem_of_further. reflexivity.
    + rewrite bool_decide_eq_false_2; [reflexivity |].
      rewrite elem_of_cons. intros [? | ?]; congruence.
Qed.

Lemma put_unique (p : APIParameter.t) (all_params : list APIParameter.t) :
  NoDup (APIParameter.name <$> all_params) ->
  NoDup (APIParameter.name <$> put_param p all_params).
Proof.
  intros H. rewrite names_put. case_bool_decide; [exact H |].
  apply NoDup_app. split; [exact H |]. split.
  - intros x Hx Hx'. apply list_elem_of_singleton in Hx'. congruence.
  - apply NoDup_singleton.
Qed.

Lemma put_from (p q : APIParameter.t) (all_params : list APIParameter.t) :
  q ∈ put_param p all_params -> q = p \/ q ∈ all_params.
Proof.
  induction all_params as [|r rest IH]; cbn [put_param]; intros H.
  - apply list_elem_of_singleton in H. now left.
  - destruct (String.eqb (APIParameter.name r) (APIParameter.name p)).
    + apply elem_of_cons in H as [-> | H]; [now left |]. right. now apply list_elem_of_further.
    + apply elem_of_cons in H as [-> | H]; [right; apply list_elem_of_here |].
      destruct (IH H) as [-> | H']; [now left |]. right. now apply list_elem_of_further.
Qed.

Lemma entry_put_all (name : string) (params acc : list APIParameter.t) :
  entry name (put_all params acc)
  = match declared name params with
    | Some p => Some p
    | None => entry name acc
    end.
Proof.
  unfold put_all. revert acc. induction params as [|p rest IH]; intros acc; [reflexivity |].
  cbn [fold_left declared]. rewrite IH, entry_put.
  destruct (declared name rest); [reflexivity |].
  now destruct (String.eqb (APIParameter.name p) name).
Qed.

Lemma put_all_unique (params acc : list APIParameter.t) :
  NoDup (APIParameter.name <$> acc) -> NoDup (APIParameter.name <$> put_all params acc).
Proof.
  unfold put_all. revert acc. induction params as [|p rest IH]; intros acc H; [exact H |].
  cbn [fold_left]. apply IH. now apply put_unique.
Qed.

Lemma put_all_from (q : APIParameter.t) (params acc : list APIParameter.t) :
  q ∈ put_all params acc -> q ∈ params \/ q ∈ acc.
Proof.
  unfold put_all. revert acc. induction params as [|p rest IH]; intros acc H; [now right |].
  cbn [fold_left] in H. destruct (IH _ H) as [H' | H'].
  - left. now apply list_elem_of_further.
  - destruct (put_from _ _ _ H') as [-> | H'']; [left; apply list_elem_of_here | now right].
Qed.

Lemma entry_some (name : string) (p : APIParameter.t) (params : list APIParameter.t) :
  entry name params = Some p -> p ∈ params /\ APIParameter.name p = name.
Proof.
  unfold entry. intros H. apply find_some in H as [Hin Hn].
  split; [now apply list_elem_of_In | now apply String.eqb_eq].
Qed.

(** With one entry per name, an entry is found under its name. *)
Lemma entry_of_member (q : APIParameter.t) (params : list APIParameter.t) :
  NoDup (APIParameter.name <$> params) -> q ∈ params ->
  entry (APIParameter.name q) params = Some q.
Proof.
  unfold entry. induction params as [|r rest IH]; intros Hnd Hin; [now apply elem_of_nil in Hin |].
  cbn [fmap list_fmap] in Hnd. apply NoDup_cons in Hnd as [Hr Hnd].
  cbn [List.find]. apply elem_of_cons in Hin as [-> | Hin].
  - now rewrite String.eqb_refl.
  - destruct (String.eqb_spec (APIParameter.name r) (APIParameter.name q)) as [E | E].
    + exfalso. apply Hr. rewrite E. now apply list_elem_of_fmap_2.
    + now apply IH.
Qed.

(** The merge, read by name: the last operation-level declaration of
    a name, else the last path-level one. *)
Lemma entry_merge (name : string) (path_params op_params : list APIParameter.t) :
  entry name (merge_parameters path_params op_params)
  = match declared name op_params with
    | Some p => Some p
    | None => declared name path_params
    end.
Proof.
  unfold merge_parameters. fold (put_all path_params []). fold (put_all op_params (put_all path_params [])).
  rewrite !entry_put_all. cbn. now destruct (declared name path_params).
Qed.

Lemma merge_unique (path_params op_params : list APIParameter.t) :
  NoDup (APIParameter.name <$> merge_parameters path_params op_params).
Proof.
  unfold merge_parameters. fold (put_all path_params []). fold (put_all op_params (put_all path_params [])).
  apply put_all_unique, put_all_unique. constructor.
Qed.

Lemma merge_from (q : APIParameter.t) (path_params op_params : list APIParameter.t) :
  q ∈ merge_parameters path_params op_params -> q ∈ op_params \/ q ∈ path_params.
Proof.
  unfold merge_parameters. fold (put_all path_params []). fold (put_all op_params (put_all path_params [])).
  intros H. apply put_all_from in H as [H | H]; [now left |].
  apply put_all_from in H as [H | H]; [now right | now apply elem_of_nil in H].
Qed.

End MergeFacts.

Module ParserClaims.
Import OpenAPIParser MergeSpec.

(** A [bind] that came out [Ok] went through its first step. *)
Lemma bind_ok {S A B} (m : SM S A) (k : A -> SM S B) (st st' : S) (b : B) :
  bind m k st = (Ok b, st') ->
  exists a st1, m st = (Ok a, st1) /\ k a st1 = (Ok b, st').
Proof.
  unfold bind. destruct (m st) as [[a | e] st1]; [eauto | discriminate].
Qed.

Lemma lift_ok {S A} (r : Res A) (st st' : S) (a : A) :
  lift r st = (Ok a, st') -> r = Ok a /\ st' = st.
Proof. unfold lift. intros H. injection H as -> ->. auto. Qed.

(** C7, as amended.  For every operation that parses, the parameters
    of the endpoint are the merge of the path-level and the
    operation-level declarations, with one entry per name: for a name
    the operation declares, the entry is the last operation-level
    declaration of that name and no other entry has the name, so no
    path-level declaration of it remains; for a name the operation
    does not declare, the last path-level declaration of it is kept;
    and every entry comes from one of the two lists. *)
Theorem merged_parameters_by_name `{R : Runtime}
    (path : string) (method : HTTPMethod) (operation : PyVal)
    (path_params : list APIParameter.t) (components : PyVal)
    (warnings warnings' : list string) (endpoint : APIEndpoint.t) :
  _parse_operation path method operation path_params components warnings
  = (Ok endpoint, warnings') ->
  exists raw op_params warnings1,
    py_get operation "parameters" (VList []) = Ok raw
    /\ _parse_parameters raw components warnings = (Ok op_params, warnings1)
    /\ APIEndpoint.parameters endpoint = merge_parameters path_params op_params
    /\ NoDup (APIParameter.name <$> APIEndpoint.parameters endpoint)
    /\ (forall name p,
          declared name op_params = Some p ->
          p ∈ APIEndpoint.parameters endpoint
          /\ forall q, q ∈ APIEndpoint.parameters endpoint -> APIParameter.name q = name -> q = p)
    /\ (forall name q,
          declared name op_params = None -> declared name path_params = Some q ->
          q ∈ APIEndpoint.parameters endpoint)
    /\ (forall q,
          q ∈ APIEndpoint.parameters endpoint -> q ∈ op_params \/ q ∈ path_params).
Proof.
  intros H. unfold _parse_operation in H.
  apply bind_ok in H as (raw & w0 & Hraw & H). apply lift_ok in Hraw as [Hraw ->].
  apply bind_ok in H as (op_params & w1 & Hop & H).
  exists raw, op_params, w1. split; [exact Hraw |]. split; [exact Hop |].
  assert (Hparams : APIEndpoint.parameters endpoint = merge_parameters path_params op_params).
  { repeat (apply bind_ok in H as (? & ? & _ & H)).
    unfold ret in H. injection H as <- _. reflexivity. }
  rewrite Hparams. split; [reflexivity |].
  split; [apply MergeFacts.merge_unique |].
  split; [| split].
  - intros name p Hp.
    assert (He : entry name (merge_parameters path_params op_params) = Some p)
      by now rewrite MergeFacts.entry_merge, Hp.
    split; [now apply MergeFacts.entry_some in He |].
    intros q Hq Hn.
    pose proof (MergeFacts.entry_of_member q _ (MergeFacts.merge_unique path_params op_params) Hq) as Hq'.
    rewrite Hn in Hq'. congruence.
  - intros name q Hnone Hq.
    assert (He : entry name (merge_parameters path_params op_params) = Some q)
      by now rewrite MergeFacts.entry_merge, Hnone.
    now apply MergeFacts.entry_some in He.
  - intros q. apply MergeFacts.merge_from.
Qed.


Lemma redeclared_id_example :
  exists endpoint warnings',
    _parse_operation (R := Sample.runtime) "/items/{id}" GET Examples.redeclaring_operation
                     [Examples.id_in_path; Examples.limit_in_query] (VDict ∅) []
    = (Ok endpoint, warnings')
    /\ Examples.id_as_integer ∈ APIEndpoint.parameters endpoint
    /\ (forall q, q ∈ APIEndpoint.parameters endpoint -> APIParameter.name q = "id" ->
                  q = Examples.id_as_integer)
    /\ Examples.limit_in_query ∈ APIEndpoint.parameters endpoint.
Proof.
  destruct (_parse_operation (R := Sample.runtime) "/items/{id}" GET Examples.redeclaring_operation
              [Examples.id_in_path; Examples.limit_in_query] (VDict ∅) []) as [[endpoint | e] warnings'] eqn:Hrun;
    [| discriminate Hrun].
  exists endpoint, warnings'. split; [reflexivity |].
  destruct (merged_parameters_by_name (R := Sample.runtime) _ _ _ _ _ _ _ _ Hrun)
    as (raw & op_params & warnings1 & Hraw & Hop & _ & _ & Hlast & Hkept & _).
  injection Hraw as <-. injection Hop as <- _.
  destruct (Hlast "id" Examples.id_as_integer eq_refl) as [Hin Honly].
  split; [exact Hin |]. split; [exact Honly |].
  exact (Hkept "limit" Examples.limit_in_query eq_refl eq_refl).
Defined.

(** C7 as stated fails when the operation declares one name twice, as
    OpenAPI allows for different locations: of the two operation-level
    declarations of [id] only the last is in the merged list. *)
Lemma only_last_declaration_kept :
  exists endpoint warnings',
    _parse_parameters (R := Sample.runtime)
      (VList [VDict (<["in" := VStr "query"]> {["name" := VStr "id"]});
              VDict (<["in" := VStr "header"]> {["name" := VStr "id"]})]) (VDict ∅) []
    = (Ok [Examples.id_in_query; Examples.id_in_header], [])
    /\ _parse_operation (R := Sample.runtime) "/items/{id}" GET Examples.twofold_operation
                        [Examples.id_in_path] (VDict ∅) []
       = (Ok endpoint, warnings')
    /\ APIParameter.name Examples.id_in_query = APIParameter.name Examples.id_in_path
    /\ APIEndpoint.parameters endpoint = [Examples.id_in_header]
    /\ Examples.id_in_query ∉ APIEndpoint.parameters endpoint.
Proof.
  exists (APIEndpoint.mk "/items/{id}" GET "get_items" EmptyString EmptyString []
                         [Examples.id_in_header] None [] None None),
         ["Missing operationId for GET /items/{id}, generated: get_items"].
  split; [reflexivity |]. split; [reflexivity |]. split; [reflexivity |].
  split; [reflexivity |].
  cbn [APIEndpoint.parameters]. rewrite not_elem_of_cons. split; [| apply not_elem_of_nil].
  intros H. discriminate H.
Qed.

End ParserClaims.

(** ** The checks of [parse] *)

Module ParseClaims.
Import OpenAPIParser.





End ParseClaims.

(** ** The gate of the agent *)

Module AgentClaims.
Import QAAgent AgentSpec.

(** For a confidence that is a number: below the threshold or not below. *)
Lemma below_threshold (c : spec_float) :
  c <> S754_nan ->
  SFltb c CONFIDENCE_THRESHOLD = negb (SFleb CONFIDENCE_THRESHOLD c).
Proof.
  intros Hc. unfold SFltb, SFleb, CONFIDENCE_THRESHOLD.
  destruct c as [s | s | | s m e]; try congruence; cbn [SFcompare].
  - reflexivity.
  - now destruct s.
  - destruct s; [reflexivity |].
    rewrite (Z.compare_antisym e (-54)).
    destruct (e ?= -54)%Z eqn:E; cbn [CompOpp]; try reflexivity.
    pose proof (Pos.compare_cont_antisym m 5404319552844595 Eq) as Ha.
    change Pos.compare_cont with PosDef.Pos.compare_cont in Ha.
    cbn [CompOpp] in Ha. rewrite <- Ha.
    now destruct (PosDef.Pos.compare_cont Eq m 5404319552844595).
Qed.

Lemma nothing_missing (scenario : Scenario.t) (entities : list ExtractedEntity.t) :
  _check_missing_entities scenario entities = []
  <-> Forall (fun required => required ∈ ExtractedEntity.name <$> entities)
             (Scenario.required_entities scenario).
Proof.
  unfold _check_missing_entities.
  induction (Scenario.required_entities scenario) as [|required rest IH].
  - split; [constructor | reflexivity].
  - cbn [List.filter]. case_bool_decide as Hin; cbn [negb].
    + rewrite IH. split; [now constructor | now inversion 1].
    + split; [discriminate | inversion 1; contradiction].
Qed.

(** C8, as amended.  Let the collaborator return a match result.
    [answer] goes on to the engine exactly when there is a match, its
    confidence is not below 0.3 and every required entity of its
    scenario is among the names of the extracted entities.  Otherwise it
    returns one of the two canned answers with [api_calls_made] and
    [raw_api_responses] empty, and the only call it has made is the one
    to the collaborator: the engine has not been called and no request
    has been sent.  For a confidence that is a number, not below 0.3 is
    at least 0.3, and the conditions are those of the specification; a
    confidence that is not a number is let through. *)
Theorem answer_gate `{R : Runtime} (self : QAAgent.t) (question : string) (st : St)
    (match_result : option ScenarioMatch.t) (w : World) :
  ai_match_scenario question (AgentConfig.scenarios (config self)) (world st)
  = (Ok match_result, w) ->
  let matched := mkSt w (trace st ++ [EvMatch question]) in
  (admitted match_result ->
   exists found,
     match_result = Some found
     /\ answer self question st
        = invoke_and_answer self question (ScenarioMatch.scenario found)
                            (ScenarioMatch.extracted_entities found) matched)
  /\ (~ admitted match_result ->
      exists text scenario_used,
        answer self question st = (Ok (AgentResponse.mk text scenario_used [] []), matched)
        /\ ((text = NOT_UNDERSTOOD /\ scenario_used = None)
            \/ exists found missing,
                 match_result = Some found
                 /\ missing = _check_missing_entities (ScenarioMatch.scenario found)
                                                      (ScenarioMatch.extracted_entities found)
                 /\ missing <> []
                 /\ text = "Vui lòng cung cấp thêm thông tin: " +:+ Str.join ", " missing
                 /\ scenario_used = Some (Scenario.name (ScenarioMatch.scenario found))))
  /\ ((forall found, match_result = Some found -> ScenarioMatch.confidence found <> S754_nan) ->
      (admitted match_result <-> proceeds match_result))
  /\ (forall found,
        match_result = Some found -> ScenarioMatch.confidence found = S754_nan ->
        ~ proceeds match_result
        /\ (admitted match_result
            <-> _check_missing_entities (ScenarioMatch.scenario found)
                                        (ScenarioMatch.extracted_entities found) = [])).
Proof.
  intros Hmatch matched.
  assert (Hanswer : answer self question st
                    = match match_result with
                      | None => (Ok (AgentResponse.mk NOT_UNDERSTOOD None [] []), matched)
                      | Some found =>
                          if SFltb (ScenarioMatch.confidence found) CONFIDENCE_THRESHOLD
                          then (Ok (AgentResponse.mk NOT_UNDERSTOOD None [] []), matched)
                          else
                            match _check_missing_entities (ScenarioMatch.scenario found)
                                    (ScenarioMatch.extracted_entities found) with
                            | missing :: more =>
                                (Ok (AgentResponse.mk
                                       ("Vui lòng cung cấp thêm thông tin: "
                                          +:+ Str.join ", " (missing :: more))
                                       (Some (Scenario.name (ScenarioMatch.scenario found)))
                                       [] []), matched)
                            | [] =>
                                invoke_and_answer self question (ScenarioMatch.scenario found)
                                  (ScenarioMatch.extracted_entities found) matched
                            end
                      end).
  { unfold answer, match_scenario, bind, emit. cbn [world trace]. rewrite Hmatch.
    destruct match_result as [found |]; [| reflexivity].
    destruct (SFltb _ _); [reflexivity |].
    now destruct (_check_missing_entities _ _). }
  rewrite Hanswer. clear Hanswer. split; [| split; [| split]].
  - intros (found & -> & Hconf & Hall). exists found. split; [reflexivity |].
    rewrite Hconf. apply nothing_missing in Hall. now rewrite Hall.
  - intros Hnot. destruct match_result as [found |].
    + destruct (SFltb (ScenarioMatch.confidence found) CONFIDENCE_THRESHOLD) eqn:Hconf;
        [eauto 6 |].
      destruct (_check_missing_entities (ScenarioMatch.scenario found)
                  (ScenarioMatch.extracted_entities found)) as [|missing more] eqn:Hmissing.
      * exfalso. apply Hnot. exists found. split; [reflexivity |]. split; [exact Hconf |].
        now apply nothing_missing.
      * do 2 eexists. split; [reflexivity |]. right. exists found, (missing :: more).
        rewrite Hmissing. repeat split; congruence.
    + eauto 6.
  - intros Hnumber. split; intros (found & -> & Hconf & Hall); exists found;
      (split; [reflexivity |]); (split; [| exact Hall]);
      rewrite (below_threshold _ (Hnumber _ eq_refl)) in *.
    + now apply negb_false_iff in Hconf.
    + now rewrite Hconf.
  - intros found -> Hnan. split.
    + intros (found' & [= <-] & Hconf & _). rewrite Hnan in Hconf. discriminate Hconf.
    + rewrite nothing_missing. split.
      * intros (found' & [= <-] & _ & Hall). exact Hall.
      * intros Hall. exists found. rewrite Hnan. auto.
Qed.

Lemma gate_example :
  (exists text scenario_used,
     answer (R := Sample.runtime) Examples.agent "How much is P1?" (Examples.start Examples.unsure)
     = (Ok (AgentResponse.mk text scenario_used [] []),
        @mkSt Sample.runtime Examples.unsure [EvMatch "How much is P1?"]))
  /\ (exists calls results st',
        answer (R := Sample.runtime) Examples.agent "How much is P1?" (Examples.start Examples.sure)
        = (Ok (AgentResponse.mk "Found." (Some "product") calls results), st')
        /\ length results = 1%nat
        /\ Sample.http_script (world st') = []).
Proof.
  split.
  - destruct (answer_gate (R := Sample.runtime) Examples.agent "How much is P1?" (Examples.start Examples.unsure)
                (Some (ScenarioMatch.mk Examples.product_scenario Examples.one_fifth [Examples.product_entity])) Examples.unsure
                eq_refl) as (_ & Hcanned & _).
    destruct Hcanned as (text & scenario_used & Hanswer & _).
    { intros (found & [= <-] & Hconf & _). discriminate Hconf. }
    exists text, scenario_used. exact Hanswer.
  - destruct (answer_gate (R := Sample.runtime) Examples.agent "How much is P1?" (Examples.start Examples.sure)
                (Some (ScenarioMatch.mk Examples.product_scenario Examples.nine_tenths [Examples.product_entity])) Examples.sure
                eq_refl) as (Hgo & _).
    destruct Hgo as (found & [= <-] & Hanswer).
    { eexists. split; [reflexivity |]. split; [reflexivity |].
      repeat constructor. }
    do 3 eexists. rewrite Hanswer. split; [reflexivity |]. split; reflexivity.
Defined.

(** C8 as stated fails on a confidence that is not a number: it is not
    at least 0.3, so the conditions of the specification do not hold,
    and yet the engine is called and the request is sent, because the
    test of the code is that the confidence is below 0.3. *)
Lemma nan_confidence_reaches_engine :
  ~ proceeds (Some (ScenarioMatch.mk Examples.product_scenario S754_nan
                                     [Examples.product_entity]))
  /\ exists calls results st',
       answer (R := Sample.runtime) Examples.agent "How much is P1?"
              (Examples.start Examples.undecided)
       = (Ok (AgentResponse.mk "Found." (Some "product") calls results), st')
       /\ length calls = 1%nat
       /\ length results = 1%nat
       /\ Sample.http_script (world st') = []
       /\ EvEngine Examples.product_scenario [Examples.product_entity] ∈ trace st'
       /\ (exists req, EvHttp req ∈ trace st').
Proof.
  split.
  - intros (found & [= <-] & Hconf & _). discriminate Hconf.
  - assert (E : answer (R := Sample.runtime) Examples.agent "How much is P1?"
                        (Examples.start Examples.undecided)
                 = invoke_and_answer (R := Sample.runtime) Examples.agent "How much is P1?"
                     Examples.product_scenario [Examples.product_entity]
                     (@mkSt Sample.runtime Examples.undecided [EvMatch "How much is P1?"]))
      by reflexivity.
    do 3 eexists. rewrite E. split; [reflexivity |]. split; [reflexivity |].
    split; [reflexivity |]. split; [reflexivity |]. split.
    + apply list_elem_of_further, list_elem_of_here.
    + eexists. apply list_elem_of_further, list_elem_of_further, list_elem_of_here.
Qed.

End AgentClaims.

(** ** What the executor sends *)

Module ExecutorFacts.
Import APIExecutor RequestSpec.

Section Facts.
Context `{R : Runtime}.

(** Apart from [int], [float] and the date reformat, every transform
    returns. *)
Lemma apply_transform_returns (value : PyVal) (transform : string) :
  transform <> "int" -> transform <> "float" ->
  Str.startswith "date_format:" transform = false ->
  exists value', _apply_transform value transform = Ok value'.
Proof.
  intros Hint Hfloat Hdate. unfold _apply_transform.
  repeat match goal with
         | |- context [String.eqb ?a ?b] =>
             destruct (String.eqb_spec a b); [try congruence; eauto |]
         end.
  rewrite Hdate. eauto.
Qed.

Lemma transformed_returns (value : PyVal) (transform : option string) :
  fallible transform = false ->
  exists value', transformed value transform = Ok value'.
Proof.
  unfold fallible, transformed. intros H.
  destruct transform as [s |]; cbn [truthy_opt]; [| eauto].
  apply orb_false_elim in H as [H Hdate].
  apply orb_false_elim in H as [H1 H2].
  apply bool_decide_eq_false in H1, H2.
  destruct (negb _); [| eauto].
  cbv [default from_option id].
  now apply apply_transform_returns.
Qed.

(** Once a round has raised, the loop is over. *)
Lemma res_fold_raise {A B} (f : B -> A -> Res B) (l : list A) (e : PyExc) :
  res_fold f l (Raise e) = Raise e.
Proof. induction l as [|x l IH]; [reflexivity | exact IH]. Qed.

(** A loop whose rounds all return, returns. *)
Lemma res_fold_returns {A B} (f : B -> A -> Res B) (l : list A) (b : B) :
  Forall (fun x => forall acc, exists acc', f acc x = Ok acc') l ->
  exists b', res_fold f l (Ok b) = Ok b'.
Proof.
  intros H. revert b. induction H as [|x l Hx _ IH]; intros b; [eauto |].
  cbn [res_fold res_bind]. destruct (Hx b) as [b' ->]. apply IH.
Qed.

(** An invariant of the accumulator that every round keeps holds of the
    result. *)
Lemma res_fold_invariant {A B} (P : B -> Prop) (f : B -> A -> Res B) (l : list A) (b b' : B) :
  (forall acc x acc', x ∈ l -> P acc -> f acc x = Ok acc' -> P acc') ->
  P b -> res_fold f l (Ok b) = Ok b' -> P b'.
Proof.
  revert b. induction l as [|x l IH]; intros b Hstep Hb Hrun.
  - injection Hrun as <-. exact Hb.
  - cbn [res_fold res_bind] in Hrun. destruct (f b x) as [b1 | e] eqn:E.
    + apply (IH b1); [| eapply Hstep; [left | exact Hb | exact E] | exact Hrun].
      intros acc y acc' Hy. apply Hstep. now right.
    + rewrite res_fold_raise in Hrun. discriminate Hrun.
Qed.

Lemma fold_left_invariant {A B} (P : B -> Prop) (f : B -> A -> B) (l : list A) (b : B) :
  (forall acc x, x ∈ l -> P acc -> P (f acc x)) -> P b -> P (fold_left f l b).
Proof.
  revert b. induction l as [|x l IH]; intros b Hstep Hb; [exact Hb |].
  cbn [fold_left]. apply IH.
  - intros acc y Hy. apply Hstep. now right.
  - apply Hstep; [left | exact Hb].
Qed.

(** The inner loop over the declared parameters finds a declared name. *)
Lemma is_param_declared (name : string) (loc : ParameterLocation) (ep : APIEndpoint.t) :
  existsb (is_param name loc) (APIEndpoint.parameters ep) = true -> name ∈ names_at loc ep.
Proof.
  intros H. apply existsb_exists in H as (p & Hp & Hq).
  unfold is_param in Hq. apply andb_prop in Hq as [Hn Hl].
  apply bool_decide_eq_true in Hn, Hl. subst name. unfold names_at.
  apply list_elem_of_fmap. exists p. split; [reflexivity |].
  apply list_elem_of_filter. split; [exact Hl |]. now apply list_elem_of_In.
Qed.

(** A round of the loop over the parameter mappings adds the target name
    of a selected mapping at most. *)
Lemma add_mapped_keys (P : string -> Prop) (selected : bool) (entity_map params params' : gmap string PyVal)
    (mapping : ParameterMapping.t) :
  (selected = true -> P (ParameterMapping.api_parameter mapping)) ->
  (forall k, is_Some (params !! k) -> P k) ->
  add_mapped selected entity_map params mapping = Ok params' ->
  forall k, is_Some (params' !! k) -> P k.
Proof.
  intros Hsel Hparams Hrun k Hk. unfold add_mapped in Hrun.
  destruct selected; [| injection Hrun as <-; auto].
  destruct (entity_map !! _) as [value |]; [| injection Hrun as <-; auto].
  destruct (transformed value _) as [value' | e] eqn:E.
  - assert (Hins : <[ParameterMapping.api_parameter mapping := value']> params = params'
                   \/ params = params').
    { destruct value; cbn [res_bind] in Hrun; injection Hrun as <-; auto. }
    destruct Hins as [<- | <-]; [| auto].
    destruct (decide (ParameterMapping.api_parameter mapping = k)) as [<- | Hne]; [auto |].
    rewrite lookup_insert_ne in Hk by exact Hne. auto.
  - destruct value; cbn [res_bind] in Hrun; try discriminate Hrun; injection Hrun as <-; auto.
Qed.

Lemma substitute_mapping_returns (entity_map : gmap string PyVal) (url_path : string)
    (mapping : ParameterMapping.t) :
  fallible (ParameterMapping.transform mapping) = false ->
  exists url_path', substitute_mapping entity_map url_path mapping = Ok url_path'.
Proof.
  intros H. unfold substitute_mapping. destruct (Str.contains _ _); [| eauto].
  destruct (transformed_returns
              (dict_get entity_map (ParameterMapping.entity_name mapping) (VStr EmptyString))
              _ H) as [value ->].
  cbn [res_bind]. eauto.
Qed.

Lemma add_mapped_returns (selected : bool) (entity_map params : gmap string PyVal)
    (mapping : ParameterMapping.t) :
  fallible (ParameterMapping.transform mapping) = false ->
  exists params', add_mapped selected entity_map params mapping = Ok params'.
Proof.
  intros H. unfold add_mapped. destruct selected; [| eauto].
  destruct (entity_map !! _) as [value |]; [| eauto].
  destruct (transformed_returns value _ H) as [value' E].
  destruct value; try (rewrite E; cbn [res_bind]); eauto.
Qed.

(** X1.  The transforms [int], [float] and [date_format:...] are the
    only ones that can raise: when no parameter mapping declares one of
    them, the path of the address is built and [_build_query_params]
    returns, whatever the entities and whether or not the endpoint is
    known; [_build_url] then returns or raises what [urljoin] does on
    the base address and that path. *)
Theorem address_and_query_return (self : t) (endpoint : option APIEndpoint.t) (path : string)
    (api_mapping : APIMapping.t) (entity_map : gmap string PyVal) :
  Forall (fun mapping => fallible (ParameterMapping.transform mapping) = false)
         (APIMapping.parameter_mappings api_mapping) ->
  (exists url_path,
     url_path_of path api_mapping entity_map = Ok url_path
     /\ _build_url self path api_mapping entity_map
        = urljoin (base_url self +:+ "/") (Str.lstrip "/" url_path))
  /\ (exists params, _build_query_params endpoint api_mapping entity_map = Ok params).
Proof.
  intros H. split.
  - unfold _build_url, url_path_of.
    destruct (res_fold_returns (substitute_mapping entity_map)
                (APIMapping.parameter_mappings api_mapping) path) as [url_path ->].
    + eapply Forall_impl; [exact H |]. intros mapping Hm acc.
      now apply substitute_mapping_returns.
    + cbn [res_bind]. eauto.
  - unfold _build_query_params. destruct endpoint as [ep |]; [| cbn [res_bind]; eauto].
    destruct (res_fold_returns
                (fun params mapping =>
                   add_mapped (bool_decide (ParameterMapping.api_parameter mapping ∈ names_at QUERY ep))
                              entity_map params mapping)
                (APIMapping.parameter_mappings api_mapping) ∅) as [params ->].
    + eapply Forall_impl; [exact H |]. intros mapping Hm acc.
      now apply add_mapped_returns.
    + cbn [res_bind]. eauto.
Qed.

(** X2.  With a known endpoint, every key of the query parameters
    [_build_query_params] returns is the name of a parameter the
    endpoint declares in the query: neither a parameter mapping nor a
    static parameter can add another name. *)
Theorem query_keys_declared (ep : APIEndpoint.t) (api_mapping : APIMapping.t)
    (entity_map params : gmap string PyVal) (key : string) :
  _build_query_params (Some ep) api_mapping entity_map = Ok params ->
  is_Some (params !! key) ->
  key ∈ names_at QUERY ep.
Proof.
  unfold _build_query_params. intros Hrun.
  destruct (res_fold _ _ _) as [mapped | e] eqn:E; [| discriminate Hrun].
  cbn [res_bind] in Hrun. injection Hrun as <-. revert key.
  apply (fold_left_invariant (fun params => forall key, is_Some (params !! key) -> key ∈ names_at QUERY ep)).
  - intros acc item _ Hacc key. unfold add_static_query.
    destruct (Str.has_char _ _); [apply Hacc |].
    destruct (existsb _ _) eqn:Ed; [| apply Hacc].
    destruct (decide (item.1 = key)) as [<- | Hne].
    + intros _. now apply is_param_declared.
    + rewrite lookup_insert_ne by exact Hne. apply Hacc.
  - revert E.
    apply (res_fold_invariant
             (fun params => forall key, is_Some (params !! key) -> key ∈ names_at QUERY ep)).
    + intros acc mapping acc' _ Hacc Hstep. eapply add_mapped_keys; [| exact Hacc | exact Hstep].
      apply bool_decide_eq_true.
    + intros key [v Hv]. rewrite lookup_empty in Hv. discriminate Hv.
Qed.

(** X3.  When [_build_body] returns a body, the body is not empty,
    the method is not [GET] or [DELETE], the endpoint is known and
    declares a request body, and every key of the body is a property of
    the JSON schema that request body declares. *)
Theorem body_keys_declared (endpoint : option APIEndpoint.t) (api_mapping : APIMapping.t)
    (entity_map body : gmap string PyVal) :
  _build_body endpoint api_mapping entity_map = Ok (Some body) ->
  body <> ∅
  /\ APIMapping.method api_mapping <> GET
  /\ APIMapping.method api_mapping <> DELETE
  /\ exists ep request_body properties,
       endpoint = Some ep
       /\ APIEndpoint.request_body ep = Some request_body
       /\ body_properties request_body = Ok properties
       /\ forall key, is_Some (body !! key) -> py_in key properties = Ok true.
Proof.
  unfold _build_body. intros Hrun.
  assert (Hmethod : APIMapping.method api_mapping <> GET /\ APIMapping.method api_mapping <> DELETE).
  { destruct (APIMapping.method api_mapping);
      try discriminate Hrun; split; intros H; discriminate H. }
  destruct Hmethod as [Hget Hdelete].
  assert (Hrest :
    match endpoint with
    | None => Ok None
    | Some ep =>
        match APIEndpoint.request_body ep with
        | None => Ok None
        | Some request_body =>
            if bool_decide (request_body = ∅) then Ok None
            else
              (properties <- body_properties request_body ;;
               body <- res_fold (fun body mapping =>
                                   present <- py_in (ParameterMapping.api_parameter mapping) properties ;;
                                   add_mapped present entity_map body mapping)
                                (APIMapping.parameter_mappings api_mapping) (Ok ∅) ;;
               body <- res_fold (add_static_body properties)
                                (APIMapping.static_params api_mapping) (Ok body) ;;
               Ok (if bool_decide (body = ∅) then None else Some body))%res
        end
    end = Ok (Some body)).
  { destruct (APIMapping.method api_mapping); try discriminate Hrun;
      (destruct endpoint as [ep |]; [| exact Hrun]);
      (destruct (APIEndpoint.request_body ep) as [request_body |]; [| exact Hrun]);
      (destruct (bool_decide (request_body = ∅)); [exact Hrun |]);
      unfold body_properties;
      (destruct (py_get (dict_get request_body "content" (VDict ∅)) "application/json" (VDict ∅))
         as [json_content | e]; cbn [res_bind] in *; [| exact Hrun]);
      (destruct (py_get json_content "schema" (VDict ∅)) as [schema | e];
         cbn [res_bind] in *; [| exact Hrun]);
      (destruct (py_get schema "properties" (VDict ∅)) as [properties | e];
         cbn [res_bind] in *; exact Hrun). }
  clear Hrun.
  destruct endpoint as [ep |]; [| discriminate Hrest].
  destruct (APIEndpoint.request_body ep) as [request_body |] eqn:Hbody; [| discriminate Hrest].
  destruct (bool_decide (request_body = ∅)); [discriminate Hrest |].
  destruct (body_properties request_body) as [properties | e] eqn:Hprops; [| discriminate Hrest].
  cbn [res_bind] in Hrest.
  destruct (res_fold _ _ (Ok ∅)) as [mapped | e] eqn:Hmapped; [| discriminate Hrest].
  cbn [res_bind] in Hrest.
  destruct (res_fold _ _ (Ok mapped)) as [all | e] eqn:Hall; [| discriminate Hrest].
  cbn [res_bind] in Hrest.
  case_bool_decide as Hne; [discriminate Hrest |]. injection Hrest as <-.
  split; [exact Hne |]. split; [exact Hget |]. split; [exact Hdelete |].
  exists ep, request_body, properties.
  split; [reflexivity |]. split; [exact Hbody |]. split; [exact Hprops |].
  revert Hall.
  apply (res_fold_invariant (fun body => forall key, is_Some (body !! key) -> py_in key properties = Ok true)).
  - intros acc item acc' _ Hacc Hstep key. unfold add_static_body in Hstep.
    destruct (py_in item.1 properties) as [[|] | e] eqn:Hin;
      cbn [res_bind] in Hstep; [| | discriminate Hstep]; injection Hstep as <-; [| apply Hacc].
    destruct (decide (item.1 = key)) as [<- | Hk]; [intros _; exact Hin |].
    rewrite lookup_insert_ne by exact Hk. apply Hacc.
  - revert Hmapped.
    apply (res_fold_invariant (fun body => forall key, is_Some (body !! key) -> py_in key properties = Ok true)).
    + intros acc mapping acc' _ Hacc Hstep.
      destruct (py_in (ParameterMapping.api_parameter mapping) properties) as [present | e] eqn:Hin;
        cbn [res_bind] in Hstep; [| discriminate Hstep].
      eapply add_mapped_keys; [| exact Hacc | exact Hstep].
      intros ->. exact Hin.
    + intros key [v Hv]. rewrite lookup_empty in Hv. discriminate Hv.
Qed.

Lemma auth_headers_present (self : t) (headers : gmap string string) (key : string) :
  is_Some (headers !! key) -> is_Some (auth_headers self headers !! key).
Proof.
  intros H. unfold auth_headers.
  repeat match goal with
         | |- context [if ?c then _ else _] => destruct c
         end; try exact H; apply lookup_insert_is_Some'; now right.
Qed.

(** X4.  The headers of every request hold [Content-Type] and
    [Accept], whatever the credentials, the endpoint and the
    entities. *)
Theorem json_headers_present (self : t) (endpoint : option APIEndpoint.t)
    (api_mapping : APIMapping.t) (entity_map : gmap string PyVal) :
  is_Some (_build_headers self endpoint api_mapping entity_map !! "Content-Type")
  /\ is_Some (_build_headers self endpoint api_mapping entity_map !! "Accept").
Proof.
  unfold _build_headers.
  set (P := fun headers : gmap string string =>
              is_Some (headers !! "Content-Type") /\ is_Some (headers !! "Accept")).
  assert (Hstart : P (auth_headers self
                        (<["Accept" := "application/json"]> (<["Content-Type" := "application/json"]> ∅)))).
  { split; apply auth_headers_present.
    - rewrite lookup_insert_ne by (intros H; discriminate H). rewrite lookup_insert_eq. eauto.
    - rewrite lookup_insert_eq. eauto. }
  destruct endpoint as [ep |]; [| exact Hstart].
  apply (fold_left_invariant P); [| exact Hstart].
  intros acc mapping _ [H1 H2]. unfold add_header.
  destruct (bool_decide _); [| now split].
  destruct (entity_map !! _) as [[] |]; try (now split);
    split; apply lookup_insert_is_Some'; now right.
Qed.

(** With an API key placed elsewhere, the credentials add no header. *)
Lemma auth_headers_outside_header (self : t) (location : string) (headers : gmap string string) :
  auth_config self !! "type" = Some "api_key" ->
  auth_config self !! "key_location" = Some location ->
  location <> "header" ->
  auth_headers self headers = headers.
Proof.
  intros Htype Hloc Hne. unfold auth_headers. rewrite Htype, Hloc. cbn [default from_option id].
  destruct (bool_decide _); [reflexivity |].
  destruct (String.eqb_spec location "header") as [-> | _]; [now destruct Hne |].
  reflexivity.
Qed.

(** X5.  An API key whose configured location is not the header is
    never sent: the executor behaves on every call as the same executor
    with no credentials at all. *)
Theorem api_key_outside_header_not_sent (self : t) (location : string)
    (api_mapping : APIMapping.t) (entity_map : gmap string PyVal) (st : St) :
  auth_config self !! "type" = Some "api_key" ->
  auth_config self !! "key_location" = Some location ->
  location <> "header" ->
  _execute_api_call self api_mapping entity_map st
  = _execute_api_call (without_credentials self) api_mapping entity_map st.
Proof.
  intros Htype Hloc Hne.
  unfold _execute_api_call, _build_headers.
  rewrite (auth_headers_outside_header self location _ Htype Hloc Hne).
  reflexivity.
Qed.

(** [_execute_api_call] builds the request, sends it once and reads the
    answer; when the request cannot be built nothing is sent. *)
Lemma execute_api_call_request (self : t) (api_mapping : APIMapping.t)
    (entity_map : gmap string PyVal) (st : St) :
  _execute_api_call self api_mapping entity_map st
  = match request_of self api_mapping entity_map with
    | Ok req =>
        (read_outcome self (fst (http_request req (world st))),
         mkSt (snd (http_request req (world st))) (trace st ++ [EvHttp req]))
    | Raise e => (Raise e, st)
    end.
Proof.
  unfold _execute_api_call, request_of, bind, lift.
  destruct (_build_url _ _ _ _) as [url | e]; [| reflexivity]. cbn [res_bind].
  destruct (_build_query_params _ _ _) as [query_params | e]; [| reflexivity]. cbn [res_bind].
  destruct (_build_body _ _ _) as [body | e]; [| reflexivity]. cbn [res_bind emit world trace].
  destruct (http_request _ _) as [o w]. reflexivity.
Qed.

Lemma requests_of_cons (self : t) (m : APIMapping.t) (ms : list APIMapping.t)
    (entity_map : gmap string PyVal) :
  requests_of self (m :: ms) entity_map
  = match request_of self m entity_map with
    | Ok req => req :: requests_of self ms entity_map
    | Raise _ => requests_of self ms entity_map
    end.
Proof.
  unfold requests_of. cbn [omap list_omap].
  destruct (request_of self m entity_map); reflexivity.
Qed.

Lemma requests_of_length (self : t) (mappings : list APIMapping.t)
    (entity_map : gmap string PyVal) :
  length (requests_of self mappings entity_map) <= length mappings.
Proof.
  induction mappings as [|m ms IH]; [reflexivity |].
  rewrite requests_of_cons. destruct (request_of self m entity_map); cbn [length]; lia.
Qed.

Lemma execute_mappings_requests (self : t) (mappings : list APIMapping.t)
    (entity_map : gmap string PyVal) (st : St) :
  snd (execute_mappings (_execute_api_call self) mappings entity_map st)
  = mkSt (served (requests_of self mappings entity_map) (world st))
         (trace st ++ (EvHttp <$> requests_of self mappings entity_map)).
Proof.
  revert st. induction mappings as [|m ms IH]; intros st.
  - cbn. rewrite app_nil_r. now destruct st.
  - cbn [execute_mappings]. rewrite execute_api_call_request, requests_of_cons.
    destruct (request_of self m entity_map) as [req | e].
    + specialize (IH (mkSt (snd (http_request req (world st))) (trace st ++ [EvHttp req]))).
      destruct (execute_mappings _ ms entity_map _) as [results st2].
      cbn [snd] in *. rewrite IH. cbn [world trace served fold_left fmap list_fmap].
      now rewrite <- app_assoc.
    + specialize (IH st).
      destruct (execute_mappings _ ms entity_map _) as [results st2].
      cbn [snd] in *. exact IH.
Qed.

(** X6.  With the executor's own [_execute_api_call],
    [execute_scenario] sends exactly one request for every mapping
    whose request can be built, none for the others, in the order of
    the mappings, and nothing else crosses a boundary: no request is
    sent twice, and a failure does not stop the later ones. *)
Theorem execute_scenario_requests (self : t) (scenario : Scenario.t)
    (extracted_entities : list ExtractedEntity.t) (st : St) :
  let reqs := requests_of self (Scenario.api_mappings scenario)
                          (build_entity_map extracted_entities) in
  snd (execute_scenario (_execute_api_call self) scenario extracted_entities st)
  = mkSt (served reqs (world st)) (trace st ++ (EvHttp <$> reqs))
  /\ length reqs <= length (Scenario.api_mappings scenario).
Proof.
  cbv zeta. split.
  - unfold execute_scenario.
    rewrite <- execute_mappings_requests.
    destruct (execute_mappings _ _ _ _) as [results st']. reflexivity.
  - apply requests_of_length.
Qed.

Lemma record_raise_failed (api_mapping : APIMapping.t) (e : PyExc) :
  record_result api_mapping (Raise e) !! "success" = Some (VBool false).
Proof.
  unfold record_result. destruct (bool_decide _); apply ExecutorClaims.result_dict_success.
Qed.

Lemma read_outcome_raise (self : t) (o : HttpOutcome) (e : PyExc) :
  read_response o = Raise e -> exists e', read_outcome self o = Raise e'.
Proof.
  intros H. unfold read_outcome. rewrite H.
  destruct (bool_decide _); [unfold raise; eauto |].
  destruct (bool_decide _); unfold raise; eauto.
Qed.

(** X7.  What the executor records as a success: the recorded
    result of a call has [success] true exactly when the server
    answered with a status below 400 and, if the content type says
    JSON, a body that decodes.  A transport failure, a timeout, a
    status of 400 or more and an undecodable JSON body are all
    recorded as failures. *)
Theorem success_iff_acceptable (self : t) (api_mapping : APIMapping.t) (o : HttpOutcome) :
  record_result api_mapping (read_outcome self o) !! "success" = Some (VBool true)
  <-> acceptable o.
Proof.
  unfold acceptable. split.
  - intros H. destruct (read_response o) as [data | e] eqn:E.
    + destruct o as [response | e]; [| discriminate E]. exists response.
      split; [reflexivity |]. cbn [read_response] in E.
      destruct (Z.leb_spec 400 (Response.status_code response)) as [Hle | Hlt];
        [discriminate E |].
      split; [exact Hlt |]. intros Hjson. rewrite Hjson in E. eauto.
    + destruct (read_outcome_raise self o e E) as [e' He']. rewrite He' in H.
      rewrite record_raise_failed in H. discriminate H.
  - intros (response & -> & Hlt & Hjson). unfold read_outcome. cbn [read_response].
    destruct (Z.leb_spec 400 (Response.status_code response)) as [Hle | _]; [lia |].
    destruct (Str.contains _ _).
    + destruct (Hjson eq_refl) as [body ->]. apply ExecutorClaims.result_dict_success.
    + apply ExecutorClaims.result_dict_success.
Qed.

Lemma contains_open_absent (p s : string) :
  Str.has_char "{" s = false -> Str.contains (String "{" p) s = false.
Proof.
  induction s as [|a s IH]; intros H; [reflexivity |].
  cbn [Str.has_char] in H. destruct (Ascii.eqb a "{") eqn:E; [discriminate H |].
  cbn [Str.contains Str.startswith]. rewrite Ascii.eqb_sym, E. now apply IH.
Qed.

(** X8.  A path without an opening brace is not changed, and no
    transform is applied: whatever the parameter mappings, the static
    parameters and the entities, [_build_url] hands [urljoin] the base
    address and the path as it is, and returns or raises what [urljoin]
    does on them. *)
Theorem plain_path_unchanged (self : t) (path : string) (api_mapping : APIMapping.t)
    (entity_map : gmap string PyVal) :
  Str.has_char "{" path = false ->
  url_path_of path api_mapping entity_map = Ok path
  /\ _build_url self path api_mapping entity_map
     = urljoin (base_url self +:+ "/") (Str.lstrip "/" path).
Proof.
  intros H.
  assert (Hpath : url_path_of path api_mapping entity_map = Ok path).
  { unfold url_path_of.
    assert (Hmapped : res_fold (substitute_mapping entity_map)
                        (APIMapping.parameter_mappings api_mapping) (Ok path) = Ok path).
    { induction (APIMapping.parameter_mappings api_mapping) as [|mapping mappings IH];
        [reflexivity |].
      cbn [res_fold res_bind]. unfold substitute_mapping at 2.
      rewrite PathFacts.placeholder_cons, contains_open_absent by exact H. exact IH. }
    rewrite Hmapped. cbn [res_bind]. f_equal.
    induction (APIMapping.static_params api_mapping) as [|item items IH]; [reflexivity |].
    cbn [fold_left]. unfold substitute_static at 2.
    rewrite PathFacts.placeholder_cons, contains_open_absent by exact H. exact IH. }
  split; [exact Hpath |]. unfold _build_url. now rewrite Hpath.
Qed.

Lemma build_entity_map_rev (entities : list ExtractedEntity.t) :
  build_entity_map entities
  = fold_right (fun e m => <[ExtractedEntity.name e := ExtractedEntity.value e]> m) ∅
               (rev entities).
Proof. unfold build_entity_map. now rewrite fold_left_rev_right. Qed.

(** X9.  The entity map holds, for every name, the value of the
    last extracted entity of that name, and nothing for a name no
    entity has: when the collaborator extracts a name twice, the
    earlier value is dropped without notice. *)
Theorem entity_map_latest (entities : list ExtractedEntity.t) (name : string) :
  build_entity_map entities !! name = ExtractedEntity.value <$> latest name entities.
Proof.
  rewrite build_entity_map_rev. unfold latest.
  induction (rev entities) as [|e es IH]; [apply lookup_empty |].
  cbn [fold_right List.find].
  destruct (String.eqb_spec (ExtractedEntity.name e) name) as [<- | Hne].
  - now rewrite lookup_insert_eq.
  - rewrite lookup_insert_ne by exact Hne. exact IH.
Qed.

End Facts.

(** An instance of X1: the transform [bool] on an absent entity. *)
Lemma address_and_query_example :
  (exists url_path,
     url_path_of (R := Sample.runtime) "/products/{id}"
       (APIMapping.mk "/products/{id}" GET [ParameterMapping.mk "productId" "id" (Some "bool")] [])
       ∅ = Ok url_path
     /\ _build_url (R := Sample.runtime) Examples.sample_executor "/products/{id}"
          (APIMapping.mk "/products/{id}" GET [ParameterMapping.mk "productId" "id" (Some "bool")] [])
          ∅
        = urljoin (Runtime := Sample.runtime)
            (base_url Examples.sample_executor +:+ "/") (Str.lstrip "/" url_path))
  /\ (exists params,
        _build_query_params (R := Sample.runtime) None
          (APIMapping.mk "/products/{id}" GET [ParameterMapping.mk "productId" "id" (Some "bool")] [])
          ∅ = Ok params).
Proof.
  apply (address_and_query_return (R := Sample.runtime) Examples.sample_executor None "/products/{id}"
           (APIMapping.mk "/products/{id}" GET [ParameterMapping.mk "productId" "id" (Some "bool")] [])
           ∅).
  repeat constructor.
Defined.

(** An instance of X8: the mapping's transform [int] would raise on the
    absent entity, were it applied.  With a base address that [urljoin]
    refuses, the path is the same and the call raises. *)
Lemma health_path_unchanged :
  (url_path_of (R := Sample.runtime) "/health" Cases.health_mapping ∅ = Ok "/health"
   /\ _build_url (R := Sample.runtime) Examples.sample_executor "/health" Cases.health_mapping ∅
      = Ok "http://shop.test/health")
  /\ (url_path_of (R := Sample.runtime) "/health" Cases.health_mapping ∅ = Ok "/health"
      /\ _build_url (R := Sample.runtime) Cases.bracket_executor "/health" Cases.health_mapping ∅
         = raise ValueError "Invalid IPv6 URL").
Proof.
  split.
  - exact (plain_path_unchanged (R := Sample.runtime) Examples.sample_executor "/health"
             Cases.health_mapping ∅ eq_refl).
  - exact (plain_path_unchanged (R := Sample.runtime) Cases.bracket_executor "/health"
             Cases.health_mapping ∅ eq_refl).
Defined.

(** An instance of X2. *)
Lemma search_limit_declared : "limit" ∈ names_at QUERY Cases.search.
Proof.
  apply (query_keys_declared (R := Sample.runtime) Cases.search Cases.search_mapping
           {["n" := VInt 5]} {["limit" := VInt 5]} "limit").
  - reflexivity.
  - exists (VInt 5). reflexivity.
Defined.

(** An instance of X3. *)
Lemma create_pet_body :
  ({["name" := VStr "Rex"]} : gmap string PyVal) <> ∅
  /\ APIMapping.method Cases.create_pet_mapping <> GET
  /\ APIMapping.method Cases.create_pet_mapping <> DELETE
  /\ exists ep request_body properties,
       Some Cases.create_pet = Some ep
       /\ APIEndpoint.request_body ep = Some request_body
       /\ body_properties request_body = Ok properties
       /\ forall key, is_Some (({["name" := VStr "Rex"]} : gmap string PyVal) !! key) ->
                      py_in key properties = Ok true.
Proof.
  exact (body_keys_declared (R := Sample.runtime) (Some Cases.create_pet) Cases.create_pet_mapping
           ∅ {["name" := VStr "Rex"]} eq_refl).
Defined.

(** An instance of X5. *)
Lemma key_for_query_not_sent :
  _execute_api_call (R := Sample.runtime) Cases.keyed_executor Cases.search_mapping ∅
                    (Examples.start Examples.quiet)
  = _execute_api_call (R := Sample.runtime) (without_credentials Cases.keyed_executor)
                      Cases.search_mapping ∅ (Examples.start Examples.quiet).
Proof.
  apply (api_key_outside_header_not_sent (R := Sample.runtime) Cases.keyed_executor "query"
           Cases.search_mapping ∅ (Examples.start Examples.quiet)).
  - reflexivity.
  - reflexivity.
  - intros H. discriminate H.
Defined.

End ExecutorFacts.

(** ** Splitting and joining *)

Module SplitFacts.
Import StrFacts.

Lemma split_cons (c a : ascii) (s : string) :
  Str.split c (String a s)
  = if Ascii.eqb a c then EmptyString :: Str.split c s
    else match Str.split c s with
         | [] => [String a EmptyString]
         | w :: ws => String a w :: ws
         end.
Proof. reflexivity. Qed.

(** A text without the separator is its own single part. *)
Lemma split_free (c : ascii) (s : string) :
  Str.has_char c s = false -> Str.split c s = [s].
Proof.
  induction s as [|a s IH]; intros H; [reflexivity |].
  cbn [Str.has_char] in H. rewrite split_cons.
  destruct (Ascii.eqb a c); [discriminate H |]. now rewrite IH.
Qed.

(** The first part ends at the first separator. *)
Lemma split_app_sep (c : ascii) (a b : string) :
  Str.has_char c a = false ->
  Str.split c (a +:+ String c b) = a :: Str.split c b.
Proof.
  induction a as [|x a IH]; intros H.
  - rewrite app_nil, split_cons. now rewrite Ascii.eqb_refl.
  - cbn [Str.has_char] in H. rewrite app_cons, split_cons.
    destruct (Ascii.eqb x c); [discriminate H |]. now rewrite IH.
Qed.

(** Every text either has no separator, or is a first part, a
    separator and the rest. *)
Lemma split_cases (c : ascii) (s : string) :
  (Str.has_char c s = false /\ Str.split c s = [s])
  \/ (exists h r, Str.has_char c h = false /\ s = h +:+ String c r
                  /\ Str.split c s = h :: Str.split c r).
Proof.
  induction s as [|a s IH]; [left; split; reflexivity |].
  destruct (Ascii.eqb a c) eqn:E.
  - right. exists EmptyString, s. apply Ascii.eqb_eq in E as ->.
    split; [reflexivity |]. split; [reflexivity |].
    rewrite split_cons. now rewrite Ascii.eqb_refl.
  - destruct IH as [[Hfree Hsplit] | (h & r & Hfree & -> & Hsplit)].
    + left. split; [cbn [Str.has_char]; now rewrite E |].
      rewrite split_cons, E, Hsplit. reflexivity.
    + right. exists (String a h), r.
      split; [cbn [Str.has_char]; now rewrite E |].
      split; [now rewrite app_cons |].
      rewrite split_cons, E, Hsplit. reflexivity.
Qed.

Lemma join_cons2 (sep p q : string) (ps : list string) :
  Str.join sep (p :: q :: ps) = p +:+ sep +:+ Str.join sep (q :: ps).
Proof. reflexivity. Qed.

(** Joining parts that are free of the separator and splitting again
    gives the parts back. *)
Lemma split_join (c : ascii) (parts : list string) :
  parts <> [] ->
  Forall (fun part => Str.has_char c part = false) parts ->
  Str.split c (Str.join (String c EmptyString) parts) = parts.
Proof.
  intros Hne H. induction H as [|p ps Hp Hps IH]; [now destruct Hne |].
  destruct ps as [|q ps].
  - now apply split_free.
  - rewrite join_cons2, app_cons, app_nil.
    rewrite split_app_sep by exact Hp. f_equal. apply IH. intros E. discriminate E.
Qed.

Lemma startswith_prefix (p s : string) :
  Str.startswith p s = true -> exists t, s = p +:+ t.
Proof.
  revert s. induction p as [|a p IH]; intros s H; [exists s; reflexivity |].
  destruct s as [|b s]; [discriminate H |]. cbn [Str.startswith] in H.
  destruct (Ascii.eqb_spec a b) as [-> |]; [| discriminate H].
  destruct (IH s H) as [t ->]. exists t. now rewrite app_cons.
Qed.

(** Where the first separator stands decides the two sides. *)
Lemma app_sep_inj (c : ascii) (a b x y : string) :
  Str.has_char c a = false -> Str.has_char c x = false ->
  a +:+ String c b = x +:+ String c y -> a = x /\ b = y.
Proof.
  revert x. induction a as [|u a IH]; intros x Ha Hx E.
  - destruct x as [|v x].
    + rewrite !app_nil in E. injection E as ->. auto.
    + rewrite app_nil, app_cons in E. injection E as <- _.
      cbn [Str.has_char] in Hx. rewrite Ascii.eqb_refl in Hx. discriminate Hx.
  - cbn [Str.has_char] in Ha. destruct (Ascii.eqb u c) eqn:Eu; [discriminate Ha |].
    destruct x as [|v x].
    + rewrite app_nil, app_cons in E. injection E as -> _.
      rewrite Ascii.eqb_refl in Eu. discriminate Eu.
    + rewrite !app_cons in E. injection E as -> E.
      cbn [Str.has_char] in Hx. rewrite Eu in Hx.
      destruct (IH x Ha Hx E) as [-> ->]. auto.
Qed.

End SplitFacts.

(** ** The version check *)

Module VersionFacts.
Import OpenAPIParser StrFacts SplitFacts.

(** The first two dot-separated parts of a text are [a] and [b]
    exactly when the text is [a.b] or begins with [a.b.]. *)
Lemma major_minor_is (a b text : string) :
  Str.has_char "." a = false -> Str.has_char "." b = false ->
  major_minor text = a +:+ "." +:+ b
  <-> text = a +:+ "." +:+ b \/ Str.startswith (a +:+ "." +:+ b +:+ ".") text = true.
Proof.
  intros Ha Hb. unfold major_minor. split.
  - intros H. destruct (split_cases "." text) as [[Hfree Hsplit] | (h & r & Hh & -> & Hsplit)].
    + rewrite Hsplit in H. cbn [take Str.join] in H. subst text.
      rewrite has_char_app in Hfree. rewrite app_cons in Hfree. cbn [Str.has_char] in Hfree.
      rewrite Ascii.eqb_refl, orb_true_r in Hfree. discriminate Hfree.
    + rewrite Hsplit in H.
      destruct (split_cases "." r) as [[Hfree Hr] | (k & r' & Hk & -> & Hr)].
      * rewrite Hr in H. cbn [take Str.join] in H. rewrite app_cons, app_nil in H.
        left. rewrite app_cons, app_nil. exact H.
      * rewrite Hr in H. right.
        assert (Hjoin : h +:+ String "." k = a +:+ String "." b).
        { destruct (Str.split "." r'); exact H. }
        destruct (app_sep_inj "." h k a b Hh Ha Hjoin) as [-> ->].
        replace (a +:+ String "." (b +:+ String "." r'))
          with ((a +:+ "." +:+ b +:+ ".") +:+ r').
        -- apply startswith_app.
        -- rewrite !app_assoc. rewrite !app_cons, !app_nil. reflexivity.
  - intros [-> | H].
    + rewrite app_cons, app_nil. rewrite split_app_sep by exact Ha.
      rewrite split_free by exact Hb. reflexivity.
    + apply startswith_prefix in H as [t ->].
      rewrite !app_assoc. rewrite !app_cons, !app_nil.
      rewrite split_app_sep by exact Ha. rewrite split_app_sep by exact Hb.
      cbn [take]. destruct (Str.split "." t); reflexivity.
Qed.

Section Version.
Context `{R : Runtime}.

(** X10.  [_validate_version] accepts a document exactly when its
    [openapi] field is a text that is [3.0] or [3.1] or begins with
    [3.0.] or [3.1.]: the patch level and whatever follows it are not
    looked at, and a text such as [3.10] is refused. *)
Theorem validate_version_accepts (spec : gmap string PyVal) :
  _validate_version spec = Ok tt
  <-> exists text,
        spec !! "openapi" = Some (VStr text)
        /\ (text = "3.0" \/ Str.startswith "3.0." text = true
            \/ text = "3.1" \/ Str.startswith "3.1." text = true).
Proof.
  assert (Hiff : forall text,
             major_minor text ∈ SUPPORTED_VERSIONS
             <-> (text = "3.0" \/ Str.startswith "3.0." text = true
                  \/ text = "3.1" \/ Str.startswith "3.1." text = true)).
  { intros text. unfold SUPPORTED_VERSIONS.
    rewrite !elem_of_cons, elem_of_nil.
    pose proof (major_minor_is "3" "0" text eq_refl eq_refl) as H0.
    pose proof (major_minor_is "3" "1" text eq_refl eq_refl) as H1.
    change ("3" +:+ "." +:+ "0") with "3.0" in H0.
    change ("3" +:+ "." +:+ "0" +:+ ".") with "3.0." in H0.
    change ("3" +:+ "." +:+ "1") with "3.1" in H1.
    change ("3" +:+ "." +:+ "1" +:+ ".") with "3.1." in H1.
    rewrite H0, H1. tauto. }
  unfold _validate_version, dict_get. split.
  - intros H. destruct (spec !! "openapi") as [v |] eqn:E; [| discriminate H].
    destruct v as [| | | f | text | |];
      try (destruct (negb _); discriminate H).
    exists text. split; [reflexivity |]. apply Hiff.
    destruct (negb (truthy (VStr text))); [discriminate H |].
    case_bool_decide as Hin; [exact Hin | discriminate H].
  - intros (text & -> & Htext). apply Hiff in Htext.
    assert (Htruthy : truthy (VStr text) = true).
    { destruct text; [| reflexivity].
      apply elem_of_cons in Htext as [Htext | Htext]; [discriminate Htext |].
      apply elem_of_cons in Htext as [Htext | Htext]; [discriminate Htext |].
      now apply elem_of_nil in Htext. }
    rewrite Htruthy. cbn [negb]. now rewrite bool_decide_eq_true_2.
Qed.

End Version.
End VersionFacts.

(** ** References *)

Module RefFacts.
Import OpenAPIParser ParserSpec StrFacts SplitFacts.

(** X11.  A pointer [#/k1/.../kn] whose keys hold no slash
    resolves to what the walk from the document root along [k1 ... kn]
    finds: a dictionary comes back without a warning, another kind of
    value comes back as [None] without a warning, and a walk that
    leaves the document comes back as [None] with one warning.  In no
    case is an exception raised. *)
Theorem resolve_ref_walks (parts : list string) (components : PyVal) (warnings : list string) :
  parts <> [] ->
  Forall (fun part => Str.has_char "/" part = false) parts ->
  _resolve_ref (VStr ("#/" +:+ Str.join "/" parts)) components warnings
  = match walk_ref parts (VDict {["components" := components]}) with
    | Some (VDict d) => (Ok (Some d), warnings)
    | Some _ => (Ok None, warnings)
    | None => (Ok None,
               (warnings ++ ["Could not resolve reference: " +:+ "#/" +:+ Str.join "/" parts])%list)
    end.
Proof.
  intros Hne Hparts. unfold _resolve_ref.
  rewrite startswith_app. cbn [negb].
  replace (Str.split "/" ("#/" +:+ Str.join "/" parts)) with ("#" :: parts).
  - cbn [tail].
    destruct (walk_ref parts _) as [[] |]; reflexivity.
  - change ("#/" +:+ Str.join "/" parts) with ("#" +:+ String "/" (Str.join "/" parts)).
    rewrite split_app_sep by reflexivity. now rewrite split_join.
Qed.

(** An instance of X11: a schema of the components. *)
Lemma resolve_ref_schema_example :
  _resolve_ref (VStr "#/components/schemas/Pet")
    (VDict {["schemas" := VDict {["Pet" := VDict {["type" := VStr "object"]}]}]}) []
  = (Ok (Some {["type" := VStr "object"]}), []).
Proof.
  exact (resolve_ref_walks ["components"; "schemas"; "Pet"]
           (VDict {["schemas" := VDict {["Pet" := VDict {["type" := VStr "object"]}]}]}) []
           ltac:(intros H; discriminate H) ltac:(repeat constructor)).
Defined.

End RefFacts.

(** ** The parser and its warnings *)

Module WarningFacts.
Import OpenAPIParser ParserSpec.

Lemma appends_ret {A} (a : A) : appends (ret a).
Proof. exists (Ok a), []. intros w. unfold ret. now rewrite app_nil_r. Qed.

Lemma appends_lift {A} (r : Res A) : appends (lift r).
Proof. exists r, []. intros w. unfold lift. now rewrite app_nil_r. Qed.

Lemma appends_warn (message : string) : appends (warn message).
Proof. exists (Ok tt), [message]. reflexivity. Qed.

Lemma appends_bind {A B} (m : SM (list string) A) (k : A -> SM (list string) B) :
  appends m -> (forall a, appends (k a)) -> appends (bind m k).
Proof.
  intros (r & extra & Hm) Hk. destruct r as [a | e].
  - destruct (Hk a) as (r' & extra' & Hka). exists r', (extra ++ extra')%list.
    intros w. unfold bind. rewrite Hm, Hka. now rewrite app_assoc.
  - exists (Raise e), extra. intros w. unfold bind. now rewrite Hm.
Qed.

Lemma appends_fold {A B} (f : B -> A -> SM (list string) B) (l : list A) (acc : B) :
  (forall acc x, appends (f acc x)) -> appends (sm_fold f l acc).
Proof.
  intros Hf. revert acc. induction l as [|x l IH]; intros acc; cbn [sm_fold].
  - apply appends_ret.
  - apply appends_bind; [apply Hf | apply IH].
Qed.

Create HintDb appends.

#[local] Hint Extern 1 (appends (match ?x with _ => _ end)) => destruct x : appends.

Lemma appends_resolve_ref (ref components : PyVal) : appends (_resolve_ref ref components).
Proof.
  unfold _resolve_ref.
  auto 10 using appends_ret, appends_lift, appends_warn, appends_bind, appends_fold
    with appends.
Qed.

Lemma appends_deref (v components : PyVal) : appends (deref v components).
Proof.
  unfold deref.
  auto 10 using appends_ret, appends_lift, appends_warn, appends_bind, appends_fold,
    appends_resolve_ref
    with appends.
Qed.

Section Parser.
Context `{R : Runtime}.

Lemma appends_parse_parameter components result param :
  appends (parse_parameter components result param).
Proof.
  unfold parse_parameter.
  auto 10 using appends_ret, appends_lift, appends_warn, appends_bind, appends_fold,
    appends_deref
    with appends.
Qed.

Lemma appends_parse_parameters parameters components :
  appends (_parse_parameters parameters components).
Proof.
  unfold _parse_parameters.
  auto 10 using appends_ret, appends_lift, appends_warn, appends_bind, appends_fold,
    appends_parse_parameter
    with appends.
Qed.

Lemma appends_parse_media components content item :
  appends (parse_media components content item).
Proof.
  unfold parse_media.
  auto 20 using appends_ret, appends_lift, appends_warn, appends_bind, appends_fold,
    appends_resolve_ref
    with appends.
Qed.

Lemma appends_parse_request_body request_body components :
  appends (_parse_request_body request_body components).
Proof.
  unfold _parse_request_body.
  auto 20 using appends_ret, appends_lift, appends_warn, appends_bind, appends_fold,
    appends_deref, appends_parse_media
    with appends.
Qed.

Lemma appends_parse_response components result item :
  appends (parse_response components result item).
Proof.
  unfold parse_response.
  auto 30 using appends_ret, appends_lift, appends_warn, appends_bind, appends_fold,
    appends_deref, appends_resolve_ref
    with appends.
Qed.

Lemma appends_parse_responses responses components :
  appends (_parse_responses responses components).
Proof.
  unfold _parse_responses.
  auto 10 using appends_ret, appends_lift, appends_warn, appends_bind, appends_fold,
    appends_parse_response
    with appends.
Qed.

Lemma appends_parse_operation path method operation path_params components :
  appends (_parse_operation path method operation path_params components).
Proof.
  unfold _parse_operation.
  auto 40 using appends_ret, appends_lift, appends_warn, appends_bind, appends_fold,
    appends_parse_parameters, appends_parse_request_body, appends_parse_responses
    with appends.
Qed.

Lemma appends_parse_method path path_item path_params components endpoints method :
  appends (parse_method path path_item path_params components endpoints method).
Proof.
  unfold parse_method.
  auto 10 using appends_ret, appends_lift, appends_warn, appends_bind, appends_fold,
    appends_parse_operation
    with appends.
Qed.

Lemma appends_parse_path components endpoints item :
  appends (parse_path components endpoints item).
Proof.
  unfold parse_path.
  auto 20 using appends_ret, appends_lift, appends_warn, appends_bind, appends_fold,
    appends_parse_parameters, appends_parse_method
    with appends.
Qed.

Lemma appends_parse_paths paths components : appends (_parse_paths paths components).
Proof.
  unfold _parse_paths.
  auto 10 using appends_ret, appends_lift, appends_warn, appends_bind, appends_fold,
    appends_parse_path
    with appends.
Qed.

(** X12.  [_parse_spec] only appends to the warnings: what was
    recorded before it ran is still there, in order, and neither the
    specification it returns (or the exception it raises) nor the
    warnings it adds depend on the warnings recorded before. *)
Theorem parse_spec_appends (spec : gmap string PyVal) :
  exists (outcome : Res APISpec.t) (added : list string),
    forall warnings, _parse_spec spec warnings = (outcome, (warnings ++ added)%list).
Proof.
  change (appends (_parse_spec spec)).
  unfold _parse_spec.
  auto 40 using appends_ret, appends_lift, appends_warn, appends_bind, appends_fold,
    appends_parse_paths
    with appends.
Qed.

End Parser.
End WarningFacts.

(** ** The operations of a document *)

Module OperationFacts.
Import OpenAPIParser ParserSpec ParserClaims.

(** A loop over two lists in a row is the two loops in a row. *)
Lemma sm_fold_app {S A B} (f : B -> A -> SM S B) (l1 l2 : list A) (acc : B) (st : S) :
  sm_fold f (l1 ++ l2) acc st = bind (sm_fold f l1 acc) (sm_fold f l2) st.
Proof.
  revert acc st. induction l1 as [|x l1 IH]; intros acc st; [reflexivity |].
  cbn [app sm_fold]. unfold bind.
  destruct (f acc x st) as [[acc1 | e] st1]; [exact (IH acc1 st1) | reflexivity].
Qed.

(** What the rounds of a loop add to a list read off the accumulator. *)
Lemma sm_fold_adds {S A B K} (f : B -> A -> SM S B) (key : B -> list K) (added : A -> list K)
    (l : list A) (acc r : B) (st st' : S) :
  (forall acc x st acc' st', f acc x st = (Ok acc', st') -> key acc' = (key acc ++ added x)%list) ->
  sm_fold f l acc st = (Ok r, st') ->
  key r = (key acc ++ flat_map added l)%list.
Proof.
  intros Hf. revert acc st. induction l as [|x l IH]; intros acc st H; cbn [sm_fold flat_map] in *.
  - unfold ret in H. injection H as <- _. now rewrite app_nil_r.
  - apply bind_ok in H as (acc1 & st1 & Hx & H).
    rewrite (IH _ _ H), (Hf _ _ _ _ _ Hx). now rewrite <- app_assoc.
Qed.

(** What a method that only appends returns does not depend on the
    warnings it starts from. *)
Lemma appends_fst {A} (m : SM (list string) A) (w w' : list string) :
  appends m -> fst (m w) = fst (m w').
Proof. intros (r & extra & H). now rewrite !H. Qed.

Section Parser.
Context `{R : Runtime}.

(** A reference that does not resolve fires the test [if not v]. *)
Lemma deref_dangling (d : gmap string PyVal) (text : string) (components : PyVal)
    (warnings : list string) :
  d !! "$ref" = Some (VStr text) ->
  dangling text components = true ->
  fst (deref (VDict d) components warnings) = Ok None.
Proof.
  intros Href Hd. unfold deref, bind, lift, py_in, py_getitem.
  rewrite Href. rewrite bool_decide_eq_true_2 by eauto.
  unfold dangling in Hd. unfold _resolve_ref, bind, warn, ret.
  destruct (Str.startswith "#/" text); cbn [negb]; [| reflexivity].
  destruct (walk_ref _ _) as [[] |]; try reflexivity.
  cbn [fst]. now rewrite Hd.
Qed.

Lemma parse_parameter_dangling (d : gmap string PyVal) (text : string) (components : PyVal)
    (result : list APIParameter.t) (warnings : list string) :
  d !! "$ref" = Some (VStr text) ->
  dangling text components = true ->
  fst (parse_parameter components result (VDict d) warnings) = Ok result.
Proof.
  intros Href Hd. unfold parse_parameter, bind.
  pose proof (deref_dangling d text components warnings Href Hd) as H.
  destruct (deref (VDict d) components warnings) as [r w]. cbn [fst] in H. subst r.
  reflexivity.
Qed.

(** X13.  A parameter that is a reference which does not resolve
    is left out and nothing else changes: the parameters parsed from a
    list that holds such a reference are those parsed from the list
    without it, and if the one raises so does the other.  The reference
    itself never makes the parse fail. *)
Theorem dangling_parameter_omitted (d : gmap string PyVal) (text : string)
    (components : PyVal) (before after : list PyVal) (warnings : list string) :
  d !! "$ref" = Some (VStr text) ->
  dangling text components = true ->
  fst (_parse_parameters (VList (before ++ VDict d :: after)) components warnings)
  = fst (_parse_parameters (VList (before ++ after)) components warnings).
Proof.
  intros Href Hd.
  change (fst (sm_fold (parse_parameter components) (before ++ VDict d :: after) [] warnings)
          = fst (sm_fold (parse_parameter components) (before ++ after) [] warnings)).
  rewrite !sm_fold_app. cbn [sm_fold]. unfold bind.
  destruct (sm_fold (parse_parameter components) before [] warnings) as [[acc | e] w1];
    [| reflexivity].
  pose proof (parse_parameter_dangling d text components acc w1 Href Hd) as H.
  destruct (parse_parameter components acc (VDict d) w1) as [r w2]. cbn [fst] in H. subst r.
  apply appends_fst. apply WarningFacts.appends_fold. intros acc' x.
  apply WarningFacts.appends_parse_parameter.
Qed.

Lemma parse_operation_of (path : string) (method : HTTPMethod) (operation : PyVal)
    (path_params : list APIParameter.t) (components : PyVal)
    (warnings warnings' : list string) (endpoint : APIEndpoint.t) :
  _parse_operation path method operation path_params components warnings
  = (Ok endpoint, warnings') ->
  operation_of endpoint = (path, method).
Proof.
  intros H. unfold _parse_operation in H.
  repeat (apply bind_ok in H as (? & ? & _ & H)).
  unfold ret in H. injection H as <- _. reflexivity.
Qed.

Lemma parse_method_adds (path : string) (path_item : gmap string PyVal)
    (path_params : list APIParameter.t) (components : PyVal)
    (endpoints : list APIEndpoint.t) (method : HTTPMethod) (warnings : list string)
    (endpoints' : list APIEndpoint.t) (warnings' : list string) :
  parse_method path path_item path_params components endpoints method warnings
  = (Ok endpoints', warnings') ->
  operation_of <$> endpoints'
  = ((operation_of <$> endpoints)
       ++ (if bool_decide (is_Some (path_item !! method_lower method))
           then [(path, method)] else []))%list.
Proof.
  unfold parse_method. intros H.
  destruct (path_item !! method_lower method) as [operation |].
  - apply bind_ok in H as (endpoint & w1 & He & H). unfold ret in H. injection H as <- _.
    rewrite bool_decide_eq_true_2 by eauto.
    rewrite fmap_app. cbn [fmap list_fmap]. now rewrite (parse_operation_of _ _ _ _ _ _ _ _ He).
  - unfold ret in H. injection H as <- _.
    rewrite bool_decide_eq_false_2 by (intros [? E]; discriminate E).
    now rewrite app_nil_r.
Qed.

Lemma flat_map_filter {A B} (P : A -> Prop) `{forall x, Decision (P x)} (g : A -> B)
    (l : list A) :
  flat_map (fun x => if bool_decide (P x) then [g x] else []) l = g <$> filter P l.
Proof.
  induction l as [|x l IH]; [reflexivity |].
  cbn [flat_map]. rewrite filter_cons. case_bool_decide as Hx.
  - rewrite decide_True by exact Hx. cbn [app fmap list_fmap]. now rewrite IH.
  - rewrite decide_False by exact Hx. cbn [app]. exact IH.
Qed.

Lemma parse_path_adds (components : PyVal) (endpoints : list APIEndpoint.t)
    (item : string * PyVal) (warnings : list string)
    (endpoints' : list APIEndpoint.t) (warnings' : list string) :
  parse_path components endpoints item warnings = (Ok endpoints', warnings') ->
  operation_of <$> endpoints'
  = ((operation_of <$> endpoints)
       ++ match snd item with
          | VDict path_item => (fun method => (fst item, method)) <$> declared_in path_item
          | _ => []
          end)%list.
Proof.
  unfold parse_path. intros H. destruct item as [path v].
  destruct v as [| | | | | | path_item]; cbn [snd fst];
    try (unfold ret in H; injection H as <- _; now rewrite app_nil_r).
  apply bind_ok in H as (path_params & w1 & _ & H).
  rewrite (sm_fold_adds _ (fmap operation_of)
             (fun method => if bool_decide (is_Some (path_item !! method_lower method))
                            then [(path, method)] else [])
             _ _ _ _ _ (parse_method_adds path path_item path_params components) H).
  now rewrite flat_map_filter.
Qed.

Lemma parse_paths_operations (paths : gmap string PyVal) (components : PyVal)
    (warnings warnings' : list string) (endpoints : list APIEndpoint.t) :
  _parse_paths (VDict paths) components warnings = (Ok endpoints, warnings') ->
  operation_of <$> endpoints = declared_operations paths.
Proof.
  unfold _parse_paths. intros H.
  apply bind_ok in H as (items & w0 & Hitems & H). apply lift_ok in Hitems as [Hitems ->].
  cbn [py_items] in Hitems. injection Hitems as <-.
  rewrite (sm_fold_adds _ (fmap operation_of) _ _ _ _ _ _ (parse_path_adds components) H).
  reflexivity.
Qed.

Lemma declared_operations_path (item : string * PyVal) (operation : string * HTTPMethod) :
  operation ∈ match snd item with
              | VDict path_item => (fun method => (fst item, method)) <$> declared_in path_item
              | _ => []
              end ->
  fst operation = fst item.
Proof.
  destruct (snd item); try (intros H; now apply elem_of_nil in H).
  intros H. apply list_elem_of_fmap in H as (method & -> & _). reflexivity.
Qed.

Lemma methods_distinct : NoDup METHODS.
Proof.
  unfold METHODS. repeat (apply NoDup_cons; split; [| ]); try apply NoDup_nil_2;
    rewrite ?elem_of_cons, elem_of_nil; intros H;
    repeat (destruct H as [H | H]; [discriminate H |]); exact H.
Qed.

Lemma declared_operations_distinct (paths : gmap string PyVal) :
  NoDup (declared_operations paths).
Proof.
  unfold declared_operations.
  assert (Hkeys : NoDup (dict_items paths).*1).
  { rewrite (dict_items_entries paths). apply NoDup_fst_map_to_list. }
  induction (dict_items paths) as [|item items IH]; [apply NoDup_nil_2 |].
  cbn [fmap list_fmap] in Hkeys. apply NoDup_cons in Hkeys as [Hfresh Hkeys].
  cbn [flat_map]. apply NoDup_app. split; [| split; [| now apply IH]].
  - destruct (snd item); try apply NoDup_nil_2.
    apply NoDup_fmap_2.
    + intros x y E. now injection E.
    + unfold declared_in. apply NoDup_filter, methods_distinct.
  - intros operation Hhere Hlater. apply Hfresh.
    apply declared_operations_path in Hhere. rewrite <- Hhere.
    apply list_elem_of_In, in_flat_map in Hlater as (other & Hother & Hin).
    apply list_elem_of_In in Hin. apply declared_operations_path in Hin. rewrite Hin.
    apply list_elem_of_fmap. exists other. split; [reflexivity |]. now apply list_elem_of_In.
Qed.

(** In a list with one endpoint per operation, the search by path and
    method finds each endpoint at its own path and method. *)
Lemma find_by_operation (endpoints : list APIEndpoint.t) (endpoint : APIEndpoint.t) :
  NoDup (operation_of <$> endpoints) ->
  endpoint ∈ endpoints ->
  List.find (fun other =>
               bool_decide (APIEndpoint.path other = APIEndpoint.path endpoint)
               && bool_decide (APIEndpoint.method other = APIEndpoint.method endpoint))
            endpoints
  = Some endpoint.
Proof.
  induction endpoints as [|first rest IH]; intros Hdistinct Hin;
    [now apply elem_of_nil in Hin |].
  cbn [fmap list_fmap] in Hdistinct. apply NoDup_cons in Hdistinct as [Hfresh Hdistinct].
  cbn [List.find]. apply elem_of_cons in Hin as [-> | Hin].
  - now rewrite !bool_decide_eq_true_2.
  - destruct (bool_decide _ && bool_decide _) eqn:E; [| now apply IH].
    apply andb_prop in E as [Hp Hm]. apply bool_decide_eq_true in Hp, Hm.
    destruct Hfresh. apply list_elem_of_fmap. exists endpoint. split; [| exact Hin].
    unfold operation_of. now rewrite Hp, Hm.
Qed.

Lemma parse_spec_endpoints (spec : gmap string PyVal) (warnings warnings' : list string)
    (api_spec : APISpec.t) :
  _parse_spec spec warnings = (Ok api_spec, warnings') ->
  exists paths,
    dict_get spec "paths" (VDict ∅) = VDict paths
    /\ operation_of <$> APISpec.endpoints api_spec = declared_operations paths.
Proof.
  intros H. unfold _parse_spec in H.
  do 4 (apply bind_ok in H as (? & ? & _ & H)).
  apply bind_ok in H as (endpoints & w1 & Hpaths & H).
  repeat (apply bind_ok in H as (? & ? & _ & H)).
  unfold ret in H. injection H as <- _. cbn [APISpec.endpoints].
  destruct (dict_get spec "paths" (VDict ∅)) as [| | | | | | paths]; try discriminate Hpaths.
  exists paths. split; [reflexivity |]. exact (parse_paths_operations _ _ _ _ _ Hpaths).
Qed.

(** X14.  A specification that parses has exactly one endpoint
    for every operation its [paths] object declares: the paths and
    methods of the endpoints are the declared operations, path by path
    in the order in which the [paths] object iterates (the order of the
    document) and within a path in the order get, post, put, patch,
    delete, whatever the order of the path item, for the methods the
    path item has an entry for; a path whose item is not an object gives
    none; and no two endpoints share path and method. *)
Theorem parsed_endpoints_are_operations (spec : gmap string PyVal)
    (warnings warnings' : list string) (api_spec : APISpec.t) :
  _parse_spec spec warnings = (Ok api_spec, warnings') ->
  exists paths,
    dict_get spec "paths" (VDict ∅) = VDict paths
    /\ operation_of <$> APISpec.endpoints api_spec = declared_operations paths
    /\ NoDup (operation_of <$> APISpec.endpoints api_spec).
Proof.
  intros H. destruct (parse_spec_endpoints _ _ _ _ H) as (paths & Hpaths & Hops).
  exists paths. split; [exact Hpaths |]. split; [exact Hops |].
  rewrite Hops. apply declared_operations_distinct.
Qed.

(** X15.  Every endpoint of a specification that parsed is the one
    an executor built on that specification finds at the endpoint's own
    path and method, whatever the credentials and the timeout. *)
Theorem parsed_endpoints_found (spec : gmap string PyVal) (warnings warnings' : list string)
    (api_spec : APISpec.t) (auth : option (gmap string string)) (timeout : spec_float)
    (endpoint : APIEndpoint.t) :
  _parse_spec spec warnings = (Ok api_spec, warnings') ->
  endpoint ∈ APISpec.endpoints api_spec ->
  APIExecutor._find_endpoint (APIExecutor.init api_spec auth timeout)
    (APIEndpoint.path endpoint) (APIEndpoint.method endpoint)
  = Some endpoint.
Proof.
  intros H Hin. destruct (parse_spec_endpoints _ _ _ _ H) as (paths & _ & Hops).
  unfold APIExecutor._find_endpoint, APIExecutor.init. cbn [APIExecutor.api_spec].
  apply find_by_operation; [| exact Hin].
  rewrite Hops. apply declared_operations_distinct.
Qed.

(** X16.  An operation without an [operationId] (or with an empty
    one) gets the identifier [_generate_operation_id] makes of its path
    and method, and the last warning recorded says so.  The validation
    of a text field is taken to accept every text. *)
Theorem missing_operation_id_generated (path : string) (method : HTTPMethod)
    (operation : gmap string PyVal) (path_params : list APIParameter.t) (components : PyVal)
    (warnings warnings' : list string) (endpoint : APIEndpoint.t) :
  (forall text, validate_str (VStr text) = Ok text) ->
  truthy (dict_get operation "operationId" (VStr EmptyString)) = false ->
  _parse_operation path method (VDict operation) path_params components warnings
  = (Ok endpoint, warnings') ->
  APIEndpoint.operation_id endpoint = _generate_operation_id path method
  /\ exists earlier,
       warnings'
       = (earlier ++ ["Missing operationId for " +:+ method_value method +:+ " " +:+ path
                        +:+ ", generated: " +:+ _generate_operation_id path method])%list.
Proof.
  intros Hstr Hmissing H. unfold _parse_operation in H.
  do 6 (apply bind_ok in H as (? & ? & _ & H)).
  apply bind_ok in H as (raw_id & w6 & Hid & H). apply lift_ok in Hid as [Hid ->].
  cbn [py_get] in Hid. injection Hid as <-.
  rewrite Hmissing in H. cbn [negb] in H.
  apply bind_ok in H as (generated & w7 & Hgen & H).
  unfold bind, warn, ret in Hgen. injection Hgen as <- <-.
  do 3 (apply bind_ok in H as (? & ? & Hstep & H); apply lift_ok in Hstep as [_ ->]).
  apply bind_ok in H as (operation_id & ? & Hstep & H). apply lift_ok in Hstep as [Hstep ->].
  rewrite Hstr in Hstep. injection Hstep as <-.
  do 3 (apply bind_ok in H as (? & ? & Hstep & H); apply lift_ok in Hstep as [_ ->]).
  unfold ret in H. injection H as <- <-.
  split; [reflexivity |]. eexists. reflexivity.
Qed.

(** X30.  An operation whose request body is a reference that does
    not resolve parses to an endpoint with an empty request body, and
    for such an endpoint the executor builds no body, whatever the
    mapping and the entities. *)
Theorem dangling_body_not_sent (path : string) (method : HTTPMethod)
    (operation d : gmap string PyVal) (text : string)
    (path_params : list APIParameter.t) (components : PyVal)
    (warnings warnings' : list string) (endpoint : APIEndpoint.t) :
  _parse_operation path method (VDict operation) path_params components warnings
  = (Ok endpoint, warnings') ->
  operation !! "requestBody" = Some (VDict d) ->
  d !! "$ref" = Some (VStr text) ->
  dangling text components = true ->
  APIEndpoint.request_body endpoint = Some ∅
  /\ forall api_mapping entity_map,
       APIExecutor._build_body (Some endpoint) api_mapping entity_map = Ok None.
Proof.
  intros H Hbody Href Hd.
  assert (Hrequest : APIEndpoint.request_body endpoint = Some ∅).
  { unfold _parse_operation in H.
    do 2 (apply bind_ok in H as (? & ? & _ & H)).
    apply bind_ok in H as (has_body & w2 & Hhas & H). apply lift_ok in Hhas as [Hhas ->].
    cbn [py_in] in Hhas. rewrite Hbody in Hhas.
    rewrite bool_decide_eq_true_2 in Hhas by eauto. injection Hhas as <-.
    apply bind_ok in H as (request_body & w3 & Hparsed & H).
    assert (Hempty : request_body = Some ∅).
    { apply bind_ok in Hparsed as (raw & w4 & Hraw & Hparsed).
      apply lift_ok in Hraw as [Hraw ->]. cbn [py_getitem] in Hraw. rewrite Hbody in Hraw.
      injection Hraw as <-.
      apply bind_ok in Hparsed as (body & w5 & Hparse & Hparsed).
      unfold ret in Hparsed. injection Hparsed as <- _. f_equal.
      unfold _parse_request_body, bind in Hparse.
      destruct (deref (VDict d) components _) as [r w6] eqn:Hderef.
      apply (f_equal fst) in Hderef. rewrite (deref_dangling d text) in Hderef by assumption.
      cbn [fst] in Hderef. subst r.
      unfold ret in Hparse. now injection Hparse as <- _. }
    subst request_body.
    repeat (apply bind_ok in H as (? & ? & _ & H)).
    unfold ret in H. injection H as <- _. reflexivity. }
  split; [exact Hrequest |]. intros api_mapping entity_map.
  unfold APIExecutor._build_body. rewrite Hrequest.
  rewrite bool_decide_eq_true_2 by reflexivity.
  now destruct (APIMapping.method api_mapping).
Qed.

(** The loop over the servers keeps one entry for each server object. *)
Lemma parse_servers_entries (raw_servers : list PyVal) (acc servers : list (gmap string PyVal)) :
  res_fold parse_server raw_servers (Ok acc) = Ok servers ->
  exists added, servers = (acc ++ added)%list /\ Forall2 server_entry raw_servers added.
Proof.
  revert acc. induction raw_servers as [|raw raws IH]; intros acc H.
  - injection H as <-. exists []. split; [now rewrite app_nil_r | constructor].
  - cbn [res_fold res_bind] in H.
    destruct (parse_server acc raw) as [acc' | e] eqn:E;
      [| rewrite ExecutorFacts.res_fold_raise in H; discriminate H].
    destruct (IH _ H) as (added & -> & Hadded).
    unfold parse_server in E. destruct raw as [| | | | | | server]; try discriminate E.
    cbn [py_get res_bind] in E. injection E as <-.
    eexists (_ :: added). split; [now rewrite <- app_assoc |].
    constructor; [| exact Hadded]. exists server. split; reflexivity.
Qed.

Lemma validate_servers_length (servers : list (gmap string PyVal))
    (checked : list (gmap string string)) :
  validate_servers servers = Ok checked -> length checked = length servers.
Proof.
  revert checked. induction servers as [|server servers IH]; intros checked H.
  - injection H as <-. reflexivity.
  - cbn [validate_servers] in H. destruct (validate_str_dict server); [| discriminate H].
    cbn [res_bind] in H. destruct (validate_servers servers) as [others |]; [| discriminate H].
    cbn [res_bind] in H. injection H as <-. cbn [length]. now rewrite (IH others).
Qed.

(** X17.  A specification that parses keeps one server entry for
    every server object of the document, and its base address is what
    the validation of a text makes of the [url] of the first server
    object, or of the empty text when the document lists no server or
    the first one has no [url]. *)
Theorem base_url_is_first_server (spec : gmap string PyVal) (warnings warnings' : list string)
    (api_spec : APISpec.t) :
  _parse_spec spec warnings = (Ok api_spec, warnings') ->
  exists raw_servers,
    py_iter (dict_get spec "servers" (VList [])) = Ok raw_servers
    /\ length (APISpec.servers api_spec) = length raw_servers
    /\ validate_str (first_server_url raw_servers) = Ok (APISpec.base_url api_spec).
Proof.
  intros H. unfold _parse_spec in H.
  apply bind_ok in H as (raw_servers & w0 & Hraw & H). apply lift_ok in Hraw as [Hraw ->].
  apply bind_ok in H as (servers & w1 & Hservers & H). apply lift_ok in Hservers as [Hservers ->].
  destruct (parse_servers_entries _ _ _ Hservers) as (added & -> & Hadded).
  rewrite app_nil_l in H.
  do 9 (apply bind_ok in H as (? & ? & _ & H)).
  apply bind_ok in H as (base & w2 & Hbase & H). apply lift_ok in Hbase as [Hbase ->].
  apply bind_ok in H as (checked & w3 & Hchecked & H). apply lift_ok in Hchecked as [Hchecked ->].
  apply bind_ok in H as (? & ? & _ & H).
  unfold ret in H. injection H as <- _. cbn [APISpec.servers APISpec.base_url].
  exists raw_servers. split; [exact Hraw |]. split.
  - rewrite (validate_servers_length _ _ Hchecked). symmetry. exact (Forall2_length _ _ _ Hadded).
  - destruct Hadded as [|raw entry raws entries (server & -> & ->) _]; [exact Hbase |].
    cbn [first_server_url]. rewrite <- Hbase. f_equal.
Qed.

End Parser.

(** An instance of X17: a document with two servers, the first of
    which gives the base address. *)
Lemma shop_document_servers :
  (exists raw_servers,
     py_iter (R := Sample.runtime) (dict_get Cases.shop_document "servers" (VList []))
     = Ok raw_servers
     /\ length (APISpec.servers Cases.shop_spec) = length raw_servers
     /\ validate_str (Runtime := Sample.runtime) (first_server_url raw_servers)
        = Ok (APISpec.base_url Cases.shop_spec))
  /\ length (APISpec.servers Cases.shop_spec) = 2%nat
  /\ APISpec.base_url Cases.shop_spec = "http://shop.test/v1".
Proof.
  split; [| split; reflexivity].
  exact (base_url_is_first_server (R := Sample.runtime) Cases.shop_document [] []
           Cases.shop_spec eq_refl).
Defined.

(** An instance of X30: a request body that points into another file. *)
Lemma foreign_body_not_sent :
  APIEndpoint.request_body Cases.bodiless_create_pet = Some ∅
  /\ forall api_mapping entity_map,
       APIExecutor._build_body (R := Sample.runtime) (Some Cases.bodiless_create_pet)
                               api_mapping entity_map
       = Ok None.
Proof.
  exact (dangling_body_not_sent (R := Sample.runtime) "/pets" POST Cases.foreign_body_operation
           Cases.foreign_body "common.yaml#/bodies/pet" [] (VDict ∅) []
           ["External reference not supported: common.yaml#/bodies/pet"]
           Cases.bodiless_create_pet eq_refl eq_refl eq_refl eq_refl).
Defined.

(** An instance of X14: a document with three paths and two methods
    under one of them.  The endpoints follow the paths as the document
    lists them, which is not the order of the finite map; under [/pets],
    [get] comes before [post] although the document has them the other
    way round; the path whose item is a text gives no endpoint. *)
Lemma shop_document_operations :
  (exists paths,
     dict_get Cases.shop_document "paths" (VDict ∅) = VDict paths
     /\ operation_of <$> APISpec.endpoints Cases.shop_spec
        = declared_operations (R := Sample.runtime) paths
     /\ NoDup (operation_of <$> APISpec.endpoints Cases.shop_spec))
  /\ operation_of <$> APISpec.endpoints Cases.shop_spec
     = [("/pets", GET); ("/pets", POST); ("/health", GET)]
  /\ (exists paths,
        dict_get Cases.shop_document "paths" (VDict ∅) = VDict paths
        /\ (dict_items (Runtime := Sample.runtime) paths).*1 = ["/pets"; "/health"; "/owners"]
        /\ (map_to_list paths).*1 = ["/owners"; "/health"; "/pets"]).
Proof.
  split; [| split; [reflexivity |]].
  - exact (parsed_endpoints_are_operations (R := Sample.runtime) Cases.shop_document [] []
             Cases.shop_spec eq_refl).
  - eexists. split; [reflexivity |]. split; reflexivity.
Defined.

(** An instance of X15. *)
Lemma list_pets_found :
  APIExecutor._find_endpoint (APIExecutor.init Cases.pets_spec None QAAgent.default_timeout)
    "/pets" GET
  = Some Cases.list_pets.
Proof.
  apply (parsed_endpoints_found (R := Sample.runtime) Cases.pets_document [] [] Cases.pets_spec
           None QAAgent.default_timeout Cases.list_pets eq_refl).
  apply list_elem_of_here.
Defined.

(** An instance of X13: a parameter that points into another file. *)
Lemma foreign_parameter_omitted :
  fst (_parse_parameters (R := Sample.runtime)
         (VList [Cases.id_parameter; VDict Cases.foreign_parameter]) (VDict ∅) [])
  = fst (_parse_parameters (R := Sample.runtime) (VList [Cases.id_parameter]) (VDict ∅) []).
Proof.
  exact (dangling_parameter_omitted (R := Sample.runtime) Cases.foreign_parameter
           "common.yaml#/parameters/limit" (VDict ∅) [Cases.id_parameter] [] []
           eq_refl eq_refl).
Defined.

(** An instance of X16. *)
Lemma unnamed_operation_example :
  APIEndpoint.operation_id
    (APIEndpoint.mk "/pets/{id}" GET "get_pets" EmptyString EmptyString [] [] None [] None None)
  = _generate_operation_id "/pets/{id}" GET
  /\ exists earlier,
       ["Missing operationId for GET /pets/{id}, generated: get_pets"]
       = (earlier ++ ["Missing operationId for " +:+ method_value GET +:+ " " +:+ "/pets/{id}"
                        +:+ ", generated: " +:+ _generate_operation_id "/pets/{id}" GET])%list.
Proof.
  exact (missing_operation_id_generated (R := Sample.runtime) "/pets/{id}" GET ∅ [] (VDict ∅) []
           ["Missing operationId for GET /pets/{id}, generated: get_pets"]
           (APIEndpoint.mk "/pets/{id}" GET "get_pets" EmptyString EmptyString [] [] None []
                           None None)
           (fun text => eq_refl) eq_refl eq_refl).
Defined.

End OperationFacts.

(** ** Generated operation identifiers *)

Module IdentifierFacts.
Import OpenAPIParser StrFacts PathSpec.

Lemma rev_acc_app (s acc : string) : Str.rev_acc s acc = Str.rev_acc s EmptyString +:+ acc.
Proof.
  revert acc. induction s as [|a s IH]; intros acc; [reflexivity |].
  cbn [Str.rev_acc]. rewrite (IH (String a acc)), (IH (String a EmptyString)).
  now rewrite app_assoc, app_cons, app_nil.
Qed.

Lemma rev_cons (a : ascii) (s : string) : Str.rev (String a s) = Str.rev s +:+ String a EmptyString.
Proof. unfold Str.rev. cbn [Str.rev_acc]. apply rev_acc_app. Qed.

Lemma rev_snoc (a : ascii) (s : string) : Str.rev (s +:+ String a EmptyString) = String a (Str.rev s).
Proof.
  induction s as [|b s IH]; [reflexivity |].
  rewrite app_cons, !rev_cons, IH. now rewrite app_cons.
Qed.

Lemma has_char_rev (c : ascii) (s : string) : Str.has_char c (Str.rev s) = Str.has_char c s.
Proof.
  induction s as [|a s IH]; [reflexivity |].
  rewrite rev_cons, has_char_app, IH. cbn [Str.has_char].
  destruct (Ascii.eqb a c); [apply orb_true_r | apply orb_false_r].
Qed.

Lemma has_char_lstrip (c d : ascii) (s : string) :
  Str.has_char c s = false -> Str.has_char c (Str.lstrip d s) = false.
Proof.
  induction s as [|a s IH]; intros H; [reflexivity |].
  cbn [Str.lstrip]. destruct (Ascii.eqb a d); [| exact H].
  apply IH. cbn [Str.has_char] in H. destruct (Ascii.eqb a c); [discriminate H | exact H].
Qed.

Lemma has_char_strip (c d : ascii) (s : string) :
  Str.has_char c s = false -> Str.has_char c (Str.strip d s) = false.
Proof.
  intros H. unfold Str.strip, Str.rstrip.
  rewrite has_char_rev. apply has_char_lstrip. rewrite has_char_rev. now apply has_char_lstrip.
Qed.

Lemma lstrip_snoc (c a : ascii) (s : string) :
  Ascii.eqb a c = false ->
  Str.lstrip c (s +:+ String a EmptyString) = Str.lstrip c s +:+ String a EmptyString.
Proof.
  intros Ha. induction s as [|b s IH].
  - rewrite app_nil. cbn [Str.lstrip]. now rewrite Ha.
  - rewrite app_cons. cbn [Str.lstrip]. destruct (Ascii.eqb b c); [exact IH |].
    now rewrite app_cons.
Qed.

(** [rstrip] leaves a first character that is not stripped where it
    is. *)
Lemma rstrip_cons (c a : ascii) (s : string) :
  Ascii.eqb a c = false -> Str.rstrip c (String a s) = String a (Str.rstrip c s).
Proof.
  intros Ha. unfold Str.rstrip. rewrite rev_cons, lstrip_snoc by exact Ha. apply rev_snoc.
Qed.

Lemma startswith_one (c a : ascii) (s : string) :
  Str.startswith (String c EmptyString) (String a s) = Ascii.eqb c a.
Proof. cbn [Str.startswith]. now destruct (Ascii.eqb c a). Qed.

(** What [strip] returns does not begin with the stripped character. *)
Lemma strip_start (c : ascii) (s : string) :
  Str.startswith (String c EmptyString) (Str.strip c s) = false.
Proof.
  unfold Str.strip. induction s as [|a s IH]; [reflexivity |].
  cbn [Str.lstrip]. destruct (Ascii.eqb a c) eqn:Ha; [exact IH |].
  rewrite rstrip_cons by exact Ha. rewrite startswith_one. now rewrite Ascii.eqb_sym.
Qed.

Lemma no_slash_left (s : string) : Str.has_char "/" (slashes_to_underscores s) = false.
Proof.
  induction s as [|a s IH]; [reflexivity |].
  cbn [slashes_to_underscores Str.has_char]. rewrite IH.
  destruct (Ascii.eqb a "/") eqn:Ha; [reflexivity | now rewrite Ha].
Qed.

Lemma has_char_collapse (c : ascii) (s : string) :
  Str.has_char c s = false -> Str.has_char c (collapse_underscores s) = false.
Proof.
  induction s as [|a s IH]; intros H; [reflexivity |].
  cbn [Str.has_char] in H. destruct (Ascii.eqb a c) eqn:Ha; [discriminate H |].
  cbn [collapse_underscores]. destruct (_ && _); [now apply IH |].
  cbn [Str.has_char]. rewrite Ha. now apply IH.
Qed.

(** Collapsing does not change whether a text begins with an
    underscore. *)
Lemma collapse_start (s : string) :
  Str.startswith "_" (collapse_underscores s) = Str.startswith "_" s.
Proof.
  induction s as [|a s IH]; [reflexivity |].
  cbn [collapse_underscores]. rewrite startswith_one.
  destruct (Ascii.eqb a "_") eqn:Ha; cbn [andb].
  - destruct (Str.startswith "_" s) eqn:Hs.
    + rewrite IH. now rewrite Ascii.eqb_sym.
    + now rewrite startswith_one.
  - now rewrite startswith_one.
Qed.

Lemma startswith_two (c : ascii) (a : ascii) (s : string) :
  Str.startswith (String c (String c EmptyString)) (String a s)
  = Ascii.eqb c a && Str.startswith (String c EmptyString) s.
Proof. cbn [Str.startswith]. now destruct (Ascii.eqb c a). Qed.

Lemma contains_two_cons (c a : ascii) (s : string) :
  Str.contains (String c (String c EmptyString)) (String a s)
  = (Ascii.eqb c a && Str.startswith (String c EmptyString) s)
    || Str.contains (String c (String c EmptyString)) s.
Proof.
  cbn [Str.contains]. rewrite startswith_two.
  now destruct (Ascii.eqb c a && Str.startswith (String c EmptyString) s).
Qed.

(** After collapsing, no two underscores follow each other. *)
Lemma collapse_single (s : string) : Str.contains "__" (collapse_underscores s) = false.
Proof.
  induction s as [|a s IH]; [reflexivity |].
  cbn [collapse_underscores].
  destruct (Ascii.eqb a "_") eqn:Ha; cbn [andb].
  - destruct (Str.startswith "_" s) eqn:Hs; [exact IH |].
    rewrite contains_two_cons, IH, collapse_start, Hs. now rewrite andb_false_r.
  - rewrite contains_two_cons, IH. now rewrite Ascii.eqb_sym, Ha.
Qed.

(** X18.  A generated operation identifier begins with the
    lower-case method name, holds no slash and no two underscores in a
    row, whatever the path. *)
Theorem generated_id_shape (path : string) (method : HTTPMethod) :
  Str.startswith (method_lower method) (_generate_operation_id path method) = true
  /\ Str.has_char "/" (_generate_operation_id path method) = false
  /\ Str.contains "__" (_generate_operation_id path method) = false.
Proof.
  unfold _generate_operation_id.
  set (clean := collapse_underscores
                  (Str.strip "_" (slashes_to_underscores (remove_placeholders 0 path)))).
  assert (Hslash : Str.has_char "/" clean = false).
  { apply has_char_collapse, has_char_strip, no_slash_left. }
  assert (Hstart : Str.startswith "_" clean = false).
  { unfold clean. rewrite collapse_start. apply strip_start. }
  assert (Hsingle : Str.contains "__" clean = false) by apply collapse_single.
  destruct (String.eqb clean EmptyString).
  - destruct method; repeat split; reflexivity.
  - split; [apply startswith_app |]. split.
    + rewrite !has_char_app, Hslash. now destruct method.
    + destruct method; cbn [method_lower]; rewrite !app_cons, !app_nil;
        rewrite !contains_two_cons, Hsingle, Hstart; reflexivity.
Qed.

Lemma index_of_closing (name rest : string) :
  Str.has_char "}" name = false ->
  index_of "}" (name +:+ String "}" rest) = Some (String.length name).
Proof.
  induction name as [|a name IH]; intros H; [reflexivity |].
  cbn [Str.has_char] in H. rewrite app_cons. cbn [index_of String.length].
  destruct (Ascii.eqb a "}"); [discriminate H |]. now rewrite IH.
Qed.

Lemma remove_placeholders_skip (u : string) (c : ascii) (t : string) :
  remove_placeholders (S (String.length u)) (u +:+ String c t) = remove_placeholders 0 t.
Proof.
  induction u as [|a u IH]; [reflexivity |].
  rewrite app_cons. exact IH.
Qed.

Lemma remove_placeholders_copy (s t : string) :
  Str.has_char "{" s = false ->
  remove_placeholders 0 (s +:+ t) = s +:+ remove_placeholders 0 t.
Proof.
  induction s as [|a s IH]; intros H; [reflexivity |].
  cbn [Str.has_char] in H. rewrite !app_cons. cbn [remove_placeholders].
  destruct (Ascii.eqb a "{"); [discriminate H |]. now rewrite IH.
Qed.

Lemma remove_placeholders_hole (name rest : string) :
  name <> EmptyString ->
  Str.has_char "}" name = false ->
  remove_placeholders 0 (APIExecutor.placeholder name +:+ rest) = remove_placeholders 0 rest.
Proof.
  intros Hne H. unfold APIExecutor.placeholder.
  rewrite !app_assoc. rewrite app_cons, app_nil. rewrite (app_cons "}"), app_nil.
  cbn [remove_placeholders]. rewrite Ascii.eqb_refl.
  rewrite index_of_closing by exact H.
  destruct name as [|a name]; [now destruct Hne |].
  apply (remove_placeholders_skip (String a name)).
Qed.

Lemma app_empty (s : string) : s +:+ EmptyString = s.
Proof. induction s as [|a s IH]; [reflexivity |]. rewrite app_cons. now rewrite IH. Qed.

Lemma remove_placeholders_plain (s : string) :
  Str.has_char "{" s = false -> remove_placeholders 0 s = s.
Proof.
  intros H. rewrite <- (app_empty s) at 1.
  rewrite remove_placeholders_copy by exact H. apply app_empty.
Qed.

(** On a path read as segments, what is removed are the
    placeholders. *)
Lemma remove_placeholders_segments (segs : list seg) :
  Forall (fun s => seg_ok s = true) segs ->
  Forall (fun s => s <> Hole EmptyString) segs ->
  remove_placeholders 0 (path_text segs) = path_text (List.filter ParserSpec.literal segs).
Proof.
  intros Hok Hnamed. induction Hok as [|s segs Hs Hok IH]; [reflexivity |].
  apply Forall_cons in Hnamed as [Hn Hnamed].
  cbn [path_text List.filter]. destruct s as [text | name]; cbn [ParserSpec.literal seg_text].
  - cbn [seg_ok] in Hs. apply negb_true_iff in Hs.
    rewrite remove_placeholders_copy by exact Hs. cbn [path_text seg_text].
    now rewrite IH.
  - cbn [seg_ok] in Hs. unfold plain_name in Hs. apply andb_prop in Hs as [_ Hs].
    apply negb_true_iff in Hs.
    rewrite remove_placeholders_hole; [now apply IH | | exact Hs].
    intros ->. now apply Hn.
Qed.

(** X19.  The placeholders of a path have no part in the
    generated identifier: on a path made of literal pieces and
    placeholders with a name, the identifier is the one of the path
    without its placeholders. *)
Theorem generated_id_ignores_placeholders (segs : list seg) (method : HTTPMethod) :
  Forall (fun s => seg_ok s = true) segs ->
  Forall (fun s => s <> Hole EmptyString) segs ->
  _generate_operation_id (path_text segs) method
  = _generate_operation_id (path_text (List.filter ParserSpec.literal segs)) method.
Proof.
  intros Hok Hnamed. unfold _generate_operation_id.
  rewrite (remove_placeholders_segments segs Hok Hnamed).
  assert (Hplain : Str.has_char "{" (path_text (List.filter ParserSpec.literal segs)) = false).
  { clear Hnamed. induction Hok as [|s segs Hs Hok IH]; [reflexivity |].
    cbn [List.filter]. destruct s as [text | name]; cbn [ParserSpec.literal]; [| exact IH].
    cbn [path_text seg_text]. rewrite has_char_app, IH.
    cbn [seg_ok] in Hs. apply negb_true_iff in Hs. now rewrite Hs. }
  now rewrite (remove_placeholders_plain _ Hplain).
Qed.

(** An instance of X19. *)
Lemma pet_by_id_identifier :
  _generate_operation_id "/pets/{id}" GET = _generate_operation_id "/pets/" GET.
Proof.
  apply (generated_id_ignores_placeholders [Lit "/pets/"; Hole "id"] GET).
  - repeat constructor.
  - repeat constructor; intros H; discriminate H.
Defined.

End IdentifierFacts.

(** ** Rendering the results of a scenario *)

Module PipelineFacts.
Import APIExecutor TemplateRenderer QAAgent ExecutorSpec PipelineSpec.

Section Facts.
Context `{R : Runtime}.

Lemma render_plain_returns (template : string) (data : gmap string PyVal) (st : St) :
  render_plain template data st
  = (Ok (fault_text (jinja_render template data)),
     mkSt (world st) (trace st ++ [EvJinja template data])).
Proof. reflexivity. Qed.

(** X20.  [render] always returns a text and never raises: the
    engine is invoked on the template, and at most once more, on the
    error template, when the first invocation fails; the remote state
    is not touched.  When the template renders, its text is the
    result. *)
Theorem render_returns (template : string) (data : gmap string PyVal)
    (error_template : option string) (st : St) :
  exists text more,
    render template data error_template st
    = (Ok text, mkSt (world st) (trace st ++ EvJinja template data :: more))
    /\ (more = []
        \/ exists report,
             more = [EvJinja (default EmptyString error_template) {["error" := VStr report]}])
    /\ (forall rendered, jinja_render template data = Rendered rendered ->
                         text = rendered /\ more = []).
Proof.
  unfold render, bind, emit, ret.
  destruct (jinja_render template data) as [text | message | message | message] eqn:E.
  1: { exists text, []. split; [reflexivity |]. split; [now left |].
       intros rendered Hr. injection Hr as <-. now split. }
  all: destruct (truthy_opt error_template);
    [ rewrite render_plain_returns; cbn [world trace]; eexists _, [_];
      split; [now rewrite <- app_assoc |]; split; [right; eauto |];
      intros ? Hr; discriminate Hr
    | eexists _, []; split; [reflexivity |]; split; [now left |];
      intros ? Hr; discriminate Hr ].
Qed.

Lemma render_ok (template : string) (data : gmap string PyVal)
    (error_template : option string) (st : St) :
  exists text events,
    render template data error_template st = (Ok text, mkSt (world st) (trace st ++ events))
    /\ Forall (fun ev => is_http ev = false) events.
Proof.
  unfold render, bind, emit, ret.
  destruct (jinja_render template data); try destruct (truthy_opt error_template);
    try rewrite render_plain_returns; cbn [world trace]; rewrite <- ?app_assoc;
    eexists _, _; (split; [reflexivity |]); repeat constructor.
Qed.

Lemma filter_partition {A} (f : A -> bool) (l : list A) :
  length (List.filter f l) + length (List.filter (fun x => negb (f x)) l) = length l.
Proof.
  induction l as [|x l IH]; [reflexivity |].
  cbn [List.filter]. destruct (f x); cbn [negb length]; lia.
Qed.

(** X21.  In the context of every rendering the two counters add
    up to the number of results, and [_results] is the list of
    results. *)
Theorem helper_counts_add_up (results : list (gmap string PyVal)) :
  exists successes failures : Z,
    context_of results !! "_success_count" = Some (VInt successes)
    /\ context_of results !! "_error_count" = Some (VInt failures)
    /\ (successes + failures)%Z = Z.of_nat (length results)
    /\ context_of results !! "_results" = Some (VList (VDict <$> results)).
Proof.
  destruct (RendererFacts.context_helpers results) as (Hresults & Hs & He).
  eexists _, _. split; [exact Hs |]. split; [exact He |]. split; [| exact Hresults].
  rewrite <- Nat2Z.inj_add. f_equal. apply filter_partition.
Qed.

Lemma well_formed_reports_text (api_mapping : APIMapping.t) (r : gmap string PyVal) :
  well_formed_result api_mapping r -> reports_text r.
Proof.
  intros (_ & [success Hs] & _ & Hfalse) Hfailed.
  unfold succeeded, dict_get in Hfailed. rewrite Hs in Hfailed. cbn [truthy] in Hfailed.
  subst success. destruct (Hfalse Hs) as [_ [message Hm]].
  exists message. unfold dict_get. now rewrite Hm.
Qed.

Lemma join_failures (i : nat) (results : list (gmap string PyVal)) :
  Forall reports_text results ->
  exists messages,
    join_items i ((fun r => dict_get r "error" (VStr "Unknown error"))
                    <$> List.filter (fun r => negb (succeeded r)) results)
    = Ok messages.
Proof.
  intros H. revert i. induction H as [|r results Hr _ IH]; intros i; [cbn; eauto |].
  cbn [List.filter]. destruct (succeeded r) eqn:E; cbn [negb]; [apply IH |].
  cbn [fmap list_fmap]. destruct (Hr E) as [message ->]. cbn [join_items].
  destruct (IH (S i)) as [messages ->]. cbn [res_bind]. eauto.
Qed.

(** On results whose failure messages are texts, [render_api_response]
    returns a text, and what it adds to the trace are invocations of
    the engine. *)
Lemma render_api_response_ok (template error_template no_data_template : string)
    (results : list (gmap string PyVal)) (st : St) :
  Forall reports_text results ->
  exists text events,
    render_api_response template results error_template no_data_template st
    = (Ok text, mkSt (world st) (trace st ++ events))
    /\ Forall (fun ev => is_http ev = false) events.
Proof.
  intros H. unfold render_api_response.
  destruct (_ && _).
  - destruct (join_failures 0 results H) as [messages Hm].
    unfold bind at 1, lift. rewrite Hm. apply render_ok.
  - case_bool_decide.
    + exists no_data_template, []. unfold ret. rewrite app_nil_r. destruct st. split; [reflexivity |].
      constructor.
    + apply render_ok.
Qed.

Lemma executed_report_text (call : APIMapping.t -> gmap string PyVal -> M PyVal)
    (mappings : list APIMapping.t) (entity_map : gmap string PyVal) (st : St) :
  Forall reports_text (fst (execute_mappings call mappings entity_map st)).
Proof.
  pose proof (ExecutorClaims.execute_mappings_well_formed call mappings entity_map st) as H.
  induction H as [|m r ms rs Hr _ IH]; constructor; [| exact IH].
  exact (well_formed_reports_text m r Hr).
Qed.

(** X22.  Whatever the calls of a scenario did, its results can
    be rendered: [render_api_response] on the results of
    [execute_scenario] returns a text and does not raise, for every
    [_execute_api_call], every template and every scenario, and leaves
    the remote state as the calls left it. *)
Theorem scenario_results_render (call : APIMapping.t -> gmap string PyVal -> M PyVal)
    (scenario : Scenario.t) (extracted_entities : list ExtractedEntity.t)
    (template error_template no_data_template : string) (st : St) :
  exists results st1 text st2,
    execute_scenario call scenario extracted_entities st = (Ok results, st1)
    /\ render_api_response template results error_template no_data_template st1 = (Ok text, st2)
    /\ world st2 = world st1.
Proof.
  unfold execute_scenario.
  pose proof (executed_report_text call (Scenario.api_mappings scenario)
                (build_entity_map extracted_entities) st) as H.
  destruct (execute_mappings _ _ _ _) as [results st1]. cbn [fst] in H.
  destruct (render_api_response_ok template error_template no_data_template results st1 H)
    as (text & events & Hrender & _).
  exists results, st1, text, (mkSt (world st1) (trace st1 ++ events)).
  split; [reflexivity |]. split; [exact Hrender | reflexivity].
Qed.

(** The list of calls can be made of well-formed results: both keys are
    there. *)
Lemma calls_made_well_formed (mappings : list APIMapping.t) (results : list (gmap string PyVal)) :
  Forall2 well_formed_result mappings results ->
  calls_made results = Ok (call_made <$> results).
Proof.
  induction 1 as [|m r ms rs (He & [success Hs] & _) _ IH]; [reflexivity |].
  cbn [calls_made]. unfold item. rewrite He, Hs. cbn [res_bind]. rewrite IH. cbn [res_bind fmap list_fmap].
  f_equal. f_equal. unfold call_made, dict_get. now rewrite He, Hs.
Qed.

(** For a scenario with a response template, steps 3 and 4 of
    [answer] always end in a response. *)
Lemma invoke_with_template (self : QAAgent.t) (question : string)
    (scenario : Scenario.t) (entities : list ExtractedEntity.t) (tpl : ResponseTemplate.t)
    (st : St) :
  Scenario.response_template scenario = Some tpl ->
  exists response st',
    invoke_and_answer self question scenario entities st = (Ok response, st')
    /\ AgentResponse.scenario_used response = Some (Scenario.name scenario)
    /\ Forall2 well_formed_result (Scenario.api_mappings scenario)
               (AgentResponse.raw_api_responses response)
    /\ AgentResponse.api_calls_made response
       = call_made <$> AgentResponse.raw_api_responses response.
Proof.
  intros Htpl. unfold invoke_and_answer. rewrite Htpl.
  unfold bind at 1, emit. unfold bind at 1. unfold execute_scenario.
  set (st0 := mkSt (world st) (trace st ++ [EvEngine scenario entities])).
  pose proof (ExecutorClaims.execute_mappings_well_formed (api_call self)
                (Scenario.api_mappings scenario) (build_entity_map entities) st0) as Hwf.
  pose proof (executed_report_text (api_call self) (Scenario.api_mappings scenario)
                (build_entity_map entities) st0) as Htext.
  destruct (execute_mappings _ _ _ _) as [results st1]. cbn [fst] in Hwf, Htext.
  destruct (render_api_response_ok (ResponseTemplate.template tpl)
              (ResponseTemplate.error_template tpl) (ResponseTemplate.no_data_template tpl)
              results st1 Htext) as (text & events & Hrender & _).
  unfold bind at 1. rewrite Hrender.
  unfold bind, lift. rewrite (calls_made_well_formed _ _ Hwf).
  eexists _, _. split; [reflexivity |]. cbn. auto.
Qed.

(** X23.  When the AI collaborator answers the matching request
    and the scenario it names, if any, has a response template,
    [answer] returns a response and does not raise, whatever the
    server does: every failure of a call has become a text.  The list
    of calls of the response repeats the label and the success flag of
    each raw result. *)
Theorem answer_returns (self : QAAgent.t) (question : string) (st : St)
    (match_result : option ScenarioMatch.t) (w : World) :
  ai_match_scenario question (AgentConfig.scenarios (config self)) (world st)
  = (Ok match_result, w) ->
  (forall found, match_result = Some found ->
                 is_Some (Scenario.response_template (ScenarioMatch.scenario found))) ->
  exists response st',
    answer self question st = (Ok response, st')
    /\ AgentResponse.api_calls_made response
       = call_made <$> AgentResponse.raw_api_responses response.
Proof.
  intros Hmatch Htpl. unfold answer, bind at 1, match_scenario, bind at 1, emit.
  cbn [world trace]. rewrite Hmatch.
  destruct match_result as [found |]; [| eexists _, _; split; reflexivity].
  destruct (SFltb _ _); [eexists _, _; split; reflexivity |].
  destruct (_check_missing_entities _ _); [| eexists _, _; split; reflexivity].
  destruct (Htpl found eq_refl) as [tpl Hfound].
  destruct (invoke_with_template self question (ScenarioMatch.scenario found)
              (ScenarioMatch.extracted_entities found) tpl
              (mkSt w (trace st ++ [EvMatch question])) Hfound)
    as (response & st' & Hrun & _ & _ & Hcalls).
  exists response, st'. split; [exact Hrun | exact Hcalls].
Qed.

(** What a call that sends nothing leaves of the trace. *)
Lemma sends_nothing_ret {A} (a : A) : sends_nothing (ret a).
Proof. intros st. exists []. split; [now rewrite app_nil_r | constructor]. Qed.

Lemma sends_nothing_lift {A} (r : Res A) : sends_nothing (lift r).
Proof. intros st. exists []. split; [now rewrite app_nil_r | constructor]. Qed.

Lemma sends_nothing_emit (ev : Event) : is_http ev = false -> sends_nothing (emit ev).
Proof. intros H st. exists [ev]. split; [reflexivity | now constructor]. Qed.

Lemma sends_nothing_bind {A B} (m : M A) (k : A -> M B) :
  sends_nothing m -> (forall a, sends_nothing (k a)) -> sends_nothing (bind m k).
Proof.
  intros Hm Hk st. unfold bind. destruct (Hm st) as (events & Ht & Hq).
  destruct (m st) as [[a | e] st1]; cbn [snd] in *.
  - destruct (Hk a st1) as (events' & Ht' & Hq'). exists (events ++ events')%list.
    split; [now rewrite Ht', Ht, app_assoc | now apply Forall_app].
  - now exists events.
Qed.

Lemma sends_nothing_render template data error_template :
  sends_nothing (render template data error_template).
Proof.
  intros st. destruct (render_ok template data error_template st) as (text & events & -> & H).
  now exists events.
Qed.

Lemma sends_nothing_execute (call : APIMapping.t -> gmap string PyVal -> M PyVal)
    (scenario : Scenario.t) (entities : list ExtractedEntity.t) :
  (forall api_mapping entity_map, sends_nothing (call api_mapping entity_map)) ->
  sends_nothing (execute_scenario call scenario entities).
Proof.
  intros Hcall st. unfold execute_scenario.
  generalize (build_entity_map entities). intros entity_map.
  assert (H : exists events,
             trace (snd (execute_mappings call (Scenario.api_mappings scenario) entity_map st))
             = (trace st ++ events)%list
             /\ Forall (fun ev => is_http ev = false) events).
  { revert st. induction (Scenario.api_mappings scenario) as [|m ms IH]; intros st.
    - exists []. split; [cbn; now rewrite app_nil_r | constructor].
    - cbn [execute_mappings]. destruct (Hcall m entity_map st) as (events & Ht & Hq).
      destruct (call m entity_map st) as [outcome st1]. cbn [snd] in Ht.
      destruct (IH st1) as (events' & Ht' & Hq').
      destruct (execute_mappings call ms entity_map st1) as [results st2]. cbn [snd] in *.
      exists (events ++ events')%list.
      split; [now rewrite Ht', Ht, app_assoc | now apply Forall_app]. }
  destruct (execute_mappings _ _ _ _) as [results st']. exact H.
Qed.

Lemma sends_nothing_mock (self : MockAPIExecutor.t) (api_mapping : APIMapping.t)
    (entity_map : gmap string PyVal) :
  sends_nothing (MockAPIExecutor._execute_api_call self api_mapping entity_map).
Proof.
  unfold MockAPIExecutor._execute_api_call.
  destruct (MockAPIExecutor.mock_responses self !! _); [apply sends_nothing_ret |].
  destruct (_find_endpoint _ _ _); [apply sends_nothing_lift | apply sends_nothing_ret].
Qed.

(** [answer] sends nothing but through the calls of its executor. *)
Lemma sends_nothing_answer (self : QAAgent.t) (question : string) :
  (forall api_mapping entity_map, sends_nothing (api_call self api_mapping entity_map)) ->
  sends_nothing (answer self question).
Proof.
  intros Hcall. unfold answer. apply sends_nothing_bind.
  - unfold match_scenario. apply sends_nothing_bind; [now apply sends_nothing_emit |].
    intros _ st. exists []. destruct (ai_match_scenario _ _ _).
    split; [cbn; now rewrite app_nil_r | constructor].
  - intros [found |]; [| apply sends_nothing_ret].
    destruct (SFltb _ _); [apply sends_nothing_ret |].
    destruct (_check_missing_entities _ _); [| apply sends_nothing_ret].
    unfold invoke_and_answer.
    apply sends_nothing_bind; [now apply sends_nothing_emit |]. intros _.
    apply sends_nothing_bind; [now apply sends_nothing_execute |]. intros results.
    apply sends_nothing_bind.
    + destruct (Scenario.response_template _) as [tpl |].
      * unfold render_api_response. destruct (_ && _).
        -- apply sends_nothing_bind; [apply sends_nothing_lift |]. intros messages.
           apply sends_nothing_render.
        -- case_bool_decide; [apply sends_nothing_ret | apply sends_nothing_render].
      * unfold answer_without_template.
        destruct (_ <$> List.filter has_data results).
        -- apply sends_nothing_bind; [apply sends_nothing_lift |]. intros messages.
           apply sends_nothing_ret.
        -- apply sends_nothing_bind; [now apply sends_nothing_emit |].
           intros _ st. exists []. destruct (ai_generate_response _ _ _ _).
           split; [cbn; now rewrite app_nil_r | constructor].
    + intros text. apply sends_nothing_bind; [apply sends_nothing_lift |]. intros calls.
      apply sends_nothing_ret.
Qed.

(** X24.  An agent created with [use_mock_api] sends no request:
    whatever the question, the collaborator's answer and the
    scenarios, nothing that [answer] adds to the trace is an HTTP
    request. *)
Theorem mock_agent_sends_nothing (config : AgentConfig.t) (question : string) (st : St) :
  exists events,
    trace (snd (answer (QAAgent.init config true) question st)) = (trace st ++ events)%list
    /\ Forall (fun ev => is_http ev = false) events.
Proof.
  apply sends_nothing_answer. intros api_mapping entity_map.
  cbn [QAAgent.init api_call]. apply sends_nothing_mock.
Qed.

(** X25.  With the mock's [_execute_api_call], a scenario is
    executed without any effect: the remote state and the trace are
    what they were. *)
Theorem mock_scenario_without_effect (self : MockAPIExecutor.t) (scenario : Scenario.t)
    (entities : list ExtractedEntity.t) (st : St) :
  snd (execute_scenario (MockAPIExecutor._execute_api_call self) scenario entities st) = st.
Proof.
  unfold execute_scenario. generalize (build_entity_map entities). intros entity_map.
  assert (H : snd (execute_mappings (MockAPIExecutor._execute_api_call self)
                     (Scenario.api_mappings scenario) entity_map st) = st).
  { induction (Scenario.api_mappings scenario) as [|m ms IH]; [reflexivity |].
    cbn [execute_mappings].
    assert (Hcall : snd (MockAPIExecutor._execute_api_call self m entity_map st) = st).
    { unfold MockAPIExecutor._execute_api_call.
      destruct (MockAPIExecutor.mock_responses self !! _); [reflexivity |].
      destruct (_find_endpoint _ _ _); reflexivity. }
    destruct (MockAPIExecutor._execute_api_call self m entity_map st) as [outcome st1].
    cbn [snd] in Hcall. subst st1.
    destruct (execute_mappings _ ms entity_map st) as [results st2]. exact IH. }
  destruct (execute_mappings _ _ _ _) as [results st']. exact H.
Qed.

End Facts.

(** An instance of X23: the question of the specification's example. *)
Lemma product_question_answered :
  exists response st',
    answer (R := Sample.runtime) Examples.agent "Which product is P1?"
           (Examples.start Examples.sure)
    = (Ok response, st')
    /\ AgentResponse.api_calls_made response
       = call_made <$> AgentResponse.raw_api_responses response.
Proof.
  apply (answer_returns (R := Sample.runtime) Examples.agent "Which product is P1?"
           (Examples.start Examples.sure)
           (Some (ScenarioMatch.mk Examples.product_scenario Examples.nine_tenths
                                   [Examples.product_entity]))
           Examples.sure eq_refl).
  intros found Hfound. injection Hfound as <-. eexists. reflexivity.
Defined.


End PipelineFacts.

(** ** The [truncate_text] filter *)

Module FilterFacts.
Import TemplateFilters StrFacts.

Lemma length_app (a b : string) :
  String.length (a +:+ b) = String.length a + String.length b.
Proof.
  induction a as [|x a IH]; [reflexivity |].
  rewrite app_cons. cbn [String.length]. now rewrite IH.
Qed.

Lemma length_prefix (n : nat) (s : string) :
  String.length (prefix n s) = Nat.min n (String.length s).
Proof.
  revert s. induction n as [|n IH]; intros s; [reflexivity |].
  destruct s as [|a s]; [reflexivity |]. cbn [prefix String.length]. now rewrite IH.
Qed.

Lemma prefix_starts (n : nat) (s : string) : Str.startswith (prefix n s) s = true.
Proof.
  revert s. induction n as [|n IH]; intros s; [now destruct s |].
  destruct s as [|a s]; [reflexivity |]. cbn [prefix Str.startswith].
  now rewrite Ascii.eqb_refl.
Qed.

Section Filters.
Context `{R : Runtime}.

(** X26.  When the suffix is not longer than the limit,
    [_truncate_text] returns a text of at most [length] characters: a
    value whose text fits comes back as its text, a longer one as a
    beginning of its text followed by the suffix, of [length]
    characters in all; and truncating the result again changes
    nothing. *)
Theorem truncate_text_bound (value : PyVal) (length : Z) (suffix : string) :
  (Z.of_nat (String.length suffix) <= length)%Z ->
  let text := py_str value in
  let result := _truncate_text value length suffix in
  (Z.of_nat (String.length result) <= length)%Z
  /\ ((Z.of_nat (String.length text) <= length)%Z -> result = text)
  /\ ((length < Z.of_nat (String.length text))%Z ->
      Z.of_nat (String.length result) = length
      /\ exists kept, result = kept +:+ suffix /\ Str.startswith kept text = true)
  /\ _truncate_text (VStr result) length suffix = result.
Proof.
  intros Hsuffix text result.
  assert (Hcases :
    ((Z.of_nat (String.length text) <= length)%Z /\ result = text)
    \/ ((length < Z.of_nat (String.length text))%Z
        /\ result = prefix (Z.to_nat (length - Z.of_nat (String.length suffix))) text +:+ suffix)).
  { unfold result, _truncate_text. fold text.
    destruct (Z.leb_spec (Z.of_nat (String.length text)) length) as [Hle | Hlt]; [now left |].
    right. split; [exact Hlt |]. unfold slice_to.
    destruct (Z.leb_spec 0 (length - Z.of_nat (String.length suffix))) as [_ | Hneg]; [reflexivity | lia]. }
  assert (Hlen : (Z.of_nat (String.length result) <= length)%Z
                 /\ ((length < Z.of_nat (String.length text))%Z ->
                     Z.of_nat (String.length result) = length)).
  { destruct Hcases as [[Hle ->] | [Hlt ->]]; [split; [exact Hle | lia] |].
    rewrite length_app, length_prefix. split; [| intros _]; lia. }
  destruct Hlen as [Hbound Hexact].
  split; [exact Hbound |]. split; [| split].
  - intros Hle. destruct Hcases as [[_ ->] | [Hlt _]]; [reflexivity | lia].
  - intros Hlt. split; [now apply Hexact |].
    destruct Hcases as [[Hle _] | [_ ->]]; [lia |].
    eexists. split; [reflexivity | apply prefix_starts].
  - unfold _truncate_text at 1. cbn [py_str].
    destruct (Z.leb_spec (Z.of_nat (String.length result)) length) as [_ | Hlt]; [reflexivity | lia].
Qed.

End Filters.

(** An instance of X26. *)
Lemma truncate_description_example :
  (Z.of_nat (String.length (_truncate_text (R := Sample.runtime) (VStr "A sturdy laptop") 10 "...")) <= 10)%Z
  /\ _truncate_text (R := Sample.runtime) (VStr "A sturdy laptop") 10 "..." = "A sturd...".
Proof.
  destruct (truncate_text_bound (R := Sample.runtime) (VStr "A sturdy laptop") 10 "..."
              ltac:(cbn; lia)) as (Hbound & _).
  split; [exact Hbound | reflexivity].
Defined.

End FilterFacts.

(** ** The registry of agents *)

Module ManagerFacts.
Import AgentManager.

Section Manager.
Context `{R : Runtime}.

(** X27.  The registry of agents behaves as a map from
    identifiers to agents: the agent [create_agent] returns is the one
    [get_agent] finds under its identifier afterwards, replacing any
    agent registered there before, and the other identifiers keep their
    agents; [remove_agent] says whether there was an agent to remove,
    after it the identifier has none and the others keep theirs; and
    [list_agents] lists exactly the identifiers that have an agent,
    each once. *)
Theorem registry_laws (self : t) (agent_id : string) (config : AgentConfig.t)
    (use_mock_api : bool) :
  let agent := fst (create_agent self agent_id config use_mock_api) in
  let created := snd (create_agent self agent_id config use_mock_api) in
  let removed := fst (remove_agent self agent_id) in
  let after := snd (remove_agent self agent_id) in
  agent = QAAgent.init config use_mock_api
  /\ get_agent created agent_id = Some agent
  /\ (forall other, other <> agent_id -> get_agent created other = get_agent self other)
  /\ (removed = true <-> is_Some (get_agent self agent_id))
  /\ get_agent after agent_id = None
  /\ (forall other, other <> agent_id -> get_agent after other = get_agent self other)
  /\ (forall other, other ∈ list_agents self <-> is_Some (get_agent self other))
  /\ NoDup (list_agents self).
Proof.
  cbv zeta. unfold create_agent, remove_agent, get_agent, list_agents. cbn [fst snd agents].
  split; [reflexivity |].
  split; [apply lookup_insert_eq |].
  split; [intros other Hne; now apply lookup_insert_ne |].
  split; [| split; [| split; [| split]]].
  - case_bool_decide as Hin; cbn [fst]; split; auto. intros H; discriminate H.
  - case_bool_decide as Hin; cbn [snd agents]; [apply lookup_delete_eq |].
    now apply eq_None_not_Some.
  - intros other Hne. case_bool_decide as Hin; cbn [snd agents]; [| reflexivity].
    now apply lookup_delete_ne.
  - intros other. rewrite list_elem_of_fmap. split.
    + intros ([k a] & -> & Hka). apply elem_of_map_to_list in Hka. cbn [fst]. eauto.
    + intros [a Ha]. exists (other, a). split; [reflexivity | now apply elem_of_map_to_list].
  - apply NoDup_fst_map_to_list.
Qed.

End Manager.
End ManagerFacts.

(** ** The mock executor *)

Module MockFacts.
Import MockAPIExecutor RequestSpec.

Section Mock.
Context `{R : Runtime}.

(** X28.  The mock executor takes its answer from the declared
    responses with a status from 200 to 299 only: the examples and
    schemas of the other responses have no part in it. *)
Theorem first_mock_successful_only (responses : list APIResponse.t) :
  first_mock responses = first_mock (List.filter successful responses).
Proof.
  induction responses as [|response rest IH]; [reflexivity |].
  cbn [List.filter first_mock]. unfold successful at 1.
  destruct (_ && _) eqn:E; [| exact IH].
  cbn [first_mock]. rewrite E, IH. reflexivity.
Qed.

(** X29.  A mock made from a schema has no key that is not a
    property of the schema. *)
Theorem mock_keys_are_properties (schema mock : gmap string PyVal) (key : string) :
  _generate_mock_from_schema schema = Ok mock ->
  is_Some (mock !! key) ->
  exists properties,
    dict_get schema "properties" (VDict ∅) = VDict properties
    /\ is_Some (properties !! key).
Proof.
  unfold _generate_mock_from_schema. intros H.
  destruct (dict_get schema "properties" (VDict ∅)) as [| | | | | | properties];
    try discriminate H.
  cbn [py_items res_bind] in H. intros Hkey. exists properties. split; [reflexivity |].
  revert key Hkey. revert H.
  apply (ExecutorFacts.res_fold_invariant
           (fun mock => forall key, is_Some (mock !! key) -> is_Some (properties !! key))).
  - intros acc [name prop_schema] acc' Hin Hacc Hstep key.
    rewrite (dict_items_entries properties) in Hin.
    apply elem_of_map_to_list in Hin. unfold mock_property in Hstep.
    destruct (py_get prop_schema "type" (VStr "string")) as [prop_type | e];
      [| discriminate Hstep].
    cbn [res_bind] in Hstep. injection Hstep as <-.
    repeat match goal with
           | |- context [if ?c then _ else _] => destruct c
           end;
      try apply Hacc;
      (destruct (decide (name = key)) as [<- | Hne];
       [intros _; eauto | rewrite lookup_insert_ne by exact Hne; apply Hacc]).
  - intros key [v Hv]. rewrite lookup_empty in Hv. discriminate Hv.
Qed.

End Mock.

(** An instance of X29. *)
Lemma mock_name_is_property :
  exists properties,
    dict_get ({["properties" := VDict {["name" := VDict ∅]}]} : gmap string PyVal)
             "properties" (VDict ∅) = VDict properties
    /\ is_Some (properties !! "name").
Proof.
  apply (mock_keys_are_properties (R := Sample.runtime)
           {["properties" := VDict {["name" := VDict ∅]}]} {["name" := VStr "mock_name"]} "name").
  - reflexivity.
  - exists (VStr "mock_name"). reflexivity.
Defined.

End MockFacts.
